(** * local-ai-chat backend: a shallow embedding of [backend/app.py] and
    [backend/db_init.py], and the properties of its authentication,
    completion and rating handlers.

    Conventions of the embedding.
    - Python [str] is Rocq's [string]; a character is one code point below
      256 (the Latin-1 range), which is where [str.strip], [str.lower] and
      [int] are modelled.
    - Python [int] is [Z]; a JSON float is the rational it denotes ([Q]) or
      one of the three non-finite floats, rounding is not modelled, and
      CPython's limit on the number of digits [int] and [str] convert (4300)
      is left out.
    - An exception is a value [Raise name]; an exception that leaves a view
      function is Flask's 500 response.
    - The bodies of [register] and [login] are the JSON values the client
      sent, whatever their shape.
    - The SQLite file is a record of three tables, each a list of rows in
      rowid order, and three AUTOINCREMENT counters.  A query that SQLite
      answers from the index of a [UNIQUE] pair returns its rows in the
      order of that index; an integer that comes from a token is bound to a
      statement only within signed 64 bits.  [execute_db] commits after
      every statement, and the handler monad logs each commit. *)

From Stdlib Require Import ZArith QArith List String Ascii Bool Lia.
Import ListNotations.

#[local] Set Warnings "-register-all".
#[local] Open Scope string_scope.
#[local] Open Scope Z_scope.

(** ** Python values *)

(** The floats that are no number of their own: [json.loads] reads
    [Infinity], [-Infinity] and [NaN], and a literal too large for a double
    (1e999) as an infinity. *)
Inductive nonfinite : Type := PosInf | NegInf | NaN.

(** The values [json.loads] produces and [jsonify] consumes. *)
Inductive json : Type :=
| JNull
| JBool (b : bool)
| JInt (n : Z)
| JFloat (q : Q)
| JStr (s : string)
| JList (l : list json)
| JObj (o : list (string * json))
| JNonFinite (x : nonfinite).

(** A Python [dict] with string keys, in insertion order. *)
Definition dict := list (string * json).

(** [d.get(k)] *)
Fixpoint dict_get (k : string) (d : dict) : option json :=
  match d with
  | [] => None
  | (k', v) :: d' => if String.eqb k k' then Some v else dict_get k d'
  end.

(** [d[k] = v]: overwrite in place, or append a new key. *)
Fixpoint dict_set (k : string) (v : json) (d : dict) : dict :=
  match d with
  | [] => [(k, v)]
  | (k', v') :: d' =>
      if String.eqb k k' then (k', v) :: d' else (k', v') :: dict_set k v d'
  end.

(** Truth value of a Python object, as [not x] and [x or y] test it. *)
Definition truthy (v : json) : bool :=
  match v with
  | JNull => false
  | JBool b => b
  | JInt n => negb (n =? 0)
  | JFloat q => negb (Qnum q =? 0)
  | JStr s => negb (String.eqb s "")
  | JList l => match l with [] => false | _ => true end
  | JObj o => match o with [] => false | _ => true end
  | JNonFinite _ => true
  end.

(** [x or y] *)
Definition py_or (x y : json) : json := if truthy x then x else y.

(** Results of code that may raise. *)
Inductive res (A : Type) : Type :=
| Ok (a : A)
| Raise (exn : string).
Arguments Ok {A} a.
Arguments Raise {A} exn.

(** ** Strings: [strip], [lower], [startswith], [split], [int], [str] *)

(** [str.isspace] on one character (code points below 256). *)
Definition is_space (c : ascii) : bool :=
  let n := Z.of_nat (nat_of_ascii c) in
  ((9 <=? n) && (n <=? 13)) || ((28 <=? n) && (n <=? 32))
  || (n =? 133) || (n =? 160).

Fixpoint lstrip (s : string) : string :=
  match s with
  | EmptyString => EmptyString
  | String c s' => if is_space c then lstrip s' else s
  end.

Fixpoint rstrip (s : string) : string :=
  match s with
  | EmptyString => EmptyString
  | String c s' =>
      match rstrip s' with
      | EmptyString => if is_space c then EmptyString else String c EmptyString
      | r => String c r
      end
  end.

(** [s.strip()] *)
Definition strip (s : string) : string := rstrip (lstrip s).

(** [str.lower] on one character: A-Z, and the Latin-1 capitals but the
    multiplication sign. *)
Definition lower_char (c : ascii) : ascii :=
  let n := Z.of_nat (nat_of_ascii c) in
  if ((65 <=? n) && (n <=? 90))
     || ((192 <=? n) && (n <=? 222) && negb (n =? 215))
  then ascii_of_nat (Z.to_nat (n + 32)) else c.

(** [s.lower()] *)
Fixpoint lower (s : string) : string :=
  match s with
  | EmptyString => EmptyString
  | String c s' => String (lower_char c) (lower s')
  end.

(** [s.startswith(p)] *)
Definition startswith (p s : string) : bool := String.prefix p s.

(** [s.split(' ', 1)[1]] for an [s] that contains a space: what follows the
    first space. *)
Fixpoint after_first_space (s : string) : string :=
  match s with
  | EmptyString => EmptyString
  | String c s' => if Ascii.eqb c " " then s' else after_first_space s'
  end.

(** [s.split(sep, 1)] when [sep] occurs: the parts around its first
    occurrence. *)
Fixpoint split_first (sep : ascii) (s : string) : option (string * string) :=
  match s with
  | EmptyString => None
  | String c s' =>
      if Ascii.eqb c sep then Some (EmptyString, s')
      else match split_first sep s' with
           | Some (a, b) => Some (String c a, b)
           | None => None
           end
  end.

(** [s.rsplit(sep, 1)] when [sep] occurs: the parts around its last
    occurrence. *)
Fixpoint split_last (sep : ascii) (s : string) : option (string * string) :=
  match s with
  | EmptyString => None
  | String c s' =>
      match split_last sep s' with
      | Some (a, b) => Some (String c a, b)
      | None => if Ascii.eqb c sep then Some (EmptyString, s') else None
      end
  end.

Definition digit_of_char (c : ascii) : option Z :=
  let n := Z.of_nat (nat_of_ascii c) in
  if (48 <=? n) && (n <=? 57) then Some (n - 48) else None.

(** Decimal digits with single underscores between them, as [int] reads
    them; [seen] says that the previous character was a digit. *)
Fixpoint parse_digits (acc : Z) (seen : bool) (s : string) : option Z :=
  match s with
  | EmptyString => if seen then Some acc else None
  | String c s' =>
      if Ascii.eqb c "_" then
        if seen then parse_digits acc false s' else None
      else
        match digit_of_char c with
        | Some d => parse_digits (10 * acc + d) true s'
        | None => None
        end
  end.

(** The blanks [int] skips around a number: the C whitespace, and the
    Latin-1 spaces above 127, which it first turns into a space.  The
    separators 28..31, which [str.strip] removes, are not among them. *)
Definition is_int_space (c : ascii) : bool :=
  let n := Z.of_nat (nat_of_ascii c) in
  ((9 <=? n) && (n <=? 13)) || (n =? 32) || (n =? 133) || (n =? 160).

Fixpoint lstrip_by (sp : ascii -> bool) (s : string) : string :=
  match s with
  | EmptyString => EmptyString
  | String c s' => if sp c then lstrip_by sp s' else s
  end.

Fixpoint rstrip_by (sp : ascii -> bool) (s : string) : string :=
  match s with
  | EmptyString => EmptyString
  | String c s' =>
      match rstrip_by sp s' with
      | EmptyString => if sp c then EmptyString else String c EmptyString
      | r => String c r
      end
  end.

(** [int(s)] for a string: surrounding blanks, an optional sign, then
    digits. *)
Definition int_of_string (s : string) : option Z :=
  match rstrip_by is_int_space (lstrip_by is_int_space s) with
  | EmptyString => None
  | String c r =>
      if Ascii.eqb c "+" then parse_digits 0 false r
      else if Ascii.eqb c "-" then option_map Z.opp (parse_digits 0 false r)
      else parse_digits 0 false (String c r)
  end.

(** [int(x)] *)
Definition py_int (v : json) : res Z :=
  match v with
  | JBool b => Ok (if b then 1 else 0)
  | JInt n => Ok n
  | JFloat q => Ok (Z.quot (Qnum q) (Zpos (Qden q)))
  | JStr s =>
      match int_of_string s with
      | Some n => Ok n
      | None => Raise "ValueError"
      end
  | JNonFinite NaN => Raise "ValueError"
  | JNonFinite _ => Raise "OverflowError"
  | JNull | JList _ | JObj _ => Raise "TypeError"
  end.

Definition char_of_digit (d : Z) : ascii := ascii_of_nat (Z.to_nat (48 + d)).

(** The decimal digits of a positive number, most significant first, in
    front of [acc]; [fuel] bounds the number of digits. *)
Fixpoint digits_of (fuel : nat) (n : Z) (acc : string) : string :=
  match fuel with
  | O => acc
  | S fuel' =>
      let acc' := String (char_of_digit (n mod 10)) acc in
      if n / 10 =? 0 then acc' else digits_of fuel' (n / 10) acc'
  end.

(** [str(n)] for an [int]. *)
Definition str_of_int (n : Z) : string :=
  if n <? 0
  then String "-" (digits_of (S (Z.to_nat (Z.log2 (- n)))) (- n) EmptyString)
  else digits_of (S (Z.to_nat (Z.log2 n))) n EmptyString.

(** Strings of decimal digits. *)
Fixpoint all_digits (s : string) : bool :=
  match s with
  | EmptyString => true
  | String c r =>
      match digit_of_char c with Some _ => all_digits r | None => false end
  end.

(** ** The database ([db_init.py]) *)

(** A row of [users]. *)
Record user_row : Type := mk_user
  { user_id : Z;
    username : string;
    email : string;
    password_hash : string;
    points : Z;
    user_created_at : Z }.

(** A row of [completions]. *)
Record completion_row : Type := mk_completion
  { completion_id : Z;
    completion_user : Z;
    completion_course : string;
    completed_at : Z }.

(** A row of [ratings]. *)
Record rating_row : Type := mk_rating
  { rating_id : Z;
    rating_user : Z;
    rating_course : string;
    rating : Z;
    created_at : Z }.

(** The database file: the three tables, and for each the largest rowid it
    ever held (its [sqlite_sequence] entry, which AUTOINCREMENT reads). *)
Record db : Type := mk_db
  { users : list user_row;
    completions : list completion_row;
    ratings : list rating_row;
    seq_users : Z;
    seq_completions : Z;
    seq_ratings : Z }.

(** [init_db]: the three empty tables. *)
Definition init_db : db := mk_db [] [] [] 0 0 0.

(** *** Queries *)

(** [SELECT ... FROM users WHERE id = ?] *)
Definition users_by_id (uid : Z) (d : db) : list user_row :=
  filter (fun u => user_id u =? uid) (users d).

(** [SELECT id FROM users WHERE email = ? OR username = ?] *)
Definition users_by_email_or_username (e n : string) (d : db) : list user_row :=
  filter (fun u => String.eqb (email u) e || String.eqb (username u) n) (users d).

(** [SELECT ... FROM users WHERE email = ?] *)
Definition users_by_email (e : string) (d : db) : list user_row :=
  filter (fun u => String.eqb (email u) e) (users d).

(** The order of an index on a text column: SQLite compares text byte by
    byte, and entries of equal key stay in rowid order. *)
Fixpoint index_insert {A} (key : A -> string) (x : A) (l : list A) : list A :=
  match l with
  | [] => [x]
  | y :: l' => if String.leb (key y) (key x) then y :: index_insert key x l' else x :: l
  end.

Definition index_order {A} (key : A -> string) (l : list A) : list A :=
  fold_left (fun acc x => index_insert key x acc) l [].

(** What the rows read through such an index are: in the order of the
    key. *)
Inductive key_ordered {A} (key : A -> string) : list A -> Prop :=
| ordered_nil : key_ordered key []
| ordered_cons (x : A) (l : list A) :
    Forall (fun y => String.leb (key x) (key y) = true) l ->
    key_ordered key l -> key_ordered key (x :: l).

(** [SELECT ... FROM completions WHERE user_id = ?]: the only index that
    serves the test is the one of [UNIQUE(user_id, course_id)], so the rows
    of a user come in the order of their course ids. *)
Definition completions_of_user (uid : Z) (d : db) : list completion_row :=
  index_order completion_course (filter (fun c => completion_user c =? uid) (completions d)).

(** [SELECT id FROM completions WHERE user_id = ? AND course_id = ?] *)
Definition completions_of (uid : Z) (cid : string) (d : db) : list completion_row :=
  filter (fun c => (completion_user c =? uid) && String.eqb (completion_course c) cid)
         (completions d).

(** [SELECT ... FROM ratings WHERE user_id = ?], from the index of
    [UNIQUE(user_id, course_id)] as well. *)
Definition ratings_of_user (uid : Z) (d : db) : list rating_row :=
  index_order rating_course (filter (fun r => rating_user r =? uid) (ratings d)).

(** [SELECT id FROM ratings WHERE user_id = ? AND course_id = ?] *)
Definition ratings_of (uid : Z) (cid : string) (d : db) : list rating_row :=
  filter (fun r => (rating_user r =? uid) && String.eqb (rating_course r) cid)
         (ratings d).

(** The rows of [... FROM ratings WHERE course_id = ?]. *)
Definition ratings_of_course (cid : string) (d : db) : list rating_row :=
  filter (fun r => String.eqb (rating_course r) cid) (ratings d).

Definition sum_ratings (l : list rating_row) : Z :=
  fold_right (fun r acc => rating r + acc) 0 l.

(** [SELECT AVG(rating) as avg_rating, COUNT( * ) as count FROM ratings
    WHERE course_id = ?]: always one row; the average is NULL over no row. *)
Definition rating_aggregate (cid : string) (d : db) : option Q * Z :=
  let rows := ratings_of_course cid d in
  match rows with
  | [] => (None, 0)
  | _ :: _ =>
      (Some (Qred (sum_ratings rows # Pos.of_nat (List.length rows))),
       Z.of_nat (List.length rows))
  end.

(** *** Statements.  Each gives the new database and [lastrowid], or raises
    when a constraint of the schema refuses it. *)

(** [INSERT INTO users (username, email, password_hash) VALUES (?, ?, ?)] *)
Definition insert_user (n e h : string) (now : Z) (d : db) : res (db * Z) :=
  if existsb (fun u => String.eqb (username u) n || String.eqb (email u) e) (users d)
  then Raise "IntegrityError"
  else
    let i := seq_users d + 1 in
    Ok (mk_db (users d ++ [mk_user i n e h 0 now]) (completions d) (ratings d)
              i (seq_completions d) (seq_ratings d), i).

(** [INSERT INTO completions (user_id, course_id) VALUES (?, ?)] *)
Definition insert_completion (uid : Z) (cid : string) (now : Z) (d : db) : res (db * Z) :=
  if existsb (fun c => (completion_user c =? uid) && String.eqb (completion_course c) cid)
             (completions d)
  then Raise "IntegrityError"
  else
    let i := seq_completions d + 1 in
    Ok (mk_db (users d) (completions d ++ [mk_completion i uid cid now]) (ratings d)
              (seq_users d) i (seq_ratings d), i).

(** [UPDATE users SET points = points + ? WHERE id = ?] *)
Definition add_points (amount uid : Z) (d : db) : res (db * Z) :=
  Ok (mk_db (map (fun u =>
                    if user_id u =? uid
                    then mk_user (user_id u) (username u) (email u) (password_hash u)
                                 (points u + amount) (user_created_at u)
                    else u) (users d))
            (completions d) (ratings d)
            (seq_users d) (seq_completions d) (seq_ratings d), 0).

(** [CHECK(rating >= 1 AND rating <= 5)] *)
Definition rating_check (v : Z) : bool := (1 <=? v) && (v <=? 5).

(** [INSERT INTO ratings (user_id, course_id, rating) VALUES (?, ?, ?)] *)
Definition insert_rating (uid : Z) (cid : string) (v now : Z) (d : db) : res (db * Z) :=
  if negb (rating_check v) then Raise "IntegrityError"
  else if existsb (fun r => (rating_user r =? uid) && String.eqb (rating_course r) cid)
                  (ratings d)
  then Raise "IntegrityError"
  else
    let i := seq_ratings d + 1 in
    Ok (mk_db (users d) (completions d) (ratings d ++ [mk_rating i uid cid v now])
              (seq_users d) (seq_completions d) i, i).

(** [UPDATE ratings SET rating = ?, created_at = CURRENT_TIMESTAMP WHERE id = ?] *)
Definition update_rating (v rid now : Z) (d : db) : res (db * Z) :=
  if existsb (fun r => rating_id r =? rid) (ratings d) && negb (rating_check v)
  then Raise "IntegrityError"
  else
    Ok (mk_db (users d) (completions d)
              (map (fun r =>
                      if rating_id r =? rid
                      then mk_rating (rating_id r) (rating_user r) (rating_course r) v now
                      else r) (ratings d))
              (seq_users d) (seq_completions d) (seq_ratings d), 0).

(** ** Requests, responses and the handler monad *)

(** What a view function sends: [jsonify(body), status], or the 500 page
    Flask sends when an exception leaves the view function. *)
Inductive response : Type :=
| Json (status : Z) (body : json)
| ServerError (exn : string).

(** The outcome of running handler code on a database: its value or the
    exception it raised, the database it leaves, and the snapshots it
    committed, oldest first. *)
Record outcome (A : Type) : Type := mk_outcome
  { value : res A;
    final : db;
    commits : list db }.
Arguments mk_outcome {A} value final commits.
Arguments value {A} o.
Arguments final {A} o.
Arguments commits {A} o.

Definition M (A : Type) : Type := db -> outcome A.

Definition ret {A} (a : A) : M A := fun d => mk_outcome (Ok a) d [].

Definition bind {A B} (m : M A) (f : A -> M B) : M B :=
  fun d =>
    let o := m d in
    match value o with
    | Raise e => mk_outcome (Raise e) (final o) (commits o)
    | Ok a =>
        let o' := f a (final o) in
        mk_outcome (value o') (final o') (commits o ++ commits o')%list
    end.

(** [raise] *)
Definition throw {A} (e : string) : M A := fun d => mk_outcome (Raise e) d [].

(** A computation that may raise and touches no table. *)
Definition lift {A} (r : res A) : M A := fun d => mk_outcome r d [].

Declare Scope handler_scope.
Delimit Scope handler_scope with handler.
Notation "x <- m ;; k" := (bind m (fun x => k))
  (at level 61, m at next level, right associativity) : handler_scope.
Notation "m ;; k" := (bind m (fun _ => k))
  (at level 61, right associativity) : handler_scope.
#[local] Open Scope handler_scope.

(** [query_db(query, args)]: all the rows. *)
Definition query_db {A} (q : db -> list A) : M (list A) :=
  fun d => mk_outcome (Ok (q d)) d [].

(** [query_db(query, args, one=True)]: the first row or [None]. *)
Definition query_db_one {A} (q : db -> list A) : M (option A) :=
  fun d => mk_outcome (Ok (hd_error (q d))) d [].

(** Whether sqlite3 can bind a Python [int] as a parameter: a signed 64-bit
    integer. *)
Definition bindable (n : Z) : bool := (- 2 ^ 63 <=? n) && (n <? 2 ^ 63).

(** [query_db(query, (n,))] for an integer [n] that does not come from the
    database (the subject of a token).  sqlite3 raises [OverflowError] when
    it binds an integer outside 64 bits.  The columns hold 64-bit integers,
    so a parameter that selects a row was bound. *)
Definition query_db_bound {A} (q : Z -> db -> list A) (n : Z) : M (list A) :=
  fun d =>
    match q n d with
    | [] => mk_outcome (if bindable n then Ok [] else Raise "OverflowError") d []
    | rows => mk_outcome (Ok rows) d []
    end.

(** The same with [one=True]. *)
Definition query_db_one_bound {A} (q : Z -> db -> list A) (n : Z) : M (option A) :=
  fun d =>
    match q n d with
    | [] => mk_outcome (if bindable n then Ok None else Raise "OverflowError") d []
    | row :: _ => mk_outcome (Ok (Some row)) d []
    end.

(** [execute_db(query, args)]: run the statement, commit, give [lastrowid].
    A statement that raises changes and commits nothing. *)
Definition execute_db (stmt : db -> res (db * Z)) : M Z :=
  fun d =>
    match stmt d with
    | Ok (d', rowid) => mk_outcome (Ok rowid) d' [d']
    | Raise e => mk_outcome (Raise e) d []
    end.

(** Flask around a view function: its response, or 500 for an exception. *)
Definition serve (h : M response) (d : db) : response * db :=
  let o := h d in
  (match value o with Ok r => r | Raise e => ServerError e end, final o).

(** [jsonify({'error': msg}), status] *)
Definition error_response (status : Z) (msg : string) : response :=
  Json status (JObj [("error", JStr msg)]).

(** [dict(user)] for a row of [SELECT id, username, email, points FROM users]. *)
Definition user_dict (u : user_row) : json :=
  JObj [("id", JInt (user_id u)); ("username", JStr (username u));
        ("email", JStr (email u)); ("points", JInt (points u))].

(** [data.get(k) or ''] for a field that holds a string when present. *)
Definition field (v : option string) : string :=
  match v with Some s => s | None => "" end.

(** ** The libraries the program imports *)

(** What [app.py] takes from its environment and from PyJWT, the standard
    library and Werkzeug.  None of it is code of this repository, so the
    primitives are abstract: the signing secret, HMAC-SHA256 (key, then
    message), the base64url and JSON codecs PyJWT serialises with ([None]
    when decoding raises), whether this PyJWT release rejects a [sub] or
    [jti] claim that is not a string (2.10 and later) and whether it rejects
    an [iat] in the future, and Werkzeug's password hashing (salt, then
    password) and checking (stored hash, then password) of a password that
    is a string. *)
Class Library : Type :=
  { JWT_SECRET : string;
    hmac_sha256 : string -> string -> string;
    base64url_encode : string -> string;
    base64url_decode : string -> option string;
    json_dumps : json -> string;
    json_loads : string -> option json;
    validates_sub : bool;
    rejects_future_iat : bool;
    generate_password_hash : string -> string -> string;
    check_password_hash : string -> string -> bool }.

(** Request bodies, field by field.  [register_data] and [login_data] are
    the bodies whose fields are text or missing ([None] is an absent key or
    a JSON null): [register] and [login] take the body as the JSON value the
    client sent, and [register_body] and [login_body] give the JSON value
    of such fields.  [rating] is any JSON value ([JNull] when absent): the
    handler converts it itself. *)
Record register_data : Type := mk_register_data
  { data_username : option string;
    data_email : option string;
    data_password : option string }.

Record login_data : Type := mk_login_data
  { login_email : option string;
    login_password : option string }.

Record rate_data : Type := mk_rate_data
  { rate_course_id : option string;
    rate_rating : json }.

(** Modelled from the spec: the catalog file [src/data/courses.json] is not
    among the sources; the spec gives it as an ordered sequence of records
    [{id: string, ...}].  [course_fields] holds the keys other than [id]. *)
Record course : Type := mk_course
  { course_id : string;
    course_fields : dict }.

(** The record as [json.load] gives it. *)
Definition course_dict (c : course) : dict :=
  ("id", JStr (course_id c)) :: course_fields c.

(** [try: body except Exception: handler], on code that touches no table. *)
Definition try_except {A} (body handler : res A) : res A :=
  match body with
  | Ok a => Ok a
  | Raise _ => handler
  end.

Definition and_then {A B} (r : res A) (f : A -> res B) : res B :=
  match r with
  | Ok a => f a
  | Raise e => Raise e
  end.

(** [x in s] for a set [s] of strings. *)
Definition py_in (x : json) (s : list string) : res bool :=
  match x with
  | JStr v => Ok (existsb (String.eqb v) s)
  | JList _ | JObj _ => Raise "TypeError"
  | _ => Ok false
  end.

(** [for x in l: ...], collecting what each turn gives. *)
Fixpoint for_each {A B} (l : list A) (f : A -> M B) : M (list B) :=
  match l with
  | [] => ret []
  | x :: l' => (y <- f x ;; ys <- for_each l' f ;; ret (y :: ys))
  end.

Section Backend.

Context {L : Library}.

(** *** PyJWT, HS256 only *)

(** The JOSE header PyJWT writes. *)
Definition jwt_header : json := JObj [("alg", JStr "HS256"); ("typ", JStr "JWT")].

(** [jwt.encode(payload, key, algorithm='HS256')], for a payload whose [exp]
    is already a timestamp. *)
Definition jwt_encode (payload : dict) (key : string) : string :=
  let signing_input :=
    (base64url_encode (json_dumps jwt_header) ++ "."
       ++ base64url_encode (json_dumps (JObj payload)))%string in
  (signing_input ++ "." ++ base64url_encode (hmac_sha256 key signing_input))%string.

(** [int(payload[k])] of a registered claim, where PyJWT turns a
    [ValueError] into an error of its own and lets any other pass. *)
Definition claim_int (v : json) (on_value_error : string) : res Z :=
  match py_int v with
  | Ok n => Ok n
  | Raise e => Raise (if String.eqb e "ValueError" then on_value_error else e)
  end.

(** [iat]: an integer, and in the releases that test it, not in the
    future. *)
Definition check_iat (payload : dict) (now : Z) : res unit :=
  match dict_get "iat" payload with
  | None => Ok tt
  | Some v =>
      and_then (claim_int v "InvalidIssuedAtError") (fun iat =>
      if rejects_future_iat && (now <? iat) then Raise "ImmatureSignatureError"
      else Ok tt)
  end.

(** [nbf]: an integer that is not in the future. *)
Definition check_nbf (payload : dict) (now : Z) : res unit :=
  match dict_get "nbf" payload with
  | None => Ok tt
  | Some v =>
      and_then (claim_int v "DecodeError") (fun nbf =>
      if now <? nbf then Raise "ImmatureSignatureError" else Ok tt)
  end.

(** [exp]: an integer that is still in the future. *)
Definition check_exp (payload : dict) (now : Z) : res unit :=
  match dict_get "exp" payload with
  | None => Ok tt
  | Some v =>
      and_then (claim_int v "DecodeError") (fun e =>
      if e <=? now then Raise "ExpiredSignatureError" else Ok tt)
  end.

(** [aud]: [verify_token] names no audience, so a token that names one is
    refused. *)
Definition check_aud (payload : dict) : res unit :=
  match dict_get "aud" payload with
  | None => Ok tt
  | Some v => if truthy v then Raise "InvalidAudienceError" else Ok tt
  end.

(** A claim that must be a string when present, in the releases that test
    it. *)
Definition check_string_claim (k : string) (payload : dict) (exn : string) : res unit :=
  match dict_get k payload with
  | Some (JStr _) | None => Ok tt
  | Some _ => if validates_sub then Raise exn else Ok tt
  end.

(** The claims PyJWT validates by default, in its order: [iat], [nbf],
    [exp], [aud], and in the releases that do so [sub] and [jti]. *)
Definition validate_claims (payload : dict) (now : Z) : res dict :=
  and_then (check_iat payload now) (fun _ =>
  and_then (check_nbf payload now) (fun _ =>
  and_then (check_exp payload now) (fun _ =>
  and_then (check_aud payload) (fun _ =>
  and_then (check_string_claim "sub" payload "InvalidSubjectError") (fun _ =>
  and_then (check_string_claim "jti" payload "InvalidJTIError") (fun _ =>
  Ok payload)))))).

(** [jwt.decode(token, key, algorithms=['HS256'])] at time [now]: split the
    three segments, decode them, check the algorithm and the signature, then
    the claims. *)
Definition jwt_decode (token key : string) (now : Z) : res dict :=
  match split_last "." token with
  | None => Raise "DecodeError"
  | Some (signing_input, crypto_segment) =>
  match split_first "." signing_input with
  | None => Raise "DecodeError"
  | Some (header_segment, payload_segment) =>
  match base64url_decode header_segment with
  | None => Raise "DecodeError"
  | Some header_data =>
  match json_loads header_data with
  | Some (JObj header) =>
  match base64url_decode payload_segment with
  | None => Raise "DecodeError"
  | Some payload_data =>
  match base64url_decode crypto_segment with
  | None => Raise "DecodeError"
  | Some signature =>
  match dict_get "alg" header with
  | Some (JStr alg) =>
      if negb (String.eqb alg "HS256") then Raise "InvalidAlgorithmError"
      else if negb (String.eqb signature (hmac_sha256 key signing_input))
      then Raise "InvalidSignatureError"
      else
        match json_loads payload_data with
        | Some (JObj payload) => validate_claims payload now
        | _ => Raise "DecodeError"
        end
  | _ => Raise "InvalidAlgorithmError"
  end end end
  | _ => Raise "DecodeError"
  end end end end.

(** *** Tokens *)

(** [make_token(user_id, expires_minutes)] at time [now] (seconds). *)
Definition make_token (now user_id expires_minutes : Z) : string :=
  let exp := now + 60 * expires_minutes in
  let payload := [("sub", JStr (str_of_int user_id)); ("exp", JInt exp)] in
  jwt_encode payload JWT_SECRET.

(** The default of [expires_minutes]: seven days. *)
Definition default_expires_minutes : Z := 60 * 24 * 7.

(** [verify_token(token)] at time [now]. *)
Definition verify_token (now : Z) (token : string) : res (option Z) :=
  try_except
    (and_then (jwt_decode token JWT_SECRET now) (fun payload =>
     let sub := match dict_get "sub" payload with Some v => v | None => JNull end in
     try_except
       (and_then (py_int sub) (fun n => Ok (Some n)))
       (Ok None)))
    (Ok None).

(** [if user_id:] for what [verify_token] returned. *)
Definition truthy_id (uid : option Z) : bool :=
  match uid with
  | Some n => negb (n =? 0)
  | None => false
  end.

(** [auth_required(fn)]: the request's [Authorization] header, the time,
    then [fn] with [g.current_user]. *)
Definition auth_required (fn : user_row -> M response)
    (authorization : option string) (now : Z) : M response :=
  let auth := field authorization in
  if startswith "Bearer " auth then
    let token := after_first_space auth in
    user_id <- lift (verify_token now token) ;;
    match user_id with
    | Some uid =>
        if negb (uid =? 0) then
          user <- query_db_one_bound users_by_id uid ;;
          match user with
          | Some u => fn u
          | None => ret (error_response 401 "Unauthorized")
          end
        else ret (error_response 401 "Unauthorized")
    | None => ret (error_response 401 "Unauthorized")
    end
  else ret (error_response 401 "Unauthorized").

(** *** The view functions *)

(** [request.json or {}], then used with [data.get]: a method of [dict]
    only, so a body that is true and no object raises. *)
Definition body_dict (body : json) : res dict :=
  match py_or body (JObj []) with
  | JObj o => Ok o
  | _ => Raise "AttributeError"
  end.

(** [data.get(k) or default] *)
Definition get_or (k : string) (data : dict) (default : json) : json :=
  py_or (match dict_get k data with Some v => v | None => JNull end) default.

(** [v.strip()], a method of [str] only. *)
Definition py_strip (v : json) : res string :=
  match v with
  | JStr s => Ok (strip s)
  | _ => Raise "AttributeError"
  end.

(** [len(v)]: of text, lists and objects (an object has each key once). *)
Definition py_len (v : json) : res Z :=
  match v with
  | JStr s => Ok (Z.of_nat (String.length s))
  | JList l => Ok (Z.of_nat (List.length l))
  | JObj o => Ok (Z.of_nat (List.length (nodup string_dec (map fst o))))
  | _ => Raise "TypeError"
  end.

(** [generate_password_hash(password)]: Werkzeug encodes the password, a
    method of [str] only. *)
Definition hash_password {L : Library} (salt : string) (password : json) : res string :=
  match password with
  | JStr p => Ok (generate_password_hash salt p)
  | _ => Raise "AttributeError"
  end.

Fixpoint count_char (c : ascii) (s : string) : nat :=
  match s with
  | EmptyString => O
  | String a r => if Ascii.eqb a c then S (count_char c r) else count_char c r
  end.

(** [check_password_hash(pwhash, password)]: Werkzeug splits the stored hash
    at its first two [$] and answers [False] when it cannot; otherwise it
    encodes the password, a method of [str] only, and compares. *)
Definition check_password {L : Library} (pwhash : string) (password : json) : res bool :=
  match password with
  | JStr p => Ok (check_password_hash pwhash p)
  | _ => if (2 <=? count_char "$" pwhash)%nat then Raise "AttributeError" else Ok false
  end.

(** [register] at time [now], with [salt] the randomness the password hash
    draws, on the JSON value of the request body. *)
Definition register (now : Z) (salt : string) (body : json) : M response :=
  data <- lift (body_dict body) ;;
  username <- lift (py_strip (get_or "username" data (JStr ""))) ;;
  stripped <- lift (py_strip (get_or "email" data (JStr ""))) ;;
  let email := lower stripped in
  let password := get_or "password" data (JStr "") in
  invalid <- lift (if String.eqb username "" || String.eqb email ""
                      || negb (truthy password)
                   then Ok true
                   else and_then (py_len password) (fun n => Ok (n <? 6))) ;;
  if (invalid : bool)
  then ret (error_response 400
              "Invalid input, provide username, email and password (min 6 chars)")
  else
    existing <- query_db_one (users_by_email_or_username email username) ;;
    match existing with
    | Some _ =>
        ret (error_response 400 "User with that email or username already exists")
    | None =>
        password_hash <- lift (hash_password salt password) ;;
        user_id <- execute_db (insert_user username email password_hash now) ;;
        let token := make_token now user_id default_expires_minutes in
        user <- query_db_one (users_by_id user_id) ;;
        match user with
        | Some u => ret (Json 200 (JObj [("token", JStr token); ("user", user_dict u)]))
        | None => throw "TypeError"
        end
    end.

(** [login] at time [now], on the JSON value of the request body. *)
Definition login (now : Z) (body : json) : M response :=
  data <- lift (body_dict body) ;;
  stripped <- lift (py_strip (get_or "email" data (JStr ""))) ;;
  let email := lower stripped in
  let password := get_or "password" data (JStr "") in
  if String.eqb email "" || negb (truthy password)
  then ret (error_response 400 "Missing email/password")
  else
    user <- query_db_one (users_by_email email) ;;
    match user with
    | None => ret (error_response 401 "Invalid credentials")
    | Some u =>
        checked <- lift (check_password (password_hash u) password) ;;
        if negb checked
        then ret (error_response 401 "Invalid credentials")
        else
          let token := make_token now (user_id u) default_expires_minutes in
          ret (Json 200 (JObj [("token", JStr token); ("user", user_dict u)]))
    end.

(** The body of given text fields. *)
Definition text_field (k : string) (v : option string) : dict :=
  match v with
  | Some s => [(k, JStr s)]
  | None => []
  end.

(** The usual bodies: each field a text. *)
Definition register_json (username email password : string) : json :=
  JObj [("username", JStr username); ("email", JStr email); ("password", JStr password)].

Definition login_json (email password : string) : json :=
  JObj [("email", JStr email); ("password", JStr password)].

Definition register_body (data : register_data) : json :=
  JObj (text_field "username" (data_username data)
        ++ text_field "email" (data_email data)
        ++ text_field "password" (data_password data)).

Definition login_body (data : login_data) : json :=
  JObj (text_field "email" (login_email data)
        ++ text_field "password" (login_password data)).

(** What [register] comes to on a body of text fields, where [strip],
    [len] and the password hash apply to text ([register_on_text] proves
    it). *)
Definition register_text (now : Z) (salt : string) (data : register_data) : M response :=
  let username := strip (field (data_username data)) in
  let email := lower (strip (field (data_email data))) in
  let password := field (data_password data) in
  if String.eqb username "" || String.eqb email "" || String.eqb password ""
     || (Z.of_nat (String.length password) <? 6)
  then ret (error_response 400
              "Invalid input, provide username, email and password (min 6 chars)")
  else
    existing <- query_db_one (users_by_email_or_username email username) ;;
    match existing with
    | Some _ =>
        ret (error_response 400 "User with that email or username already exists")
    | None =>
        let password_hash := generate_password_hash salt password in
        user_id <- execute_db (insert_user username email password_hash now) ;;
        let token := make_token now user_id default_expires_minutes in
        user <- query_db_one (users_by_id user_id) ;;
        match user with
        | Some u => ret (Json 200 (JObj [("token", JStr token); ("user", user_dict u)]))
        | None => throw "TypeError"
        end
    end.

(** What [login] comes to on a body of text fields ([login_on_text] proves
    it). *)
Definition login_text (now : Z) (data : login_data) : M response :=
  let email := lower (strip (field (login_email data))) in
  let password := field (login_password data) in
  if String.eqb email "" || String.eqb password ""
  then ret (error_response 400 "Missing email/password")
  else
    user <- query_db_one (users_by_email email) ;;
    match user with
    | None => ret (error_response 401 "Invalid credentials")
    | Some u =>
        if negb (check_password_hash (password_hash u) password)
        then ret (error_response 401 "Invalid credentials")
        else
          let token := make_token now (user_id u) default_expires_minutes in
          ret (Json 200 (JObj [("token", JStr token); ("user", user_dict u)]))
    end.

(** The year, month and day of a day counted from 1970-01-01, in the
    proleptic Gregorian calendar. *)
Definition civil_from_days (days : Z) : Z * Z * Z :=
  let z := days + 719468 in
  let era := z / 146097 in
  let doe := z - era * 146097 in
  let yoe := (doe - doe / 1460 + doe / 36524 - doe / 146096) / 365 in
  let doy := doe - (365 * yoe + yoe / 4 - yoe / 100) in
  let mp := (5 * doy + 2) / 153 in
  let day := doy - (153 * mp + 2) / 5 + 1 in
  let month := if mp <? 10 then mp + 3 else mp - 9 in
  let year := yoe + era * 400 + (if month <=? 2 then 1 else 0) in
  (year, month, day).

Definition two_digits (n : Z) : string :=
  if n <? 10 then "0" ++ str_of_int n else str_of_int n.

Definition four_digits (n : Z) : string :=
  if n <? 10 then "000" ++ str_of_int n
  else if n <? 100 then "00" ++ str_of_int n
  else if n <? 1000 then "0" ++ str_of_int n
  else str_of_int n.

(** The text SQLite stores for [CURRENT_TIMESTAMP] at [t] seconds after the
    epoch, [YYYY-MM-DD HH:MM:SS] in UTC (for the years 0000 to 9999 of its
    calendar). *)
Definition sqlite_datetime (t : Z) : string :=
  let '(year, month, day) := civil_from_days (t / 86400) in
  let s := t mod 86400 in
  four_digits year ++ "-" ++ two_digits month ++ "-" ++ two_digits day ++ " "
  ++ two_digits (s / 3600) ++ ":" ++ two_digits (s mod 3600 / 60) ++ ":"
  ++ two_digits (s mod 60).

(** One row of [SELECT course_id, completed_at FROM completions], as
    [dict(r)]: the column [completed_at] is [TEXT]. *)
Definition completion_dict (c : completion_row) : json :=
  JObj [("course_id", JStr (completion_course c));
        ("completed_at", JStr (sqlite_datetime (completed_at c)))].

(** [me], under [auth_required]. *)
Definition me (user : user_row) : M response :=
  completions <- query_db (completions_of_user (user_id user)) ;;
  ratings <- query_db (ratings_of_user (user_id user)) ;;
  ret (Json 200 (JObj
    [("user", user_dict user);
     ("completions", JList (map completion_dict completions));
     ("ratings",
      JList (map (fun r => JObj [("course_id", JStr (rating_course r));
                                 ("rating", JInt (rating r))]) ratings))])).

(** [complete_course], under [auth_required], at time [now]; the body is its
    [course_id]. *)
Definition complete_course (now : Z) (data : option string) (user : user_row) : M response :=
  let course_id := field data in
  if String.eqb course_id "" then ret (error_response 400 "Missing course_id")
  else
    existing <- query_db_one (completions_of (user_id user) course_id) ;;
    match existing with
    | Some _ =>
        ret (Json 200 (JObj [("message", JStr "Already completed");
                            ("user", user_dict user)]))
    | None =>
        execute_db (insert_completion (user_id user) course_id now) ;;
        let points_awarded := 100 in
        execute_db (add_points points_awarded (user_id user)) ;;
        updated <- query_db_one (users_by_id (user_id user)) ;;
        match updated with
        | Some u =>
            ret (Json 200 (JObj [("message", JStr "Course completed");
                                ("points_awarded", JInt points_awarded);
                                ("user", user_dict u)]))
        | None => throw "TypeError"
        end
    end.

(** [AVG(rating)] as JSON: a float, or null. *)
Definition json_of_average (a : option Q) : json :=
  match a with
  | Some q => JFloat q
  | None => JNull
  end.

(** [rate_course], under [auth_required], at time [now]. *)
Definition rate_course (now : Z) (data : rate_data) (user : user_row) : M response :=
  let course_id := field (rate_course_id data) in
  rating <- lift (py_int (py_or (rate_rating data) (JInt 0))) ;;
  if String.eqb course_id "" || (rating <? 1) || (rating >? 5)
  then ret (error_response 400 "Invalid course_id or rating (1-5 required)")
  else
    existing <- query_db_one (ratings_of (user_id user) course_id) ;;
    match existing with
    | Some e => execute_db (update_rating rating (rating_id e) now)
    | None => execute_db (insert_rating (user_id user) course_id rating now)
    end ;;
    avg <- query_db_one (fun d => [rating_aggregate course_id d]) ;;
    match avg with
    | Some (average, count) =>
        ret (Json 200 (JObj [("message", JStr "Rating saved");
                            ("average", json_of_average average);
                            ("count", JInt count)]))
    | None => throw "TypeError"
    end.

(** One turn of the first loop of [courses]: the record with its aggregate. *)
Definition with_aggregate (c : course) : M dict :=
  r <- query_db_one (fun d => [rating_aggregate (course_id c) d]) ;;
  let c_copy := course_dict c in
  let c_copy :=
    dict_set "avg_rating"
      (match r with Some (Some q, _) => JFloat q | _ => JNull end) c_copy in
  let c_copy :=
    dict_set "rating_count"
      (match r with Some (_, n) => JInt n | None => JInt 0 end) c_copy in
  ret c_copy.

(** One turn of the second loop: [c['completed'] = c['id'] in completed_set]. *)
Definition with_completed (completed_set : list string) (c : dict) : M dict :=
  match dict_get "id" c with
  | None => throw "KeyError"
  | Some i =>
      b <- lift (py_in i completed_set) ;;
      ret (dict_set "completed" (JBool b) c)
  end.

(** [courses] at time [now], for a catalog as read from the file (empty when
    the file cannot be read). *)
Definition courses (now : Z) (authorization : option string) (catalog : list course)
  : M response :=
  out <- for_each catalog with_aggregate ;;
  let auth := field authorization in
  out <-
    (if startswith "Bearer " auth then
       let token := after_first_space auth in
       uid <- lift (verify_token now token) ;;
       match uid with
       | Some u =>
           if negb (u =? 0) then
             user_comps <- query_db_bound completions_of_user u ;;
             let completed_set := map completion_course user_comps in
             for_each out (with_completed completed_set)
           else ret out
       | None => ret out
       end
     else ret out) ;;
  ret (Json 200 (JList (map JObj out))).

(** *** The application: one request at a time *)

Inductive request : Type :=
| Register (now : Z) (salt : string) (body : json)
| Login (now : Z) (body : json)
| Me (now : Z) (authorization : option string)
| CompleteCourse (now : Z) (authorization : option string) (data : option string)
| RateCourse (now : Z) (authorization : option string) (data : rate_data)
| Courses (now : Z) (authorization : option string) (catalog : list course).

(** The view function Flask routes the request to. *)
Definition view (r : request) : M response :=
  match r with
  | Register now salt body => register now salt body
  | Login now body => login now body
  | Me now authorization => auth_required me authorization now
  | CompleteCourse now authorization data =>
      auth_required (complete_course now data) authorization now
  | RateCourse now authorization data =>
      auth_required (rate_course now data) authorization now
  | Courses now authorization catalog => courses now authorization catalog
  end.

(** The database after serving the requests in turn. *)
Fixpoint serve_all (rs : list request) (d : db) : db :=
  match rs with
  | [] => d
  | r :: rs' => serve_all rs' (snd (serve (view r) d))
  end.

End Backend.

(** The list a loop collects when its turns only compute: the results in
    order, or the first exception. *)
Fixpoint map_res {A B} (g : A -> res B) (l : list A) : res (list B) :=
  match l with
  | [] => Ok []
  | x :: l' =>
      and_then (g x) (fun y => and_then (map_res g l') (fun ys => Ok (y :: ys)))
  end.

(** ** Readings of a response *)

(** The spec's [awarded]: the completion response that reports a reward. *)
Definition awarded (r : response) : bool :=
  match r with
  | Json _ (JObj o) =>
      match dict_get "message" o with
      | Some (JStr m) => String.eqb m "Course completed"
      | _ => false
      end
  | _ => false
  end.

(** The spec's [points_awarded]: the reward the response reports, 0 when it
    reports none. *)
Definition points_awarded_of (r : response) : Z :=
  match r with
  | Json _ (JObj o) =>
      match dict_get "points_awarded" o with
      | Some (JInt n) => n
      | _ => 0
      end
  | _ => 0
  end.

(** The records of a course listing. *)
Definition listed (r : response) : list dict :=
  match r with
  | Json _ (JList l) =>
      flat_map (fun j => match j with JObj o => [o] | _ => [] end) l
  | _ => []
  end.

(** ** Invariants *)

(** Completion credit agrees with the ledger: each user's points are 100
    times the number of that user's completion rows. *)
Definition points_consistent (d : db) : bool :=
  forallb (fun u =>
             points u =? 100 * Z.of_nat (List.length (completions_of_user (user_id u) d)))
          (users d).

(** Rowids stay below the AUTOINCREMENT counter, and a completion belongs to
    a user id that was handed out. *)
Definition ids_issued (d : db) : Prop :=
  (forall u, In u (users d) -> 1 <= user_id u <= seq_users d) /\
  (forall c, In c (completions d) -> 1 <= completion_user c <= seq_users d) /\
  0 <= seq_users d.

(** What every request keeps of the completion ledger. *)
Definition ledger_ok (d : db) : Prop :=
  points_consistent d = true /\ ids_issued d.

(** At most one rating row for a user and a course, the [UNIQUE(user_id,
    course_id)] of the [ratings] table. *)
Definition rated_at_most_once (uid : Z) (cid : string) (d : db) : Prop :=
  (List.length (ratings_of uid cid d) <= 1)%nat.

(** The ratings table after the write of [rate_course]: the user's row for
    the course updated in place, or a new row. *)
Definition upserted (uid : Z) (cid : string) (v now : Z) (d : db) : db :=
  match hd_error (ratings_of uid cid d) with
  | Some e =>
      mk_db (users d) (completions d)
            (map (fun r =>
                    if rating_id r =? rating_id e
                    then mk_rating (rating_id r) (rating_user r) (rating_course r) v now
                    else r) (ratings d))
            (seq_users d) (seq_completions d) (seq_ratings d)
  | None =>
      mk_db (users d) (completions d)
            (ratings d ++ [mk_rating (seq_ratings d + 1) uid cid v now])
            (seq_users d) (seq_completions d) (seq_ratings d + 1)
  end.

(** Calls [rate(u, c, r_i)] in turn, each given as its time and rating. *)
Fixpoint rate_in_turn (user : user_row) (cid : string) (calls : list (Z * Z)) (d : db) : db :=
  match calls with
  | [] => d
  | (now, v) :: calls' =>
      rate_in_turn user cid calls'
        (final (rate_course now (mk_rate_data (Some cid) (JInt v)) user d))
  end.

(** The user has a completion row for the course. *)
Definition completed_by (uid : Z) (cid : string) (d : db) : bool :=
  existsb (fun c => (completion_user c =? uid) && String.eqb (completion_course c) cid)
          (completions d).

(** A bearer header the program accepts at time [now] as user [uid]. *)
Definition valid_bearer {L : Library} (now : Z) (authorization : option string) (uid : Z)
  : Prop :=
  exists token,
    authorization = Some ("Bearer " ++ token)%string /\
    verify_token now token = Ok (Some uid) /\ uid <> 0.

(** ** A concrete instance, to run the model on *)

(** Binary digits of a positive number, least significant first, ended by
    [1]. *)
Fixpoint demo_pos (p : positive) (rest : string) : string :=
  match p with
  | xH => String "1" rest
  | xO p' => String "o" (demo_pos p' rest)
  | xI p' => String "i" (demo_pos p' rest)
  end.

Fixpoint demo_unpos (s : string) : option (positive * string) :=
  match s with
  | String c r =>
      if Ascii.eqb c "1" then Some (xH, r)
      else if Ascii.eqb c "o" then
        match demo_unpos r with Some (p, t) => Some (xO p, t) | None => None end
      else if Ascii.eqb c "i" then
        match demo_unpos r with Some (p, t) => Some (xI p, t) | None => None end
      else None
  | EmptyString => None
  end.

Definition demo_int (n : Z) (rest : string) : string :=
  match n with
  | Z0 => String "z" rest
  | Zpos p => String "p" (demo_pos p rest)
  | Zneg p => String "n" (demo_pos p rest)
  end.

Definition demo_unint (s : string) : option (Z * string) :=
  match s with
  | String c r =>
      if Ascii.eqb c "z" then Some (0, r)
      else if Ascii.eqb c "p" then
        match demo_unpos r with Some (p, t) => Some (Zpos p, t) | None => None end
      else if Ascii.eqb c "n" then
        match demo_unpos r with Some (p, t) => Some (Zneg p, t) | None => None end
      else None
  | EmptyString => None
  end.

(** A stand-in for [json.dumps] on the two objects a token holds. *)
Definition demo_dumps (j : json) : string :=
  match j with
  | JObj [(k1, JStr a); (k2, JStr t)] =>
      if String.eqb k1 "alg" && String.eqb k2 "typ" && String.eqb a "HS256"
         && String.eqb t "JWT"
      then "H" else "?"
  | JObj [(k1, JStr s); (k2, JInt e)] =>
      if String.eqb k1 "sub" && String.eqb k2 "exp"
      then String "P" (demo_int e s) else "?"
  | _ => "?"
  end.

Definition demo_loads (s : string) : option json :=
  match s with
  | String c r =>
      if Ascii.eqb c "H" then
        match r with
        | EmptyString => Some (JObj [("alg", JStr "HS256"); ("typ", JStr "JWT")])
        | _ => None
        end
      else if Ascii.eqb c "P" then
        match demo_unint r with
        | Some (e, sub) => Some (JObj [("sub", JStr sub); ("exp", JInt e)])
        | None => None
        end
      else None
  | EmptyString => None
  end.

(** A stand-in for base64url: a full stop becomes [-p], a hyphen [--]. *)
Fixpoint demo_b64encode (s : string) : string :=
  match s with
  | EmptyString => EmptyString
  | String c r =>
      if Ascii.eqb c "." then String "-" (String "p" (demo_b64encode r))
      else if Ascii.eqb c "-" then String "-" (String "-" (demo_b64encode r))
      else String c (demo_b64encode r)
  end.

Fixpoint demo_b64decode (s : string) : option string :=
  match s with
  | EmptyString => Some EmptyString
  | String c r =>
      if Ascii.eqb c "-" then
        match r with
        | String c' r' =>
            if Ascii.eqb c' "p" then option_map (String ".") (demo_b64decode r')
            else if Ascii.eqb c' "-" then option_map (String "-") (demo_b64decode r')
            else None
        | EmptyString => None
        end
      else if Ascii.eqb c "." then None
      else option_map (String c) (demo_b64decode r)
  end.

(** The instance: the secret is the default of [app.py]; the MAC, the
    codecs and the password hash are stand-ins that compute. *)
Definition demo_library : Library :=
  {| JWT_SECRET := "dev-secret-change-me";
     hmac_sha256 := fun key msg => (key ++ "|" ++ msg)%string;
     base64url_encode := demo_b64encode;
     base64url_decode := demo_b64decode;
     json_dumps := demo_dumps;
     json_loads := demo_loads;
     validates_sub := true;
     rejects_future_iat := true;
     generate_password_hash := fun salt password => (salt ++ "$" ++ password)%string;
     check_password_hash := fun pwhash password =>
       match split_first "$" pwhash with
       | Some (_, p) => String.eqb p password
       | None => false
       end |}.

(** A database with one user, ann. *)
Definition demo_db : db :=
  mk_db [mk_user 1 "ann" "ann@example.org" "s$secret1" 0 1000] [] [] 1 0 0.

Definition demo_ann : user_row := mk_user 1 "ann" "ann@example.org" "s$secret1" 0 1000.

(** A database whose user has a password hash in Werkzeug's format,
    [method$salt$hash]. *)
Definition demo_werkzeug_db : db :=
  mk_db [mk_user 1 "ann" "ann@example.org" "pbkdf2:sha256:600000$s$5e884898" 0 1000]
        [] [] 1 0 0.

(** A token for user 1, issued at time 1000 by the instance. *)
Definition demo_token : string :=
  Eval vm_compute in @make_token demo_library 1000 1 default_expires_minutes.

Definition demo_catalog : list course :=
  [mk_course "c1" [("title", JStr "Intro")]; mk_course "c2" [("title", JStr "More")]].

(** ** What one request does to the database *)

(** The rows of [users] after [UPDATE users SET points = points + 100 WHERE
    id = uid]. *)
Definition rewarded (uid : Z) (l : list user_row) : list user_row :=
  map (fun u =>
         if user_id u =? uid
         then mk_user (user_id u) (username u) (email u) (password_hash u)
                      (points u + 100) (user_created_at u)
         else u) l.

(** The ways a request leaves the database: as it was; with one more user,
    registered under a stripped username and a stripped, lower-cased email
    that nobody had; with one more completion of an existing user and that
    user's points raised by 100; or with the rating of an existing user for
    a course written, in 1..5. *)
Inductive effect (d : db) : db -> Prop :=
| effect_none : effect d d
| effect_registered (raw_username raw_email h : string) (now : Z) :
    strip raw_username <> "" ->
    lower (strip raw_email) <> "" ->
    users_by_email_or_username (lower (strip raw_email)) (strip raw_username) d = [] ->
    effect d (mk_db (users d ++ [mk_user (seq_users d + 1) (strip raw_username)
                                         (lower (strip raw_email)) h 0 now])
                    (completions d) (ratings d)
                    (seq_users d + 1) (seq_completions d) (seq_ratings d))
| effect_completed (user : user_row) (c : string) (now : Z) :
    In user (users d) ->
    c <> "" ->
    completions_of (user_id user) c d = [] ->
    effect d (mk_db (rewarded (user_id user) (users d))
                    (completions d
                       ++ [mk_completion (seq_completions d + 1) (user_id user) c now])
                    (ratings d)
                    (seq_users d) (seq_completions d + 1) (seq_ratings d))
| effect_rated (user : user_row) (c : string) (v now : Z) :
    In user (users d) ->
    c <> "" ->
    1 <= v <= 5 ->
    effect d (upserted (user_id user) c v now d).

(** The constraints [db_init.py] declares, with the AUTOINCREMENT counters
    above every rowid: primary keys, [UNIQUE] columns and pairs, the
    [CHECK] on ratings. *)
Record schema_ok (d : db) : Prop := mk_schema_ok
  { unique_user_ids : NoDup (map user_id (users d));
    unique_usernames : NoDup (map username (users d));
    unique_emails : NoDup (map email (users d));
    unique_completion_ids : NoDup (map completion_id (completions d));
    unique_completions :
      NoDup (map (fun c => (completion_user c, completion_course c)) (completions d));
    unique_rating_ids : NoDup (map rating_id (ratings d));
    unique_ratings :
      NoDup (map (fun r => (rating_user r, rating_course r)) (ratings d));
    ratings_in_range : Forall (fun r => 1 <= rating r <= 5) (ratings d);
    user_ids_issued : forall u, In u (users d) -> 1 <= user_id u <= seq_users d;
    completion_ids_issued :
      forall c, In c (completions d) -> 1 <= completion_id c <= seq_completions d;
    rating_ids_issued :
      forall r, In r (ratings d) -> 1 <= rating_id r <= seq_ratings d;
    counters_from_zero :
      0 <= seq_users d /\ 0 <= seq_completions d /\ 0 <= seq_ratings d }.

(** What a later database keeps of an earlier one: every user, with the same
    id, username, email and password hash and no fewer points; every
    completion row; every rating row, with the same id, user and course. *)
Definition never_lost (d d' : db) : Prop :=
  (forall u, In u (users d) ->
     exists u', In u' (users d') /\ user_id u' = user_id u /\
                username u' = username u /\ email u' = email u /\
                password_hash u' = password_hash u /\ points u <= points u') /\
  (forall c, In c (completions d) -> In c (completions d')) /\
  (forall r, In r (ratings d) ->
     exists r', In r' (ratings d') /\ rating_id r' = rating_id r /\
                rating_user r' = rating_user r /\ rating_course r' = rating_course r).

(** The instance with a password hash that ignores its salt, so that every
    password checks against its own hash. *)
Definition demo_unsalted : Library :=
  {| JWT_SECRET := "dev-secret-change-me";
     hmac_sha256 := fun key msg => (key ++ "|" ++ msg)%string;
     base64url_encode := demo_b64encode;
     base64url_decode := demo_b64decode;
     json_dumps := demo_dumps;
     json_loads := demo_loads;
     validates_sub := true;
     rejects_future_iat := true;
     generate_password_hash := fun _ password => String "$" password;
     check_password_hash := fun pwhash password =>
       match split_first "$" pwhash with
       | Some (_, p) => String.eqb p password
       | None => false
       end |}.

Definition demo_big_token : string :=
  Eval vm_compute in @make_token demo_library 1000 (2 ^ 63) default_expires_minutes.

Example int_blanks_ex :
  int_of_string (String (ascii_of_nat 28) "4") = None /\
  int_of_string (String (ascii_of_nat 31) "7") = None /\
  int_of_string (String (ascii_of_nat 11) "4 ") = Some 4 /\
  int_of_string (String (ascii_of_nat 160) "4") = Some 4 /\
  int_of_string " -1_000 " = Some (-1000) /\
  py_int (JNonFinite PosInf) = Raise "OverflowError" /\
  py_int (JNonFinite NaN) = Raise "ValueError".
Proof. repeat split; reflexivity. Qed.

Example validate_claims_ex :
  let claims := [("sub", JStr "7"); ("exp", JInt 9000)] in
  @validate_claims demo_library claims 2000 = Ok claims /\
  @validate_claims demo_library claims 9000 = Raise "ExpiredSignatureError" /\
  @validate_claims demo_library (("nbf", JInt 5000) :: claims) 2000
  = Raise "ImmatureSignatureError" /\
  @validate_claims demo_library (("nbf", JInt 1000) :: claims) 2000
  = Ok (("nbf", JInt 1000) :: claims) /\
  @validate_claims demo_library (("iat", JStr "soon") :: claims) 2000
  = Raise "InvalidIssuedAtError" /\
  @validate_claims demo_library (("aud", JStr "others") :: claims) 2000
  = Raise "InvalidAudienceError" /\
  @validate_claims demo_library (("jti", JInt 5) :: claims) 2000
  = Raise "InvalidJTIError".
Proof. repeat split; reflexivity. Qed.

Example bound_query_ex :
  bindable (2 ^ 63 - 1) = true /\ bindable (- 2 ^ 63) = true /\
  bindable (2 ^ 63) = false /\ bindable (- 2 ^ 63 - 1) = false /\
  serve (@auth_required demo_library me (Some ("Bearer " ++ demo_big_token)%string) 2000)
    demo_db
  = (ServerError "OverflowError", demo_db).
Proof. repeat split; vm_compute; reflexivity. Qed.

Example body_conversions_ex :
  body_dict JNull = Ok [] /\
  body_dict (JList []) = Ok [] /\
  body_dict (JList [JInt 1]) = Raise "AttributeError" /\
  py_strip (get_or "email" [("email", JInt 5)] (JStr "")) = Raise "AttributeError" /\
  py_strip (get_or "email" [("email", JInt 0)] (JStr "")) = Ok "" /\
  py_len (JInt 5) = Raise "TypeError" /\
  py_len (JList [JInt 1; JInt 2]) = Ok 2.
Proof. repeat split; reflexivity. Qed.

Example sqlite_datetime_ex :
  sqlite_datetime 0 = "1970-01-01 00:00:00" /\
  sqlite_datetime 1000000000 = "2001-09-09 01:46:40" /\
  sqlite_datetime 951782400 = "2000-02-29 00:00:00" /\
  sqlite_datetime (-1) = "1969-12-31 23:59:59".
Proof. repeat split; vm_compute; reflexivity. Qed.

Example index_order_ex :
  index_order (fun s => s) ["c2"; "c10"; "b"; "c10"; "C3"] = ["C3"; "b"; "c10"; "c10"; "c2"].
Proof. reflexivity. Qed.

Example strip_ex : strip "  Ann Lee 	" = "Ann Lee".
Proof. reflexivity. Qed.

Example lower_ex : lower "Ann@Example.ORG" = "ann@example.org".
Proof. reflexivity. Qed.

Example int_ex : map py_int [JStr " 42 "; JStr "-7"; JStr "1_000"; JStr "abc"; JStr "";
                             JFloat (37 # 10); JFloat (-37 # 10); JBool true; JNull]
  = [Ok 42; Ok (-7); Ok 1000; Raise "ValueError"; Raise "ValueError";
     Ok 3; Ok (-3); Ok 1; Raise "TypeError"].
Proof. reflexivity. Qed.

Example str_ex : map str_of_int [0; 7; 10; 1234567890; -45] = ["0"; "7"; "10"; "1234567890"; "-45"].
Proof. reflexivity. Qed.

Example demo_token_ex :
  demo_token = "H.Ppoooioiiooiiiiiooioo11.dev--secret--change--me|H-pPpoooioiiooiiiiiooioo11"
  /\ @verify_token demo_library 2000 demo_token = Ok (Some 1)
  /\ @verify_token demo_library (1000 + 604800) demo_token = Ok None.
Proof. vm_compute. auto. Qed.

(** ** Lists and queries *)

Lemma filter_nil_existsb {A} (f : A -> bool) (l : list A) :
  filter f l = [] -> existsb f l = false.
Proof.
  induction l as [|x l IH]; simpl; [reflexivity|].
  destruct (f x); [discriminate|]. exact IH.
Qed.

Lemma filter_none {A} (f : A -> bool) (l : list A) :
  (forall x, In x l -> f x = false) -> filter f l = [].
Proof.
  induction l as [|x l IH]; simpl; intros H; [reflexivity|].
  rewrite (H x) by now left. apply IH. intros y Hy. apply H. now right.
Qed.

Lemma existsb_same {A} (f g : A -> bool) (l : list A) :
  (forall x, f x = g x) -> existsb f l = existsb g l.
Proof.
  intros H. induction l as [|x l IH]; cbn; [reflexivity|]. now rewrite H, IH.
Qed.

Lemma hd_error_filter_some {A} (f : A -> bool) (l : list A) (x : A) :
  hd_error (filter f l) = Some x -> In x l /\ f x = true.
Proof.
  intros H. assert (In x (filter f l)) as Hin.
  { destruct (filter f l); simpl in H; [discriminate|]. injection H as ->. now left. }
  now apply filter_In in Hin.
Qed.

Lemma hd_error_app_some {A} (l l' : list A) (x : A) :
  hd_error l = Some x -> hd_error (l ++ l') = Some x.
Proof. destruct l; simpl; [discriminate|auto]. Qed.

Lemma hd_error_filter_map {A} (f : A -> bool) (g : A -> A) (l : list A) :
  (forall x, f (g x) = f x) ->
  hd_error (filter f (map g l)) = option_map g (hd_error (filter f l)).
Proof.
  intros Hfg. induction l as [|x l IH]; simpl; [reflexivity|].
  rewrite Hfg. destruct (f x); simpl; auto.
Qed.

Lemma filter_map_id {A} (f : A -> bool) (g : A -> A) (l : list A) :
  (forall x, f (g x) = f x) ->
  filter f (map g l) = map g (filter f l).
Proof.
  intros Hfg. induction l as [|x l IH]; simpl; [reflexivity|].
  rewrite Hfg. destruct (f x); simpl; congruence.
Qed.

(** ** The bearer prefix *)

Lemma startswith_bearer (token : string) :
  startswith "Bearer " ("Bearer " ++ token) = true /\
  after_first_space ("Bearer " ++ token) = token.
Proof. split; [|reflexivity]. unfold startswith. cbn. now destruct token. Qed.

Lemma startswith_bearer_inv (auth : string) :
  startswith "Bearer " auth = true ->
  auth = ("Bearer " ++ after_first_space auth)%string.
Proof.
  unfold startswith. intros Hpre.
  do 7 (destruct auth as [|? auth]; [discriminate|]; cbn in Hpre;
        match type of Hpre with
        | (if ?b then _ else _) = true => destruct b eqn:?; [|discriminate]
        end).
  repeat match goal with H : Ascii.ascii_dec _ _ = left _ |- _ => clear H end.
  subst. reflexivity.
Qed.

(** ** The handler monad *)

Lemma outcome_eta {A} (o : outcome A) :
  mk_outcome (value o) (final o) (commits o) = o.
Proof. now destruct o. Qed.

Lemma bind_ret {A B} (a : A) (k : A -> M B) (d : db) :
  bind (ret a) k d = k a d.
Proof. unfold bind, ret; simpl. apply outcome_eta. Qed.

Lemma bind_lift_ok {A B} (a : A) (k : A -> M B) (d : db) :
  bind (lift (Ok a)) k d = k a d.
Proof. unfold bind, lift; simpl. apply outcome_eta. Qed.

Lemma bind_lift_raise {A B} (e : string) (k : A -> M B) (d : db) :
  bind (lift (Raise e)) k d = mk_outcome (Raise e) d [].
Proof. reflexivity. Qed.

Lemma bind_query_db {A B} (q : db -> list A) (k : list A -> M B) (d : db) :
  bind (query_db q) k d = k (q d) d.
Proof. unfold bind, query_db; simpl. apply outcome_eta. Qed.

Lemma bind_query_db_one {A B} (q : db -> list A) (k : option A -> M B) (d : db) :
  bind (query_db_one q) k d = k (hd_error (q d)) d.
Proof. unfold bind, query_db_one; simpl. apply outcome_eta. Qed.

Lemma bind_query_db_bound {A B} (q : Z -> db -> list A) (n : Z) (k : list A -> M B)
    (d : db) :
  bind (query_db_bound q n) k d =
    match q n d with
    | [] => if bindable n then k [] d else mk_outcome (Raise "OverflowError") d []
    | rows => k rows d
    end.
Proof.
  unfold bind, query_db_bound.
  destruct (q n d); [destruct (bindable n)|]; cbn; try apply outcome_eta; reflexivity.
Qed.

Lemma bind_query_db_one_bound {A B} (q : Z -> db -> list A) (n : Z) (k : option A -> M B)
    (d : db) :
  bind (query_db_one_bound q n) k d =
    match hd_error (q n d) with
    | Some row => k (Some row) d
    | None => if bindable n then k None d else mk_outcome (Raise "OverflowError") d []
    end.
Proof.
  unfold bind, query_db_one_bound.
  destruct (q n d); [destruct (bindable n)|]; cbn; try apply outcome_eta; reflexivity.
Qed.

Lemma bind_query_db_bound_ok {A B} (q : Z -> db -> list A) (n : Z) (k : list A -> M B)
    (d : db) :
  bindable n = true ->
  bind (query_db_bound q n) k d = k (q n d) d.
Proof. intros H. rewrite bind_query_db_bound, H. now destruct (q n d). Qed.

Lemma bind_execute_db_ok {B} (stmt : db -> res (db * Z)) (k : Z -> M B) (d d' : db) (i : Z) :
  stmt d = Ok (d', i) ->
  bind (execute_db stmt) k d =
    mk_outcome (value (k i d')) (final (k i d')) (d' :: commits (k i d')).
Proof. intros H. unfold bind, execute_db. now rewrite H. Qed.

Lemma bind_execute_db_raise {B} (stmt : db -> res (db * Z)) (k : Z -> M B) (d : db)
    (e : string) :
  stmt d = Raise e ->
  bind (execute_db stmt) k d = mk_outcome (Raise e) d [].
Proof. intros H. unfold bind, execute_db. now rewrite H. Qed.

Lemma bind_reads {A B} (m : M A) (k : A -> M B) (r : res A) (d : db) :
  m d = mk_outcome r d [] ->
  bind m k d = match r with Ok a => k a d | Raise e => mk_outcome (Raise e) d [] end.
Proof.
  intros H. unfold bind. rewrite H. cbn [value final commits].
  destruct r; [apply outcome_eta|reflexivity].
Qed.

Lemma bind_assoc {A B C} (m : M A) (f : A -> M B) (g : B -> M C) (d : db) :
  bind (bind m f) g d = bind m (fun a => bind (f a) g) d.
Proof.
  unfold bind. destruct (value (m d)) as [a|e]; simpl; [|reflexivity].
  destruct (value (f a (final (m d)))); simpl; [|reflexivity].
  now rewrite app_assoc.
Qed.

Lemma serve_raise (h : M response) (d : db) (e : string) :
  h d = mk_outcome (Raise e) d [] -> serve h d = (ServerError e, d).
Proof. intros H. unfold serve. now rewrite H. Qed.

(** ** The bodies of [register] and [login] *)

Section Bodies.

Context {L : Library}.

Lemma py_or_text (s : string) : py_or (JStr s) (JStr "") = JStr s.
Proof. unfold py_or. cbn [truthy]. now destruct (String.eqb_spec s "") as [->|]. Qed.

Lemma truthy_text (s : string) : negb (truthy (JStr s)) = String.eqb s "".
Proof. cbn [truthy]. apply negb_involutive. Qed.

(** On a body of text fields the handlers are [register_text] and
    [login_text]. *)
Lemma register_on_text (now : Z) (salt : string) (data : register_data) (d : db) :
  register now salt (register_body data) d = register_text now salt data d.
Proof.
  assert (py_or JNull (JStr "") = JStr "") as Hnull by reflexivity.
  destruct data as [[u|] [e|] [p|]]; unfold register, register_text, register_body.
  all: cbn [text_field app data_username data_email data_password field body_dict py_or
            truthy].
  all: rewrite bind_lift_ok.
  all: unfold get_or; cbn [dict_get String.eqb Ascii.eqb Bool.eqb].
  all: rewrite ?py_or_text, ?Hnull; cbn [py_strip]; rewrite !bind_lift_ok.
  all: rewrite truthy_text; cbn [py_len hash_password and_then String.eqb].
  all: repeat match goal with
              | |- context [String.eqb ?x ?y] => destruct (String.eqb x y)
              end; cbn [orb]; rewrite bind_lift_ok; try reflexivity.
  all: match goal with |- context [?n <? 6] => destruct (n <? 6) end; [reflexivity|].
  all: rewrite !bind_query_db_one.
  all: match goal with |- context [hd_error ?l] => destruct (hd_error l) end;
    [reflexivity|].
  all: now rewrite bind_lift_ok.
Qed.

Lemma login_on_text (now : Z) (data : login_data) (d : db) :
  login now (login_body data) d = login_text now data d.
Proof.
  assert (py_or JNull (JStr "") = JStr "") as Hnull by reflexivity.
  destruct data as [[e|] [p|]]; unfold login, login_text, login_body.
  all: cbn [text_field app login_email login_password field body_dict py_or truthy].
  all: rewrite bind_lift_ok.
  all: unfold get_or; cbn [dict_get String.eqb Ascii.eqb Bool.eqb].
  all: rewrite ?py_or_text, ?Hnull; cbn [py_strip]; rewrite !bind_lift_ok.
  all: rewrite truthy_text; cbn [check_password String.eqb].
  all: repeat match goal with
              | |- context [String.eqb ?x ?y] => destruct (String.eqb x y)
              end; cbn [orb]; try reflexivity.
  all: rewrite !bind_query_db_one.
  all: match goal with |- context [hd_error ?l] => destruct (hd_error l) end;
    [|reflexivity].
  all: now rewrite bind_lift_ok.
Qed.

(** [login] writes nothing, whatever the body. *)
Lemma login_final (now : Z) (body : json) (d : db) :
  final (login now body d) = d /\ commits (login now body d) = [].
Proof.
  unfold login.
  destruct (body_dict body) as [data|x];
    [rewrite bind_lift_ok|rewrite bind_lift_raise; now split].
  destruct (py_strip (get_or "email" data (JStr ""))) as [stripped|x];
    [rewrite bind_lift_ok|rewrite bind_lift_raise; now split].
  destruct (_ || _)%bool; [now split|].
  rewrite bind_query_db_one.
  destruct (hd_error _) as [u|]; [|now split].
  destruct (check_password (password_hash u) (get_or "password" data (JStr "")))
    as [[|]|x]; [rewrite bind_lift_ok| rewrite bind_lift_ok|rewrite bind_lift_raise];
    now split.
Qed.

(** Whatever the body, [register] writes nothing, or the body's three
    fields are text and it does what it does on them. *)
Lemma register_body_cases (now : Z) (salt : string) (body : json) (d : db) :
  (final (register now salt body d) = d /\ commits (register now salt body d) = []) \/
  (exists data, register now salt body d = register_text now salt data d).
Proof.
  unfold register.
  destruct (body_dict body) as [data|x];
    [rewrite bind_lift_ok|rewrite bind_lift_raise; left; now split].
  destruct (get_or "username" data (JStr "")) as [| | | |u| | |] eqn:Hu; cbn [py_strip];
    try (rewrite bind_lift_raise; left; now split).
  rewrite bind_lift_ok.
  destruct (get_or "email" data (JStr "")) as [| | | |e| | |] eqn:He; cbn [py_strip];
    try (rewrite bind_lift_raise; left; now split).
  rewrite bind_lift_ok.
  destruct (get_or "password" data (JStr "")) as [| | | |p| | |] eqn:Hp.
  5: { right. exists (mk_register_data (Some u) (Some e) (Some p)).
       rewrite <- register_on_text. unfold register, register_body.
       cbn [text_field app data_username data_email data_password field body_dict py_or
            truthy].
       rewrite bind_lift_ok.
       unfold get_or; cbn [dict_get String.eqb Ascii.eqb Bool.eqb].
       rewrite !py_or_text. cbn [py_strip]. now rewrite !bind_lift_ok. }
  all: left.
  all: match goal with
       | |- context [lift (if ?c then _ else _)] => destruct c
       end; [rewrite bind_lift_ok; now split|].
  all: cbn [py_len and_then]; try (rewrite bind_lift_raise; now split).
  all: rewrite bind_lift_ok.
  all: match goal with |- context [?n <? 6] => destruct (n <? 6) end; [now split|].
  all: rewrite bind_query_db_one.
  all: match goal with |- context [hd_error ?l] => destruct (hd_error l) end;
    [now split|].
  all: cbn [hash_password]; rewrite bind_lift_raise; now split.
Qed.

End Bodies.

(** ** The completion ledger *)

Lemma insert_completion_fresh (uid : Z) (cid : string) (now : Z) (d : db) :
  completions_of uid cid d = [] ->
  insert_completion uid cid now d =
    Ok (mk_db (users d)
              (completions d ++ [mk_completion (seq_completions d + 1) uid cid now])
              (ratings d) (seq_users d) (seq_completions d + 1) (seq_ratings d),
        seq_completions d + 1).
Proof.
  intros H. unfold insert_completion, completions_of in *.
  now rewrite (filter_nil_existsb _ _ H).
Qed.

(** What a first completion does, statement by statement. *)
Lemma complete_course_first (now : Z) (d : db) (uid : Z) (user : user_row) (c : string) :
  c <> "" ->
  hd_error (users_by_id uid d) = Some user ->
  completions_of uid c d = [] ->
  let d1 := mk_db (users d)
              (completions d ++ [mk_completion (seq_completions d + 1) uid c now])
              (ratings d) (seq_users d) (seq_completions d + 1) (seq_ratings d) in
  let user1 := mk_user (user_id user) (username user) (email user) (password_hash user)
                       (points user + 100) (user_created_at user) in
  let d2 := mk_db (map (fun u =>
                          if user_id u =? uid
                          then mk_user (user_id u) (username u) (email u) (password_hash u)
                                       (points u + 100) (user_created_at u)
                          else u) (users d))
              (completions d1) (ratings d1) (seq_users d1) (seq_completions d1)
              (seq_ratings d1) in
  complete_course now (Some c) user d =
    mk_outcome (Ok (Json 200 (JObj [("message", JStr "Course completed");
                                    ("points_awarded", JInt 100);
                                    ("user", user_dict user1)])))
               d2 [d1; d2]
  /\ hd_error (users_by_id uid d2) = Some user1.
Proof.
  intros Hc Hu Hnone d1 user1 d2.
  destruct (hd_error_filter_some _ _ _ Hu) as [_ Hid]. apply Z.eqb_eq in Hid.
  assert (hd_error (users_by_id uid d2) = Some user1) as Hu2.
  { unfold users_by_id, d2; simpl.
    rewrite hd_error_filter_map.
    - unfold users_by_id in Hu. rewrite Hu. simpl.
      now rewrite (proj2 (Z.eqb_eq _ _) Hid).
    - intros x. destruct (user_id x =? uid) eqn:E; simpl; exact E. }
  split; [|exact Hu2].
  cbv beta iota zeta delta [complete_course field].
  apply String.eqb_neq in Hc. rewrite Hc.
  rewrite bind_query_db_one, Hid, Hnone. cbn [hd_error].
  rewrite (bind_execute_db_ok _ _ d d1 (seq_completions d + 1))
    by (apply insert_completion_fresh; exact Hnone).
  rewrite (bind_execute_db_ok _ _ d1 d2 0) by reflexivity.
  rewrite bind_query_db_one, Hu2. reflexivity.
Qed.

(** A repeated completion changes nothing. *)
Lemma complete_course_again (now : Z) (d : db) (user : user_row) (c : string) :
  c <> "" ->
  completions_of (user_id user) c d <> [] ->
  complete_course now (Some c) user d =
    mk_outcome (Ok (Json 200 (JObj [("message", JStr "Already completed");
                                    ("user", user_dict user)])))
               d [].
Proof.
  intros Hc Hsome. cbv beta iota zeta delta [complete_course field].
  apply String.eqb_neq in Hc. rewrite Hc.
  rewrite bind_query_db_one.
  destruct (completions_of (user_id user) c d); [congruence|reflexivity].
Qed.

(** C1.  Completion is idempotent.  For a user [user] the Session Guard
    loaded and a course [c] with no completion row yet, the first
    [complete_course] answers 200 "Course completed" with
    [points_awarded = 100], leaves exactly one completion row for the pair
    and the user's points 100 higher; a second call for the same pair, made
    with the user as the guard now loads it, answers 200 "Already completed"
    with no reward ([awarded] false, [points_awarded] 0), the same user
    record, and changes no table: the two calls add 100 points, not 200. *)
Theorem complete_course_idempotent
    (now1 now2 : Z) (d : db) (uid : Z) (user : user_row) (c : string) :
  c <> "" ->
  hd_error (users_by_id uid d) = Some user ->
  completions_of uid c d = [] ->
  let o1 := complete_course now1 (Some c) user d in
  exists r1 user1 r2,
    value o1 = Ok r1 /\
    r1 = Json 200 (JObj [("message", JStr "Course completed");
                         ("points_awarded", JInt 100);
                         ("user", user_dict user1)]) /\
    awarded r1 = true /\ points_awarded_of r1 = 100 /\
    List.length (completions_of uid c (final o1)) = 1%nat /\
    hd_error (users_by_id uid (final o1)) = Some user1 /\
    points user1 = points user + 100 /\
    let o2 := complete_course now2 (Some c) user1 (final o1) in
    value o2 = Ok r2 /\
    r2 = Json 200 (JObj [("message", JStr "Already completed");
                         ("user", user_dict user1)]) /\
    awarded r2 = false /\ points_awarded_of r2 = 0 /\
    final o2 = final o1 /\ commits o2 = [] /\
    option_map points (hd_error (users_by_id uid (final o2))) = Some (points user + 100).
Proof.
  intros Hc Hu Hnone o1.
  destruct (complete_course_first now1 d uid user c Hc Hu Hnone) as [Hrun Hu1].
  destruct (hd_error_filter_some _ _ _ Hu) as [_ Hid]. apply Z.eqb_eq in Hid.
  subst o1. rewrite Hrun. cbn [value final commits].
  eexists _, _, _. split; [reflexivity|]. split; [reflexivity|].
  split; [reflexivity|]. split; [reflexivity|].
  assert (completions_of uid c
            (mk_db (users d)
               (completions d ++ [mk_completion (seq_completions d + 1) uid c now1])
               (ratings d) (seq_users d) (seq_completions d + 1) (seq_ratings d))
          = [mk_completion (seq_completions d + 1) uid c now1]) as Hrows.
  { unfold completions_of in *. cbn [completions]. rewrite filter_app, Hnone.
    cbn. now rewrite Z.eqb_refl, String.eqb_refl. }
  split.
  { unfold completions_of in *. cbn [completions] in *. now rewrite Hrows. }
  split; [exact Hu1|]. split; [reflexivity|].
  rewrite complete_course_again.
  - cbn [value final commits]. repeat (split; [reflexivity|]).
    now rewrite Hu1.
  - exact Hc.
  - cbn [user_id]. rewrite Hid. unfold completions_of in *. cbn [completions] in *.
    rewrite Hrows. discriminate.
Qed.

Lemma complete_course_idempotent_witness :
  ("c1" <> "" /\ hd_error (users_by_id 1 demo_db) = Some demo_ann
   /\ completions_of 1 "c1" demo_db = []) /\
  exists user1,
    hd_error (users_by_id 1 (final (complete_course 1000 (Some "c1") demo_ann demo_db)))
      = Some user1 /\
    points user1 = 100 /\
    final (complete_course 2000 (Some "c1") user1
             (final (complete_course 1000 (Some "c1") demo_ann demo_db)))
      = final (complete_course 1000 (Some "c1") demo_ann demo_db).
Proof.
  assert ("c1" <> "") as H1 by discriminate.
  assert (hd_error (users_by_id 1 demo_db) = Some demo_ann) as H2 by reflexivity.
  assert (completions_of 1 "c1" demo_db = []) as H3 by reflexivity.
  split; [auto|].
  destruct (complete_course_idempotent 1000 2000 demo_db 1 demo_ann "c1" H1 H2 H3)
    as (r1 & user1 & r2 & _ & _ & _ & _ & _ & Hu & Hp & _ & _ & _ & _ & Hf & _).
  exists user1. auto.
Defined.

(** ** What each view function leaves in the database *)

(** The part of the database the completion invariant reads. *)
Definition same_ledger (d d' : db) : Prop :=
  users d' = users d /\ completions d' = completions d /\ seq_users d' = seq_users d.

Lemma same_ledger_refl (d : db) : same_ledger d d.
Proof. now repeat split. Qed.

Lemma for_each_reads {A B} (l : list A) (f : A -> M B) (g : A -> db -> res B) (d : db) :
  (forall x d', f x d' = mk_outcome (g x d') d' []) ->
  for_each l f d = mk_outcome (map_res (fun x => g x d) l) d [].
Proof.
  intros Hf. induction l as [|x l IH]; simpl; [reflexivity|].
  unfold bind. rewrite Hf. cbn [value final commits].
  destruct (g x d) as [y|e]; cbn [value final commits and_then]; [|reflexivity].
  rewrite IH. cbn [value final commits].
  destruct (map_res (fun x0 => g x0 d) l); reflexivity.
Qed.

Lemma map_res_ok {A B} (g : A -> B) (l : list A) :
  map_res (fun x => Ok (g x)) l = Ok (map g l).
Proof. induction l as [|x l IH]; simpl; [reflexivity|]. now rewrite IH. Qed.

Lemma with_aggregate_reads (c : course) (d : db) :
  with_aggregate c d =
    mk_outcome
      (Ok (dict_set "rating_count" (JInt (snd (rating_aggregate (course_id c) d)))
             (dict_set "avg_rating"
                (json_of_average (fst (rating_aggregate (course_id c) d)))
                (course_dict c))))
      d [].
Proof.
  unfold with_aggregate. rewrite bind_query_db_one. cbn [hd_error].
  destruct (rating_aggregate (course_id c) d) as [[q|] n]; reflexivity.
Qed.

Lemma with_completed_reads (s : list string) (c : dict) (d : db) :
  with_completed s c d =
    mk_outcome
      (match dict_get "id" c with
       | None => Raise "KeyError"
       | Some i => and_then (py_in i s) (fun b => Ok (dict_set "completed" (JBool b) c))
       end) d [].
Proof.
  unfold with_completed. destruct (dict_get "id" c) as [i|]; [|reflexivity].
  destruct (py_in i s) as [b|e] eqn:E.
  - rewrite bind_lift_ok. reflexivity.
  - reflexivity.
Qed.

Section Ledger.

Context {L : Library}.

(** The guard either answers by itself, leaving the database alone, or runs
    the view function with a user row of the database. *)
Lemma auth_required_cases (fn : user_row -> M response) (authorization : option string)
    (now : Z) (d : db) :
  (final (auth_required fn authorization now d) = d /\
   commits (auth_required fn authorization now d) = [] /\
   (value (auth_required fn authorization now d) = Ok (error_response 401 "Unauthorized")
    \/ exists e, value (auth_required fn authorization now d) = Raise e)) \/
  (exists uid user,
      valid_bearer now authorization uid /\
      hd_error (users_by_id uid d) = Some user /\
      auth_required fn authorization now d = fn user d).
Proof.
  unfold auth_required.
  destruct (startswith "Bearer " (field authorization)) eqn:Hpre; [|left; cbn; auto].
  destruct (verify_token now (after_first_space (field authorization))) as [[uid|]|e] eqn:Hv.
  - rewrite bind_lift_ok.
    destruct (uid =? 0) eqn:Hz; cbn [negb]; [left; cbn; auto|].
    rewrite bind_query_db_one_bound.
    destruct (hd_error (users_by_id uid d)) as [user|] eqn:Hu;
      [|left; destruct (bindable uid); cbn; eauto].
    right. exists uid, user. split; [|now split].
    exists (after_first_space (field authorization)).
    split; [|split; [exact Hv|now apply Z.eqb_neq]].
    destruct authorization as [a|]; [|discriminate].
    cbn [field] in *. f_equal. now apply startswith_bearer_inv.
  - rewrite bind_lift_ok. left; cbn; auto.
  - left. rewrite bind_lift_raise. cbn. eauto.
Qed.

(** The index order keeps the rows, and a new row finds its place among
    the ordered ones. *)
Lemma index_insert_length {A} (key : A -> string) (x : A) (l : list A) :
  List.length (index_insert key x l) = S (List.length l).
Proof.
  induction l as [|y l IH]; cbn; [reflexivity|].
  destruct (String.leb (key y) (key x)); cbn; [now rewrite IH|reflexivity].
Qed.

Lemma index_order_snoc {A} (key : A -> string) (l : list A) (x : A) :
  index_order key (l ++ [x]) = index_insert key x (index_order key l).
Proof. unfold index_order. now rewrite fold_left_app. Qed.

Lemma index_order_length {A} (key : A -> string) (l : list A) :
  List.length (index_order key l) = List.length l.
Proof.
  induction l as [|x l IH] using rev_ind; [reflexivity|].
  rewrite index_order_snoc, index_insert_length, IH, length_app. cbn. lia.
Qed.

Lemma index_insert_existsb {A} (f : A -> bool) (key : A -> string) (x : A) (l : list A) :
  existsb f (index_insert key x l) = existsb f l || f x.
Proof.
  induction l as [|y l IH]; cbn; [now rewrite orb_false_r|].
  destruct (String.leb (key y) (key x)); cbn.
  - now rewrite IH, orb_assoc.
  - destruct (f x), (f y), (existsb f l); reflexivity.
Qed.

Lemma existsb_through_map {A B} (f : B -> bool) (g : A -> B) (l : list A) :
  existsb f (map g l) = existsb (fun x => f (g x)) l.
Proof. induction l as [|x l IH]; cbn; [reflexivity|now rewrite IH]. Qed.

Lemma index_order_existsb {A} (f : A -> bool) (key : A -> string) (l : list A) :
  existsb f (index_order key l) = existsb f l.
Proof.
  induction l as [|x l IH] using rev_ind; [reflexivity|].
  rewrite index_order_snoc, index_insert_existsb, IH, existsb_app. cbn.
  now rewrite orb_false_r.
Qed.

Lemma ledger_ok_ext (d d' : db) : same_ledger d d' -> ledger_ok d -> ledger_ok d'.
Proof.
  intros (Hu & Hc & Hs) [Hp Hi]. split.
  - unfold points_consistent, completions_of_user in *. now rewrite Hu, Hc.
  - unfold ids_issued in *. now rewrite Hu, Hc, Hs.
Qed.

Lemma me_final (user : user_row) (d : db) :
  final (me user d) = d /\ commits (me user d) = [].
Proof. unfold me. now rewrite !bind_query_db. Qed.

Lemma courses_final (now : Z) (authorization : option string) (catalog : list course)
    (d : db) :
  final (courses now authorization catalog d) = d /\
  commits (courses now authorization catalog d) = [].
Proof.
  unfold courses.
  rewrite (bind_reads _ _ _ _ (for_each_reads catalog with_aggregate _ d with_aggregate_reads)).
  rewrite map_res_ok.
  set (out := map _ catalog).
  assert (forall m : M (list dict),
             (final (m d) = d /\ commits (m d) = []) ->
             final (bind m (fun o => ret (Json 200 (JList (map JObj o)))) d) = d /\
             commits (bind m (fun o => ret (Json 200 (JList (map JObj o)))) d) = [])
    as Hk.
  { intros m [H1 H2]. unfold bind. destruct (value (m d)); cbn; rewrite ?H1, ?H2; now split. }
  apply Hk.
  destruct (startswith "Bearer " (field authorization)); [|now split].
  destruct (verify_token now _) as [[u|]|e]; [|now split|now split].
  rewrite bind_lift_ok.
  destruct (negb (u =? 0)); [|now split].
  rewrite bind_query_db_bound.
  destruct (completions_of_user u d); [destruct (bindable u); [|now split]|];
    now rewrite (for_each_reads out _ _ d (with_completed_reads _)).
Qed.

Lemma rate_course_ledger (now : Z) (data : rate_data) (user : user_row) (d : db) :
  same_ledger d (final (rate_course now data user d)).
Proof.
  unfold rate_course.
  destruct (py_int (py_or (rate_rating data) (JInt 0))) as [r|e];
    [rewrite bind_lift_ok|apply same_ledger_refl].
  destruct (_ || _); [apply same_ledger_refl|].
  rewrite bind_query_db_one.
  assert (forall (stmt : db -> res (db * Z)) (k : Z -> M response),
             (forall d' i, stmt d = Ok (d', i) -> same_ledger d d') ->
             (forall i d', final (k i d') = d') ->
             same_ledger d (final (bind (execute_db stmt) k d))) as Hexec.
  { intros stmt k Hs Hk. unfold bind, execute_db.
    destruct (stmt d) as [[d' i]|e] eqn:E; cbn [value final commits].
    - rewrite Hk. now apply (Hs d' i).
    - apply same_ledger_refl. }
  assert (forall (i : Z) (d' : db),
             final (bind (query_db_one (fun d0 => [rating_aggregate
                                                    (field (rate_course_id data)) d0]))
                      (fun avg => match avg with
                                  | Some (average, count) =>
                                      ret (Json 200 (JObj [("message", JStr "Rating saved");
                                                           ("average", json_of_average average);
                                                           ("count", JInt count)]))
                                  | None => throw "TypeError"
                                  end) d') = d') as Hk.
  { intros i d'. rewrite bind_query_db_one. cbn [hd_error].
    now destruct (rating_aggregate _ d'). }
  destruct (hd_error _) as [ex|]; apply Hexec; try exact Hk.
  - intros d' i. unfold update_rating. destruct (_ && _); [discriminate|].
    intros H; injection H as <- _. now repeat split.
  - intros d' i. unfold insert_rating. destruct (negb _); [discriminate|].
    destruct (existsb _ _); [discriminate|].
    intros H; injection H as <- _. now repeat split.
Qed.

Lemma register_final (now : Z) (salt : string) (data : register_data) (d : db) :
  final (register_text now salt data d) = d \/
  exists n e h,
    existsb (fun u => String.eqb (username u) n || String.eqb (email u) e) (users d) = false /\
    final (register_text now salt data d) =
      mk_db (users d ++ [mk_user (seq_users d + 1) n e h 0 now]) (completions d) (ratings d)
            (seq_users d + 1) (seq_completions d) (seq_ratings d).
Proof.
  unfold register_text.
  destruct (_ || _); [now left|].
  rewrite bind_query_db_one.
  destruct (hd_error _); [now left|].
  set (n := strip _). set (e := lower _). set (h := generate_password_hash _ _).
  unfold bind, execute_db, insert_user.
  destruct (existsb _ (users d)) eqn:E; [now left|].
  right. exists n, e, h. split; [exact E|].
  cbn [value final commits]. unfold query_db_one. cbn [value final commits].
  destruct (hd_error _); reflexivity.
Qed.

Lemma register_ledger (now : Z) (salt : string) (data : register_data) (d : db) :
  ledger_ok d -> ledger_ok (final (register_text now salt data d)).
Proof.
  intros [Hp (Hu & Hc & Hs)].
  destruct (register_final now salt data d) as [->|(n & e & h & _ & ->)]; [now split|].
  split.
  - unfold points_consistent, completions_of_user in *. cbn [users completions].
    rewrite forallb_app, Hp. cbn [forallb user_id points andb].
    rewrite filter_none; [reflexivity|].
    intros c Hin. apply Z.eqb_neq. specialize (Hc c Hin). lia.
  - split; [|split]; cbn [users completions seq_users]; [| |lia].
    + intros u H. apply in_app_or in H.
      destruct H as [H|[<-|[]]]; [apply Hu in H; lia|cbn; lia].
    + intros c H. apply Hc in H. lia.
Qed.

Lemma complete_course_ledger (now : Z) (data : option string) (uid : Z) (user : user_row)
    (d : db) :
  hd_error (users_by_id uid d) = Some user ->
  ledger_ok d -> ledger_ok (final (complete_course now data user d)).
Proof.
  intros Hu Hok.
  destruct (String.eqb (field data) "") eqn:Hc.
  { unfold complete_course. now rewrite Hc. }
  apply String.eqb_neq in Hc.
  destruct (hd_error_filter_some _ _ _ Hu) as [Hin Hid]. apply Z.eqb_eq in Hid.
  destruct (completions_of uid (field data) d) eqn:Hrows.
  - destruct data as [c|]; [cbn [field] in *|now elim Hc].
    destruct (complete_course_first now d uid user c Hc Hu Hrows) as [-> _].
    cbn [final]. destruct Hok as [Hp (Hius & Hic & Hs)]. split.
    + unfold points_consistent, completions_of_user in *. cbn [users completions].
      rewrite forallb_forall in *. intros u' Hin'.
      apply in_map_iff in Hin' as (u & <- & Hin').
      specialize (Hp u Hin'). apply Z.eqb_eq in Hp.
      rewrite index_order_length in *.
      rewrite filter_app, length_app. cbn [filter completion_user].
      destruct (user_id u =? uid) eqn:E; cbn [user_id points].
      * apply Z.eqb_eq in E. rewrite E in *. rewrite Z.eqb_refl. cbn [List.length].
        apply Z.eqb_eq. lia.
      * rewrite (Z.eqb_sym uid (user_id u)), E. cbn [List.length]. apply Z.eqb_eq. lia.
    + split; [|split]; cbn [users completions seq_users]; [| |exact Hs].
      * intros u' H. apply in_map_iff in H as (u & <- & Hin'). apply Hius in Hin'.
        destruct (user_id u =? uid); cbn; lia.
      * intros c' H. apply in_app_or in H. destruct H as [H|[<-|[]]]; [now apply Hic|].
        cbn. apply Hius in Hin. lia.
  - destruct data as [c'|]; [cbn [field] in *|now elim Hc].
    rewrite complete_course_again; [exact Hok|exact Hc|].
    rewrite Hid, Hrows. discriminate.
Qed.

Lemma view_ledger (r : request) (d : db) :
  ledger_ok d -> ledger_ok (final (view r d)).
Proof.
  intros Hok. destruct r as [now salt data|now data|now a|now a data|now a data|now a cat];
    cbn [view].
  - destruct (register_body_cases now salt data d) as [[-> _]|[fields ->]];
      [exact Hok|now apply register_ledger].
  - now rewrite (proj1 (login_final now data d)).
  - destruct (auth_required_cases me a now d) as [(-> & _)|(uid & user & _ & _ & ->)];
      [exact Hok|]. now rewrite (proj1 (me_final user d)).
  - destruct (auth_required_cases (complete_course now data) a now d)
      as [(-> & _)|(uid & user & _ & Hu & ->)]; [exact Hok|].
    now apply (complete_course_ledger now data uid).
  - destruct (auth_required_cases (rate_course now data) a now d)
      as [(-> & _)|(uid & user & _ & _ & ->)]; [exact Hok|].
    exact (ledger_ok_ext _ _ (rate_course_ledger now data user d) Hok).
  - now rewrite (proj1 (courses_final now a cat d)).
Qed.

Lemma serve_all_ledger (rs : list request) (d : db) :
  ledger_ok d -> ledger_ok (serve_all rs d).
Proof.
  revert d. induction rs as [|r rs IH]; intros d Hok; cbn [serve_all]; [exact Hok|].
  apply IH. unfold serve. cbn [snd]. now apply view_ledger.
Qed.

Lemma init_db_ledger : ledger_ok init_db.
Proof.
  split; [reflexivity|].
  split; [|split]; cbn; [intros u []|intros c []|lia].
Qed.

(** C2, as the code has it.  After any sequence of requests, each served to
    its end, every user's points are 100 times the number of completion rows
    of that user.  The completion insert and the points increment are two
    statements, each committed on its own: a first completion commits the
    database with the new completion row and the old points, then the
    database with the points raised. *)
Theorem points_follow_completions :
  (forall rs : list request, points_consistent (serve_all rs init_db) = true) /\
  (forall (now : Z) (d : db) (uid : Z) (user : user_row) (c : string),
      c <> "" ->
      hd_error (users_by_id uid d) = Some user ->
      completions_of uid c d = [] ->
      exists d1 d2,
        commits (complete_course now (Some c) user d) = [d1; d2] /\
        final (complete_course now (Some c) user d) = d2 /\
        users d1 = users d /\
        completions d1 =
          (completions d ++ [mk_completion (seq_completions d + 1) uid c now])%list /\
        completions d2 = completions d1 /\
        option_map points (hd_error (users_by_id uid d2)) = Some (points user + 100)).
Proof.
  split.
  - intros rs. exact (proj1 (serve_all_ledger rs init_db init_db_ledger)).
  - intros now d uid user c Hc Hu Hnone.
    destruct (complete_course_first now d uid user c Hc Hu Hnone) as [Hrun Hu2].
    rewrite Hrun. cbn [commits final].
    eexists _, _. split; [reflexivity|]. split; [reflexivity|].
    split; [reflexivity|]. split; [reflexivity|]. split; [reflexivity|].
    now rewrite Hu2.
Qed.

End Ledger.

Lemma points_follow_completions_witness :
  points_consistent
    (@serve_all demo_library
       [Register 1000 "s" (register_json "ann" "ann@example.org" "secret1");
        CompleteCourse 2000 (Some ("Bearer " ++ demo_token)%string) (Some "c1")]
       init_db) = true /\
  exists d1 d2,
    commits (complete_course 2000 (Some "c1") demo_ann demo_db) = [d1; d2] /\
    option_map points (hd_error (users_by_id 1 d2)) = Some 100.
Proof.
  destruct (@points_follow_completions demo_library) as [H1 H2].
  split; [apply H1|].
  destruct (H2 2000 demo_db 1 demo_ann "c1") as (d1 & d2 & Hc & _ & _ & _ & _ & Hp);
    [discriminate|reflexivity|reflexivity|].
  exists d1, d2. split; [exact Hc|exact Hp].
Defined.

(** C2, as the spec states it, fails: the completion row is committed before
    the points.  Served to ann's first completion of c1, the program commits
    a database in which ann has a completion row and still 0 points. *)
Lemma completion_commits_apart :
  @serve_all demo_library
    [Register 1000 "s" (register_json "ann" "ann@example.org" "secret1")] init_db
  = demo_db /\
  exists d1 d2,
    commits (@view demo_library
               (CompleteCourse 2000 (Some ("Bearer " ++ demo_token)%string) (Some "c1"))
               demo_db) = [d1; d2] /\
    completions_of 1 "c1" d1 = [mk_completion 1 1 "c1" 2000] /\
    option_map points (hd_error (users_by_id 1 d1)) = Some 0 /\
    points_consistent d1 = false /\
    points_consistent d2 = true.
Proof.
  split; [vm_compute; reflexivity|].
  eexists _, _. split; [vm_compute; reflexivity|].
  vm_compute. auto.
Qed.

(** ** The rating ledger *)

(** A valid rating is written and the fresh aggregate returned. *)
Lemma rate_course_valid (now : Z) (user : user_row) (c : string) (v : Z) (d : db) :
  c <> "" -> 1 <= v <= 5 ->
  let d' := upserted (user_id user) c v now d in
  rate_course now (mk_rate_data (Some c) (JInt v)) user d =
    mk_outcome
      (Ok (Json 200 (JObj [("message", JStr "Rating saved");
                           ("average", json_of_average (fst (rating_aggregate c d')));
                           ("count", JInt (snd (rating_aggregate c d')))])))
      d' [d'].
Proof.
  intros Hc Hv d'. unfold rate_course. cbn [rate_course_id rate_rating field].
  assert (v <> 0) as Hv0 by lia. apply Z.eqb_neq in Hv0.
  unfold py_or. cbn [truthy]. rewrite Hv0. cbn [negb py_int].
  rewrite bind_lift_ok.
  apply String.eqb_neq in Hc. rewrite Hc.
  replace (v <? 1) with false by (symmetry; apply Z.ltb_ge; lia).
  replace (v >? 5) with false by (symmetry; rewrite Z.gtb_ltb; apply Z.ltb_ge; lia).
  cbn [orb]. rewrite bind_query_db_one.
  assert (rating_check v = true) as Hchk.
  { unfold rating_check. apply andb_true_iff. split; apply Z.leb_le; lia. }
  unfold d', upserted.
  destruct (hd_error (ratings_of (user_id user) c d)) as [e|] eqn:He.
  - unfold bind at 1, execute_db, update_rating. rewrite Hchk, andb_false_r.
    cbn [value final commits negb]. rewrite bind_query_db_one. cbn [hd_error].
    destruct (rating_aggregate c _); reflexivity.
  - unfold bind at 1, execute_db, insert_rating. rewrite Hchk. cbn [negb].
    assert (ratings_of (user_id user) c d = []) as Hnil
      by (destruct (ratings_of (user_id user) c d); [reflexivity|discriminate]).
    unfold ratings_of in Hnil. rewrite (filter_nil_existsb _ _ Hnil).
    cbn [value final commits]. rewrite bind_query_db_one. cbn [hd_error].
    destruct (rating_aggregate c _); reflexivity.
Qed.

(** After the write there is one row for the pair, holding the new value;
    when nobody else rated the course, it is the course's only row. *)
Lemma upserted_rows (uid : Z) (c : string) (v now : Z) (d : db) :
  rated_at_most_once uid c d ->
  exists row,
    ratings_of uid c (upserted uid c v now d) = [row] /\ rating row = v /\
    (ratings_of_course c d = ratings_of uid c d ->
     ratings_of_course c (upserted uid c v now d) = [row]).
Proof.
  unfold rated_at_most_once, upserted. intros Hone.
  destruct (ratings_of uid c d) as [|e rest] eqn:Hrows; cbn [hd_error].
  - exists (mk_rating (seq_ratings d + 1) uid c v now).
    unfold ratings_of, ratings_of_course in *. cbn [ratings].
    rewrite !filter_app, Hrows. cbn.
    rewrite Z.eqb_refl, String.eqb_refl. cbn.
    split; [reflexivity|]. split; [reflexivity|]. now intros ->.
  - destruct rest; [|cbn in Hone; lia].
    exists (mk_rating (rating_id e) (rating_user e) (rating_course e) v now).
    unfold ratings_of, ratings_of_course in *. cbn [ratings].
    rewrite !filter_map_id by (intros x; now destruct (rating_id x =? rating_id e)).
    rewrite Hrows. cbn [map]. rewrite Z.eqb_refl.
    split; [reflexivity|]. split; [reflexivity|].
    intros ->. cbn [map]. now rewrite Z.eqb_refl.
Qed.

Lemma rate_in_turn_rows (user : user_row) (c : string) (calls : list (Z * Z)) (d : db) :
  c <> "" ->
  calls <> [] ->
  Forall (fun call => 1 <= snd call <= 5) calls ->
  rated_at_most_once (user_id user) c d ->
  exists row,
    ratings_of (user_id user) c (rate_in_turn user c calls d) = [row] /\
    rating row = snd (last calls (0, 0)).
Proof.
  intros Hc. revert d. induction calls as [|[now v] calls IH]; intros d Hne Hall Hone;
    [congruence|].
  inversion Hall as [|? ? Hv Hall']; subst. cbn [snd] in Hv.
  cbn [rate_in_turn]. rewrite (rate_course_valid now user c v d Hc Hv). cbn [final].
  destruct (upserted_rows (user_id user) c v now d Hone) as (row & Hrow & Hval & _).
  destruct calls as [|call calls'].
  - exists row. now split.
  - apply IH; [discriminate|exact Hall'|].
    unfold rated_at_most_once. rewrite Hrow. cbn. lia.
Qed.

Lemma only_rater (uid : Z) (c : string) (d : db) :
  (forall r, In r (ratings d) -> rating_course r = c -> rating_user r = uid) ->
  ratings_of_course c d = ratings_of uid c d.
Proof.
  intros H. unfold ratings_of_course, ratings_of. apply filter_ext_in.
  intros r Hin. destruct (String.eqb (rating_course r) c) eqn:E.
  - apply String.eqb_eq in E. rewrite (H r Hin E), Z.eqb_refl. reflexivity.
  - now rewrite andb_false_r.
Qed.

(** C3.  Rating is an upsert that keeps one row per user and course.  From a
    database with at most one rating row for [(user, c)] (the table's UNIQUE
    constraint), after any non-empty sequence of [rate_course] calls by the
    user for [c] with integer ratings in 1..5 there is exactly one rating
    row for the pair, and it holds the last rating written.  In particular,
    when nobody else rated [c], rating 3 and then 5 leaves one row with
    value 5 and the second response reports count 1 and average 5. *)
Theorem rate_course_upsert (user : user_row) (c : string) (d : db) :
  c <> "" ->
  rated_at_most_once (user_id user) c d ->
  (forall calls : list (Z * Z),
      calls <> [] ->
      Forall (fun call => 1 <= snd call <= 5) calls ->
      exists row,
        ratings_of (user_id user) c (rate_in_turn user c calls d) = [row] /\
        rating row = snd (last calls (0, 0))) /\
  ((forall r, In r (ratings d) -> rating_course r = c -> rating_user r = user_id user) ->
   forall now1 now2 : Z,
     let d1 := final (rate_course now1 (mk_rate_data (Some c) (JInt 3)) user d) in
     let o2 := rate_course now2 (mk_rate_data (Some c) (JInt 5)) user d1 in
     value o2 = Ok (Json 200 (JObj [("message", JStr "Rating saved");
                                    ("average", JFloat (5 # 1));
                                    ("count", JInt 1)])) /\
     exists row,
       ratings_of (user_id user) c (final o2) = [row] /\ rating row = 5 /\
       ratings_of_course c (final o2) = [row]).
Proof.
  intros Hc Hone. split.
  - intros calls Hne Hall. now apply rate_in_turn_rows.
  - intros Honly now1 now2 d1 o2.
    apply only_rater in Honly.
    assert (1 <= 3 <= 5) as H3 by lia. assert (1 <= 5 <= 5) as H5 by lia.
    subst o2 d1. rewrite (rate_course_valid now1 user c 3 d Hc H3). cbn [final].
    destruct (upserted_rows (user_id user) c 3 now1 d Hone) as (row1 & Hr1 & _ & Hc1).
    specialize (Hc1 Honly).
    rewrite (rate_course_valid now2 user c 5 _ Hc H5). cbn [final value].
    assert (rated_at_most_once (user_id user) c (upserted (user_id user) c 3 now1 d))
      as Hone1 by (unfold rated_at_most_once; rewrite Hr1; cbn; lia).
    destruct (upserted_rows (user_id user) c 5 now2 _ Hone1) as (row2 & Hr2 & Hv2 & Hc2).
    assert (ratings_of_course c (upserted (user_id user) c 5 now2
                                   (upserted (user_id user) c 3 now1 d)) = [row2])
      as Hrows by (apply Hc2; now rewrite Hc1, Hr1).
    split.
    + unfold rating_aggregate. rewrite Hrows. cbn. rewrite Hv2. reflexivity.
    + exists row2. now repeat split.
Qed.

Lemma rate_course_upsert_witness :
  ("c1" <> "" /\ rated_at_most_once 1 "c1" demo_db) /\
  exists row,
    ratings_of 1 "c1" (rate_in_turn demo_ann "c1" [(10, 3); (20, 5)] demo_db) = [row] /\
    rating row = 5.
Proof.
  assert ("c1" <> "") as H1 by discriminate.
  assert (rated_at_most_once 1 "c1" demo_db) as H2 by (unfold rated_at_most_once; cbn; lia).
  split; [now split|].
  destruct (rate_course_upsert demo_ann "c1" demo_db H1 H2) as [Hseq _].
  destruct (Hseq [(10, 3); (20, 5)]) as (row & Hrow & Hval).
  - discriminate.
  - repeat constructor; cbn; lia.
  - exists row. split; [exact Hrow|exact Hval].
Defined.

(** A rating that converts to an integer outside 1..5, or a missing
    course id, is answered 400 and nothing is written. *)
Lemma rate_course_invalid (now : Z) (data : rate_data) (user : user_row) (d : db) (v : Z) :
  py_int (py_or (rate_rating data) (JInt 0)) = Ok v ->
  field (rate_course_id data) = "" \/ v < 1 \/ 5 < v ->
  rate_course now data user d =
    mk_outcome (Ok (error_response 400 "Invalid course_id or rating (1-5 required)")) d [].
Proof.
  intros Hv Hbad. unfold rate_course. rewrite Hv, bind_lift_ok.
  replace (_ || _ || _) with true; [reflexivity|].
  symmetry. rewrite !orb_true_iff. destruct Hbad as [->|[H|H]].
  - now left; left.
  - left; right. apply Z.ltb_lt. lia.
  - right. rewrite Z.gtb_ltb. apply Z.ltb_lt. lia.
Qed.

(** C4, where the code departs from it.  For a rating that is a string of
    letters, [int] raises before any validation: the request is answered
    with Flask's 500, not with the 400 of a validation error, whatever the
    course id; a list does the same.  A fractional rating is truncated and
    stored: 3.5 is saved as 3.  Nothing is written in the first two cases. *)
Theorem rate_course_unconverted_rating (now : Z) (c : option string) (user : user_row)
    (d : db) :
  serve (rate_course now (mk_rate_data c (JStr "abc")) user) d = (ServerError "ValueError", d) /\
  serve (rate_course now (mk_rate_data c (JList [JInt 3])) user) d
    = (ServerError "TypeError", d) /\
  @serve_all demo_library
    [RateCourse 2000 (Some ("Bearer " ++ demo_token)%string)
       (mk_rate_data (Some "c1") (JStr "abc"))] demo_db = demo_db /\
  fst (serve (@view demo_library
                (RateCourse 2000 (Some ("Bearer " ++ demo_token)%string)
                   (mk_rate_data (Some "c1") (JStr "abc")))) demo_db)
    = ServerError "ValueError" /\
  serve (rate_course 2000 (mk_rate_data (Some "c1") (JFloat (7 # 2))) demo_ann) demo_db
    = (Json 200 (JObj [("message", JStr "Rating saved"); ("average", JFloat (3 # 1));
                       ("count", JInt 1)]),
       mk_db (users demo_db) [] [mk_rating 1 1 "c1" 3 2000] 1 0 1).
Proof.
  split; [reflexivity|]. split; [reflexivity|].
  split; [vm_compute; reflexivity|]. split; vm_compute; reflexivity.
Qed.

(** ** Tokens *)

Section Tokens.

Context {L : Library}.

(** Decoding reads the clock only to validate the claims. *)
Lemma jwt_decode_claims (token key : string) :
  exists r : res dict,
    forall now, jwt_decode token key now = and_then r (fun p => validate_claims p now).
Proof.
  unfold jwt_decode.
  destruct (split_last "." token) as [[si seg]|]; [|now exists (Raise "DecodeError")].
  destruct (split_first "." si) as [[hs ps]|]; [|now exists (Raise "DecodeError")].
  destruct (base64url_decode hs) as [hd|]; [|now exists (Raise "DecodeError")].
  destruct (json_loads hd) as [[| | | | | |header|]|];
    try now exists (Raise "DecodeError").
  destruct (base64url_decode ps) as [pd|]; [|now exists (Raise "DecodeError")].
  destruct (base64url_decode seg) as [sig|]; [|now exists (Raise "DecodeError")].
  destruct (dict_get "alg" header) as [[| | | |alg| | |]|];
    try now exists (Raise "InvalidAlgorithmError").
  destruct (negb (String.eqb alg "HS256")); [now exists (Raise "InvalidAlgorithmError")|].
  destruct (negb (String.eqb sig _)); [now exists (Raise "InvalidSignatureError")|].
  destruct (json_loads pd) as [[| | | | | |payload|]|];
    try now exists (Raise "DecodeError").
  now exists (Ok payload).
Qed.

Lemma and_then_ok {A B} (r : res A) (f : A -> res B) (b : B) :
  and_then r f = Ok b -> exists a, r = Ok a /\ f a = Ok b.
Proof. destruct r as [a|e]; cbn; [eauto|discriminate]. Qed.

Lemma validate_claims_ok (p p' : dict) (now : Z) :
  validate_claims p now = Ok p' ->
  p' = p /\ check_iat p now = Ok tt /\ check_nbf p now = Ok tt /\
  check_exp p now = Ok tt /\ check_aud p = Ok tt /\
  check_string_claim "sub" p "InvalidSubjectError" = Ok tt /\
  check_string_claim "jti" p "InvalidJTIError" = Ok tt.
Proof.
  unfold validate_claims. intros H.
  apply and_then_ok in H as ([] & H1 & H). apply and_then_ok in H as ([] & H2 & H).
  apply and_then_ok in H as ([] & H3 & H). apply and_then_ok in H as ([] & H4 & H).
  apply and_then_ok in H as ([] & H5 & H). apply and_then_ok in H as ([] & H6 & H).
  injection H as <-. auto 10.
Qed.

(** The checks that read the clock and pass at one time pass later, but
    for the expiry. *)
Lemma check_iat_later (p : dict) (t now : Z) :
  check_iat p t = Ok tt -> t <= now -> check_iat p now = Ok tt.
Proof.
  unfold check_iat. destruct (dict_get "iat" p) as [v|]; [|reflexivity].
  destruct (claim_int v _) as [iat|]; cbn [and_then]; [|discriminate].
  destruct rejects_future_iat; cbn [andb]; [|reflexivity].
  destruct (t <? iat) eqn:E; [discriminate|]. apply Z.ltb_ge in E. intros _ Hle.
  replace (now <? iat) with false by (symmetry; apply Z.ltb_ge; lia). reflexivity.
Qed.

Lemma check_nbf_later (p : dict) (t now : Z) :
  check_nbf p t = Ok tt -> t <= now -> check_nbf p now = Ok tt.
Proof.
  unfold check_nbf. destruct (dict_get "nbf" p) as [v|]; [|reflexivity].
  destruct (claim_int v _) as [nbf|]; cbn [and_then]; [|discriminate].
  destruct (t <? nbf) eqn:E; [discriminate|]. apply Z.ltb_ge in E. intros _ Hle.
  replace (now <? nbf) with false by (symmetry; apply Z.ltb_ge; lia). reflexivity.
Qed.

(** A token without a full stop, or with a single one, is malformed. *)
Lemma jwt_decode_malformed (token key : string) (now : Z) :
  split_last "." token = None \/
  (exists si seg, split_last "." token = Some (si, seg) /\ split_first "." si = None) ->
  jwt_decode token key now = Raise "DecodeError".
Proof.
  unfold jwt_decode. intros [->|(si & seg & -> & ->)]; reflexivity.
Qed.

(** A token whose last segment does not decode to the MAC of what precedes
    it is refused. *)
Lemma jwt_decode_bad_signature (token key si seg : string) (now : Z) :
  split_last "." token = Some (si, seg) ->
  base64url_decode seg <> Some (hmac_sha256 key si) ->
  exists e, jwt_decode token key now = Raise e.
Proof.
  intros Hs Hsig. unfold jwt_decode. rewrite Hs.
  destruct (split_first "." si) as [[hs ps]|]; [|eauto].
  destruct (base64url_decode hs) as [hd|]; [|eauto].
  destruct (json_loads hd) as [[| | | | | |header|]|]; eauto.
  destruct (base64url_decode ps) as [pd|]; [|eauto].
  destruct (base64url_decode seg) as [sig|]; [|eauto].
  destruct (dict_get "alg" header) as [[| | | |alg| | |]|]; eauto.
  destruct (negb (String.eqb alg "HS256")); [eauto|].
  destruct (String.eqb sig (hmac_sha256 key si)) eqn:E; cbn [negb]; [|eauto].
  apply String.eqb_eq in E. congruence.
Qed.

(** A token that decoded is refused from its expiry on. *)
Lemma jwt_decode_expired (token key : string) (t now e : Z) (payload : dict) (v : json) :
  jwt_decode token key t = Ok payload ->
  dict_get "exp" payload = Some v ->
  py_int v = Ok e ->
  e <= now ->
  jwt_decode token key now = Raise "ExpiredSignatureError".
Proof.
  destruct (jwt_decode_claims token key) as [r Hr]. rewrite !Hr.
  destruct r as [p|]; cbn [and_then]; [|discriminate].
  intros Hok Hexp Hv Hle.
  apply validate_claims_ok in Hok as (-> & Hiat & Hnbf & Hexp' & _).
  assert (t < e) as Hlt.
  { unfold check_exp, claim_int in Hexp'. rewrite Hexp, Hv in Hexp'. cbn [and_then] in Hexp'.
    destruct (e <=? t) eqn:E; [discriminate|]. now apply Z.leb_gt in E. }
  unfold validate_claims.
  rewrite (check_iat_later p t now Hiat), (check_nbf_later p t now Hnbf) by lia.
  cbn [and_then]. unfold check_exp, claim_int. rewrite Hexp, Hv. cbn [and_then].
  replace (e <=? now) with true by (symmetry; apply Z.leb_le; lia). reflexivity.
Qed.

(** [verify_token], case by case. *)
Lemma verify_token_cases (now : Z) (token : string) :
  verify_token now token =
    Ok (match jwt_decode token JWT_SECRET now with
        | Raise _ => None
        | Ok payload =>
            match py_int (match dict_get "sub" payload with Some v => v | None => JNull end)
            with
            | Ok n => Some n
            | Raise _ => None
            end
        end).
Proof.
  unfold verify_token.
  destruct (jwt_decode token JWT_SECRET now) as [payload|]; cbn; [|reflexivity].
  destruct (py_int _); reflexivity.
Qed.

(** C5.  [verify_token] never raises: on every string it returns an integer
    or [None].  It returns [None] when the token is malformed (fewer than
    three segments), when the signature segment does not decode to the MAC
    of the signing input, when a token that once decoded has reached its
    [exp], when [jwt.decode] raises for any other reason, and when the
    subject does not convert with [int]; otherwise it returns [int(sub)]. *)
Theorem verify_token_total (now : Z) (token : string) :
  (exists r : option Z, verify_token now token = Ok r) /\
  (split_last "." token = None \/
   (exists si seg, split_last "." token = Some (si, seg) /\ split_first "." si = None) ->
   verify_token now token = Ok None) /\
  (forall si seg,
      split_last "." token = Some (si, seg) ->
      base64url_decode seg <> Some (hmac_sha256 JWT_SECRET si) ->
      verify_token now token = Ok None) /\
  (forall t payload v e,
      jwt_decode token JWT_SECRET t = Ok payload ->
      dict_get "exp" payload = Some v -> py_int v = Ok e -> e <= now ->
      verify_token now token = Ok None) /\
  (forall e, jwt_decode token JWT_SECRET now = Raise e -> verify_token now token = Ok None) /\
  (forall payload,
      jwt_decode token JWT_SECRET now = Ok payload ->
      verify_token now token =
        Ok (match py_int (match dict_get "sub" payload with Some v => v | None => JNull end)
            with
            | Ok n => Some n
            | Raise _ => None
            end)).
Proof.
  rewrite verify_token_cases. split; [eauto|]. split; [|split; [|split; [|split]]].
  - intros H. now rewrite (jwt_decode_malformed token JWT_SECRET now H).
  - intros si seg Hs Hsig.
    destruct (jwt_decode_bad_signature token JWT_SECRET si seg now Hs Hsig) as [e ->].
    reflexivity.
  - intros t payload v e Hok Hexp Hv Hle.
    now rewrite (jwt_decode_expired token JWT_SECRET t now e payload v Hok Hexp Hv Hle).
  - now intros e ->.
  - now intros payload ->.
Qed.

End Tokens.

(** ** [str] and [int] on integers *)

Lemma char_of_digit_spec (d : Z) :
  0 <= d < 10 ->
  digit_of_char (char_of_digit d) = Some d /\
  Ascii.eqb (char_of_digit d) "_" = false.
Proof.
  intros H.
  assert (d = 0 \/ d = 1 \/ d = 2 \/ d = 3 \/ d = 4 \/ d = 5 \/ d = 6 \/ d = 7
          \/ d = 8 \/ d = 9) as Hd by lia.
  repeat (destruct Hd as [->|Hd]; [now vm_compute|]). subst. now vm_compute.
Qed.

Lemma digit_not_special (c : ascii) (d : Z) :
  digit_of_char c = Some d ->
  is_int_space c = false /\ Ascii.eqb c "+" = false /\ Ascii.eqb c "-" = false.
Proof.
  destruct c as [[] [] [] [] [] [] [] []]; vm_compute; intros H;
    first [discriminate H | auto].
Qed.

Lemma parse_digits_of (f : nat) (n : Z) (acc : string) (seen : bool) :
  0 <= n < 2 ^ Z.of_nat (S f) ->
  parse_digits 0 seen (digits_of (S f) n acc) = parse_digits n true acc.
Proof.
  revert n acc seen. induction f as [|f IH]; intros n acc seen Hn.
  - assert (n / 10 = 0) as Hq by (apply Z.div_small; change (2 ^ Z.of_nat 1) with 2 in Hn; lia).
    cbn [digits_of]. rewrite Hq. cbn [Z.eqb parse_digits].
    destruct (char_of_digit_spec (n mod 10)) as [Hd Hu];
      [apply Z.mod_pos_bound; lia|].
    rewrite Hu, Hd. f_equal. rewrite Z.mod_small; lia.
  - remember (S f) as f' eqn:Hf'. cbn [digits_of].
    destruct (char_of_digit_spec (n mod 10)) as [Hd Hu];
      [apply Z.mod_pos_bound; lia|].
    destruct (n / 10 =? 0) eqn:Hq.
    + apply Z.eqb_eq in Hq. cbn [parse_digits]. rewrite Hu, Hd. f_equal.
      pose proof (Z.div_mod n 10). lia.
    + subst f'. rewrite IH.
      * cbn [parse_digits]. rewrite Hu, Hd. f_equal.
        pose proof (Z.div_mod n 10). lia.
      * split; [apply Z.div_pos; lia|].
        apply Z.div_lt_upper_bound; [lia|].
        rewrite (Nat2Z.inj_succ (S f)), Z.pow_succ_r in Hn by lia. lia.
Qed.

Lemma digits_of_all_digits (f : nat) (n : Z) (acc : string) :
  all_digits acc = true -> all_digits (digits_of f n acc) = true.
Proof.
  revert n acc. induction f as [|f IH]; intros n acc Hacc; cbn [digits_of]; [exact Hacc|].
  assert (all_digits (String (char_of_digit (n mod 10)) acc) = true) as H.
  { cbn [all_digits].
    destruct (char_of_digit_spec (n mod 10)) as [-> _]; [apply Z.mod_pos_bound; lia|].
    exact Hacc. }
  destruct (n / 10 =? 0); [exact H|now apply IH].
Qed.

Lemma digits_of_cons (f : nat) (n : Z) (acc : string) :
  exists c r, digits_of (S f) n acc = String c r.
Proof.
  revert n acc. induction f as [|f IH]; intros n acc.
  - cbn [digits_of]. destruct (n / 10 =? 0); eauto.
  - remember (S f) as f'. cbn [digits_of]. subst f'.
    destruct (n / 10 =? 0); [eauto|apply IH].
Qed.

Lemma rstrip_digits (s : string) :
  all_digits s = true -> rstrip_by is_int_space s = s.
Proof.
  induction s as [|c s IH]; [reflexivity|]. cbn [all_digits rstrip_by].
  destruct (digit_of_char c) as [d|] eqn:Hd; [|discriminate].
  intros Hs. rewrite (IH Hs).
  destruct (digit_not_special c d Hd) as (-> & _ & _). now destruct s.
Qed.

Lemma int_of_digits (s : string) (c : ascii) (r : string) :
  s = String c r -> all_digits s = true ->
  int_of_string s = parse_digits 0 false s.
Proof.
  intros -> Hs. unfold int_of_string.
  pose proof Hs as Hs'. cbn [all_digits] in Hs'.
  destruct (digit_of_char c) as [d|] eqn:Hd; [|discriminate].
  destruct (digit_not_special c d Hd) as (Hsp & Hplus & Hminus).
  cbn [lstrip_by]. rewrite Hsp, (rstrip_digits _ Hs), Hplus, Hminus. reflexivity.
Qed.

(** [int(str(n)) == n] *)
Lemma int_of_string_str_of_int (n : Z) : int_of_string (str_of_int n) = Some n.
Proof.
  assert (forall m, 0 <= m -> m < 2 ^ Z.of_nat (S (Z.to_nat (Z.log2 m)))) as Hfuel.
  { intros m Hm. rewrite Nat2Z.inj_succ, Z2Nat.id by apply Z.log2_nonneg.
    destruct (Z.eq_dec m 0) as [->|Hm0]; [reflexivity|].
    apply Z.log2_spec. lia. }
  unfold str_of_int. destruct (n <? 0) eqn:Hneg.
  - apply Z.ltb_lt in Hneg.
    set (ds := digits_of _ (- n) EmptyString).
    assert (all_digits ds = true) as Hds by now apply digits_of_all_digits.
    unfold int_of_string. cbn [lstrip_by].
    change (is_int_space "-") with false. cbv iota.
    replace (rstrip_by is_int_space (String "-" ds)) with (String "-" ds).
    + change (Ascii.eqb "-" "+") with false. change (Ascii.eqb "-" "-") with true.
      cbv iota. unfold ds. rewrite parse_digits_of by (split; [lia|apply Hfuel; lia]).
      cbn [parse_digits option_map]. f_equal. lia.
    + cbn [rstrip_by]. rewrite (rstrip_digits _ Hds).
      destruct (digits_of_cons (Z.to_nat (Z.log2 (- n))) (- n) EmptyString) as (c & r & Hc).
      fold ds in Hc. now rewrite Hc.
  - apply Z.ltb_ge in Hneg.
    destruct (digits_of_cons (Z.to_nat (Z.log2 n)) n EmptyString) as (c & r & Hc).
    rewrite (int_of_digits _ c r Hc) by now apply digits_of_all_digits.
    rewrite parse_digits_of by (split; [lia|apply Hfuel; lia]). reflexivity.
Qed.

(** ** Splitting a token into its segments *)

Lemma split_first_last_none (sep : ascii) (s : string) :
  split_first sep s = None -> split_last sep s = None.
Proof.
  induction s as [|c s IH]; cbn; [reflexivity|].
  destruct (Ascii.eqb c sep); [discriminate|].
  destruct (split_first sep s) as [[a b]|]; [discriminate|].
  intros _. now rewrite IH.
Qed.

Lemma split_last_append (sep : ascii) (a b : string) :
  split_first sep b = None ->
  split_last sep (a ++ String sep b) = Some (a, b).
Proof.
  intros Hb. induction a as [|c a IH]; cbn.
  - now rewrite (split_first_last_none sep b Hb), Ascii.eqb_refl.
  - now rewrite IH.
Qed.

Lemma split_first_append (sep : ascii) (a b : string) :
  split_first sep a = None ->
  split_first sep (a ++ String sep b) = Some (a, b).
Proof.
  induction a as [|c a IH]; cbn.
  - now rewrite Ascii.eqb_refl.
  - destruct (Ascii.eqb c sep); [discriminate|].
    destruct (split_first sep a) as [[x y]|]; [discriminate|].
    intros _. now rewrite IH.
Qed.

Lemma append_assoc (a b c : string) : ((a ++ b) ++ c = a ++ (b ++ c))%string.
Proof. induction a as [|x a IH]; cbn; [reflexivity|now rewrite IH]. Qed.

Section RoundTrip.

Context {L : Library}.

(** What the round trip needs of the codecs: base64url decodes what it
    encoded and writes no full stop; JSON reads back the header and the
    payload [make_token] writes. *)
Hypothesis base64url_roundtrip :
  forall s, base64url_decode (base64url_encode s) = Some s.
Hypothesis base64url_no_stop :
  forall s, split_first "." (base64url_encode s) = None.
Hypothesis json_header_roundtrip :
  json_loads (json_dumps jwt_header) = Some jwt_header.
Hypothesis json_payload_roundtrip :
  forall sub exp,
    json_loads (json_dumps (JObj [("sub", JStr sub); ("exp", JInt exp)]))
    = Some (JObj [("sub", JStr sub); ("exp", JInt exp)]).

(** The segments of an issued token. *)
Lemma jwt_encode_segments (sub key : string) (exp : Z) :
  let payload := [("sub", JStr sub); ("exp", JInt exp)] in
  let signing_input :=
    (base64url_encode (json_dumps jwt_header) ++ "."
       ++ base64url_encode (json_dumps (JObj payload)))%string in
  jwt_encode payload key
    = (signing_input ++ "." ++ base64url_encode (hmac_sha256 key signing_input))%string /\
  split_first "." signing_input
    = Some (base64url_encode (json_dumps jwt_header),
            base64url_encode (json_dumps (JObj payload))) /\
  forall seg, split_first "." seg = None ->
              split_last "." (signing_input ++ "." ++ seg) = Some (signing_input, seg).
Proof.
  intros payload signing_input. split; [reflexivity|]. split.
  - apply split_first_append, base64url_no_stop.
  - intros seg Hseg. now apply split_last_append.
Qed.

(** Decoding a token with the segments of an issued one, whatever its
    signature segment. *)
Lemma jwt_decode_segments (sub key seg : string) (exp now : Z) :
  let payload := [("sub", JStr sub); ("exp", JInt exp)] in
  let signing_input :=
    (base64url_encode (json_dumps jwt_header) ++ "."
       ++ base64url_encode (json_dumps (JObj payload)))%string in
  split_first "." seg = None ->
  jwt_decode (signing_input ++ "." ++ seg) key now =
    match base64url_decode seg with
    | None => Raise "DecodeError"
    | Some signature =>
        if String.eqb signature (hmac_sha256 key signing_input)
        then if exp <=? now then Raise "ExpiredSignatureError" else Ok payload
        else Raise "InvalidSignatureError"
    end.
Proof.
  intros payload signing_input Hseg.
  destruct (jwt_encode_segments sub key exp) as (_ & Hfirst & Hlast).
  unfold jwt_decode. fold payload signing_input in Hfirst, Hlast.
  rewrite (Hlast seg Hseg), Hfirst, !base64url_roundtrip, json_header_roundtrip.
  unfold jwt_header at 1. cbn [dict_get String.eqb Ascii.eqb Bool.eqb negb].
  destruct (base64url_decode seg) as [signature|]; [|reflexivity].
  destruct (String.eqb signature _); cbn [negb]; [|reflexivity].
  unfold payload at 1. rewrite json_payload_roundtrip.
  unfold validate_claims. cbn. destruct (exp <=? now); reflexivity.
Qed.

(** An issued token decodes to its payload until it expires. *)
Lemma jwt_decode_encode (sub key : string) (exp now : Z) :
  jwt_decode (jwt_encode [("sub", JStr sub); ("exp", JInt exp)] key) key now =
    if exp <=? now then Raise "ExpiredSignatureError"
    else Ok [("sub", JStr sub); ("exp", JInt exp)].
Proof.
  destruct (jwt_encode_segments sub key exp) as (-> & _ & _).
  rewrite jwt_decode_segments by apply base64url_no_stop.
  now rewrite base64url_roundtrip, String.eqb_refl.
Qed.

Lemma verify_make_token (now user_id expires_minutes t : Z) :
  verify_token t (make_token now user_id expires_minutes) =
    Ok (if now + 60 * expires_minutes <=? t then None else Some user_id).
Proof.
  rewrite verify_token_cases. unfold make_token. rewrite jwt_decode_encode.
  destruct (_ <=? t); [reflexivity|].
  cbn [dict_get String.eqb Ascii.eqb Bool.eqb py_int].
  now rewrite int_of_string_str_of_int.
Qed.

(** C6.  Issue and verify round trip.  For every user id [X], a token
    issued for [X] at [now] verifies to [X] at every time before its expiry
    [now + 60 * expires_minutes] (seven days after [now] by default), and to
    [None] from its expiry on; the token with its signature segment replaced
    by one that does not decode to the same signature verifies to [None]. *)
Theorem token_round_trip (X now expires_minutes t : Z) :
  (t < now + 60 * expires_minutes ->
   verify_token t (make_token now X expires_minutes) = Ok (Some X)) /\
  (now + 60 * expires_minutes <= t ->
   verify_token t (make_token now X expires_minutes) = Ok None) /\
  (t < now + 604800 ->
   verify_token t (make_token now X default_expires_minutes) = Ok (Some X)) /\
  (now + 604800 <= t ->
   verify_token t (make_token now X default_expires_minutes) = Ok None) /\
  (forall signing_input seg seg',
      split_last "." (make_token now X expires_minutes) = Some (signing_input, seg) ->
      split_first "." seg' = None ->
      base64url_decode seg' <> base64url_decode seg ->
      verify_token t (signing_input ++ "." ++ seg') = Ok None).
Proof.
  split; [|split; [|split; [|split]]].
  - intros H. rewrite verify_make_token.
    replace (_ <=? t) with false by (symmetry; apply Z.leb_gt; lia). reflexivity.
  - intros H. rewrite verify_make_token.
    replace (_ <=? t) with true by (symmetry; apply Z.leb_le; lia). reflexivity.
  - intros H. rewrite verify_make_token. unfold default_expires_minutes.
    replace (_ <=? t) with false by (symmetry; apply Z.leb_gt; lia). reflexivity.
  - intros H. rewrite verify_make_token. unfold default_expires_minutes.
    replace (_ <=? t) with true by (symmetry; apply Z.leb_le; lia). reflexivity.
  - intros signing_input seg seg' Hsplit Hstop Htamper.
    unfold make_token in Hsplit.
    destruct (jwt_encode_segments (str_of_int X) JWT_SECRET (now + 60 * expires_minutes))
      as (Henc & _ & Hlast).
    rewrite Henc, Hlast in Hsplit by apply base64url_no_stop.
    match type of Hsplit with
    | Some (?a, ?b) = _ =>
        assert (signing_input = a) as -> by congruence;
        assert (seg = b) as -> by congruence
    end.
    rewrite base64url_roundtrip in Htamper.
    rewrite verify_token_cases, jwt_decode_segments by exact Hstop.
    destruct (base64url_decode seg') as [signature|]; [|reflexivity].
    destruct (String.eqb signature _) eqn:E; [|reflexivity].
    apply String.eqb_eq in E. congruence.
Qed.

End RoundTrip.

(** ** The concrete instance meets the round-trip conditions *)

Lemma demo_b64_roundtrip (s : string) : demo_b64decode (demo_b64encode s) = Some s.
Proof.
  induction s as [|c s IH]; [reflexivity|]. cbn [demo_b64encode].
  destruct (Ascii.eqb c ".") eqn:Hstop.
  - apply Ascii.eqb_eq in Hstop as ->. cbn. now rewrite IH.
  - destruct (Ascii.eqb c "-") eqn:Hhyphen.
    + apply Ascii.eqb_eq in Hhyphen as ->. cbn. now rewrite IH.
    + cbn [demo_b64decode]. now rewrite Hhyphen, Hstop, IH.
Qed.

Lemma demo_b64_no_stop (s : string) : split_first "." (demo_b64encode s) = None.
Proof.
  induction s as [|c s IH]; [reflexivity|]. cbn [demo_b64encode].
  destruct (Ascii.eqb c ".") eqn:Hstop; [cbn; now rewrite IH|].
  destruct (Ascii.eqb c "-"); cbn [split_first]; [cbn; now rewrite IH|].
  now rewrite Hstop, IH.
Qed.

Lemma demo_unpos_pos (p : positive) (rest : string) :
  demo_unpos (demo_pos p rest) = Some (p, rest).
Proof. induction p as [p IH|p IH|]; cbn; now rewrite ?IH. Qed.

Lemma demo_json_payload (sub : string) (exp : Z) :
  demo_loads (demo_dumps (JObj [("sub", JStr sub); ("exp", JInt exp)]))
  = Some (JObj [("sub", JStr sub); ("exp", JInt exp)]).
Proof. destruct exp; cbn; now rewrite ?demo_unpos_pos. Qed.

Lemma verify_token_total_witness :
  @verify_token demo_library 2000 "no-stop-in-here" = Ok None /\
  @verify_token demo_library 2000 "H.Ppoooioiiooiiiiiooioo11.forged" = Ok None /\
  @verify_token demo_library 605800 demo_token = Ok None.
Proof.
  split; [|split].
  - apply (proj1 (proj2 (@verify_token_total demo_library 2000 "no-stop-in-here"))).
    left. reflexivity.
  - apply (proj1 (proj2 (proj2 (@verify_token_total demo_library 2000
                                   "H.Ppoooioiiooiiiiiooioo11.forged")))
             "H.Ppoooioiiooiiiiiooioo11" "forged"); [reflexivity|].
    vm_compute. discriminate.
  - apply (proj1 (proj2 (proj2 (proj2 (@verify_token_total demo_library 605800 demo_token))))
             2000 [("sub", JStr "1"); ("exp", JInt 605800)] (JInt 605800) 605800);
      [vm_compute; reflexivity|reflexivity|reflexivity|lia].
Defined.

Lemma token_round_trip_witness :
  @verify_token demo_library 2000 (@make_token demo_library 1000 1 default_expires_minutes)
    = Ok (Some 1) /\
  @verify_token demo_library 605800 (@make_token demo_library 1000 1 default_expires_minutes)
    = Ok None /\
  @verify_token demo_library 2000 "H.Ppoooioiiooiiiiiooioo11.forged" = Ok None.
Proof.
  pose proof (@token_round_trip demo_library demo_b64_roundtrip demo_b64_no_stop
                eq_refl demo_json_payload 1 1000 default_expires_minutes) as H.
  split; [|split].
  - apply (proj1 (H 2000)). vm_compute. reflexivity.
  - apply (proj1 (proj2 (H 605800))). vm_compute. discriminate.
  - apply (proj2 (proj2 (proj2 (proj2 (H 2000))))
             "H.Ppoooioiiooiiiiiooioo11"
             "dev--secret--change--me|H-pPpoooioiiooiiiiiooioo11" "forged").
    + vm_compute. reflexivity.
    + reflexivity.
    + vm_compute. discriminate.
Defined.

(** ** Login *)

Section Login.

Context {L : Library}.

(** With text for a password, a failed login does not tell why it failed:
    the same request gets the same response from a database where the email
    belongs to a user with another password and from a database where the
    email is unknown; and two requests with non-empty credentials, one with
    a wrong password for an existing user and one for an unknown email, both
    get status 401 with the body [{error: "Invalid credentials"}], and
    neither writes anything. *)
Lemma login_text_failure (now now' : Z) (d d' : db) (u : user_row) :
  (forall data : login_data,
      hd_error (users_by_email (lower (strip (field (login_email data)))) d) = Some u ->
      check_password_hash (password_hash u) (field (login_password data)) = false ->
      users_by_email (lower (strip (field (login_email data)))) d' = [] ->
      value (login now (login_body data) d) = value (login now' (login_body data) d')) /\
  (forall data data' : login_data,
      lower (strip (field (login_email data))) <> "" ->
      field (login_password data) <> "" ->
      lower (strip (field (login_email data'))) <> "" ->
      field (login_password data') <> "" ->
      hd_error (users_by_email (lower (strip (field (login_email data)))) d) = Some u ->
      check_password_hash (password_hash u) (field (login_password data)) = false ->
      users_by_email (lower (strip (field (login_email data')))) d' = [] ->
      login now (login_body data) d
        = mk_outcome (Ok (error_response 401 "Invalid credentials")) d [] /\
      login now' (login_body data') d'
        = mk_outcome (Ok (error_response 401 "Invalid credentials")) d' []).
Proof.
  split.
  - intros data Hu Hpw Hnone. rewrite !login_on_text. unfold login_text.
    destruct (_ || _); [reflexivity|].
    rewrite !bind_query_db_one, Hu, Hnone, Hpw. reflexivity.
  - intros data data' He Hp He' Hp' Hu Hpw Hnone. rewrite !login_on_text.
    apply String.eqb_neq in He, Hp, He', Hp'. unfold login_text.
    rewrite He, Hp, He', Hp'. cbn [orb].
    rewrite !bind_query_db_one, Hu, Hnone, Hpw. now split.
Qed.

(** [login] up to the lookup of the user, for a body with an email of text
    and a password that is true. *)
Lemma login_lookup (now : Z) (e : string) (password : json) (d : db) :
  lower (strip e) <> "" ->
  truthy password = true ->
  login now (JObj [("email", JStr e); ("password", password)]) d =
    match hd_error (users_by_email (lower (strip e)) d) with
    | None => mk_outcome (Ok (error_response 401 "Invalid credentials")) d []
    | Some u =>
        bind (lift (check_password (password_hash u) password))
             (fun checked : bool =>
                if negb checked
                then ret (error_response 401 "Invalid credentials")
                else
                  ret (Json 200
                         (JObj [("token",
                                 JStr (make_token now (user_id u)
                                         default_expires_minutes));
                                ("user", user_dict u)]))) d
    end.
Proof.
  intros He Hp. apply String.eqb_neq in He. unfold login.
  cbn [body_dict py_or truthy]. rewrite bind_lift_ok.
  unfold get_or. cbn [dict_get String.eqb Ascii.eqb Bool.eqb].
  rewrite py_or_text. cbn [py_strip]. rewrite bind_lift_ok.
  unfold py_or. rewrite Hp, He. cbn [orb negb]. rewrite Hp. cbn [negb].
  rewrite bind_query_db_one. now destruct (hd_error _).
Qed.

(** C7.  A failed login can tell whether the account exists.  Take two
    logins with the same password, a JSON value that is true and no text
    (a number, say), and non-empty emails: one of a user, whose stored hash
    has the three parts Werkzeug writes, and one nobody has.  For the first,
    [check_password_hash] is reached and raises as it encodes the password:
    the request ends in an exception, which Flask answers 500.  For the
    second, the request is answered 401 [{error: "Invalid credentials"}].
    Neither writes anything. *)
Theorem login_failure_distinguishable (now now' : Z) (d d' : db) (u : user_row)
    (e e' : string) (password : json) :
  lower (strip e) <> "" ->
  lower (strip e') <> "" ->
  truthy password = true ->
  (forall p, password <> JStr p) ->
  hd_error (users_by_email (lower (strip e)) d) = Some u ->
  (2 <= count_char "$" (password_hash u))%nat ->
  users_by_email (lower (strip e')) d' = [] ->
  serve (login now (JObj [("email", JStr e); ("password", password)])) d
    = (ServerError "AttributeError", d) /\
  serve (login now' (JObj [("email", JStr e'); ("password", password)])) d'
    = (error_response 401 "Invalid credentials", d').
Proof.
  intros He He' Hp Htext Hu Hhash Hnone. unfold serve.
  rewrite (login_lookup now e password d He Hp), Hu.
  rewrite (login_lookup now' e' password d' He' Hp), Hnone. cbn [hd_error].
  split; [|reflexivity].
  apply Nat.leb_le in Hhash.
  destruct password as [| | | |p| | |]; try (now elim (Htext p));
    cbn [check_password]; rewrite Hhash, bind_lift_raise; reflexivity.
Qed.

End Login.

Lemma login_failure_distinguishable_witness :
  serve (@login demo_library 2000
           (JObj [("email", JStr "ann@example.org"); ("password", JInt 12345)]))
    demo_werkzeug_db
    = (ServerError "AttributeError", demo_werkzeug_db) /\
  serve (@login demo_library 2000
           (JObj [("email", JStr "bob@example.org"); ("password", JInt 12345)]))
    demo_werkzeug_db
    = (error_response 401 "Invalid credentials", demo_werkzeug_db).
Proof.
  apply (@login_failure_distinguishable demo_library 2000 2000 demo_werkzeug_db
           demo_werkzeug_db
           (mk_user 1 "ann" "ann@example.org" "pbkdf2:sha256:600000$s$5e884898" 0 1000)
           "ann@example.org" "bob@example.org" (JInt 12345));
    try discriminate; reflexivity.
Defined.

(** ** The course listing *)

Lemma dict_get_set_same (k : string) (v : json) (d : dict) :
  dict_get k (dict_set k v d) = Some v.
Proof.
  induction d as [|[k' v'] d IH]; cbn; [now rewrite String.eqb_refl|].
  destruct (String.eqb k k') eqn:E; cbn; now rewrite E.
Qed.

Lemma dict_get_set_other (k k' : string) (v : json) (d : dict) :
  k <> k' -> dict_get k (dict_set k' v d) = dict_get k d.
Proof.
  intros Hk. induction d as [|[k0 v0] d IH]; cbn.
  - apply String.eqb_neq in Hk. now rewrite Hk.
  - destruct (String.eqb k' k0) eqn:E; cbn; [|now rewrite IH].
    apply String.eqb_eq in E as <-. apply String.eqb_neq in Hk. now rewrite Hk.
Qed.

Lemma map_res_ok_in {A B} (g : A -> res B) (h : A -> B) (l : list A) :
  (forall x, In x l -> g x = Ok (h x)) -> map_res g l = Ok (map h l).
Proof.
  induction l as [|x l IH]; intros H; cbn; [reflexivity|].
  rewrite (H x) by now left. cbn.
  rewrite IH by (intros y Hy; apply H; now right). reflexivity.
Qed.

Lemma completed_set_in (uid : Z) (cid : string) (d : db) :
  existsb (String.eqb cid) (map completion_course (completions_of_user uid d))
  = completed_by uid cid d.
Proof.
  unfold completed_by, completions_of_user.
  rewrite existsb_through_map.
  rewrite (index_order_existsb (fun c => String.eqb cid (completion_course c))).
  induction (completions d) as [|c l IH]; cbn; [reflexivity|].
  destruct (completion_user c =? uid); cbn; [|exact IH].
  now rewrite IH, (String.eqb_sym cid).
Qed.

Section Listing.

Context {L : Library}.

(** The record of a course after the first loop of [courses]. *)
Let rated_record (d : db) (c : course) : dict :=
  dict_set "rating_count" (JInt (snd (rating_aggregate (course_id c) d)))
    (dict_set "avg_rating" (json_of_average (fst (rating_aggregate (course_id c) d)))
       (course_dict c)).

Lemma rated_record_id (d : db) (c : course) :
  dict_get "id" (rated_record d c) = Some (JStr (course_id c)).
Proof.
  unfold rated_record. rewrite !dict_get_set_other by discriminate.
  unfold course_dict. cbn. reflexivity.
Qed.

Lemma rated_record_completed (d : db) (c : course) :
  dict_get "completed" (rated_record d c) = dict_get "completed" (course_fields c).
Proof.
  unfold rated_record. rewrite !dict_get_set_other by discriminate.
  unfold course_dict. cbn. reflexivity.
Qed.

(** The listing without personalization. *)
Lemma courses_anonymous (now : Z) (authorization : option string) (catalog : list course)
    (d : db) :
  (forall uid, ~ valid_bearer now authorization uid) ->
  courses now authorization catalog d =
    mk_outcome (Ok (Json 200 (JList (map JObj (map (rated_record d) catalog))))) d [].
Proof.
  intros Hno. unfold courses.
  rewrite (bind_reads _ _ _ _ (for_each_reads catalog with_aggregate _ d with_aggregate_reads)).
  rewrite map_res_ok. fold (rated_record d).
  destruct (startswith "Bearer " (field authorization)) eqn:Hpre;
    [|now rewrite bind_ret].
  destruct (verify_token now (after_first_space (field authorization))) as [[u|]|e] eqn:Hv.
  - rewrite bind_assoc, bind_lift_ok.
    destruct (u =? 0) eqn:Hz; cbn [negb]; [now rewrite bind_ret|].
    exfalso. apply (Hno u). exists (after_first_space (field authorization)).
    split; [|split; [exact Hv|now apply Z.eqb_neq]].
    destruct authorization as [a|]; [|discriminate].
    cbn [field] in *. f_equal. now apply startswith_bearer_inv.
  - rewrite bind_assoc, bind_lift_ok. now rewrite bind_ret.
  - rewrite verify_token_cases in Hv. discriminate.
Qed.

(** The listing for an accepted bearer token. *)
Lemma courses_personal (now : Z) (authorization : option string) (catalog : list course)
    (d : db) (uid : Z) :
  valid_bearer now authorization uid ->
  bindable uid = true ->
  courses now authorization catalog d =
    mk_outcome
      (Ok (Json 200 (JList (map JObj
             (map (fun c => dict_set "completed"
                              (JBool (completed_by uid (course_id c) d))
                              (rated_record d c)) catalog)))))
      d [].
Proof.
  intros (token & -> & Hv & Hz) Hbind. unfold courses.
  rewrite (bind_reads _ _ _ _ (for_each_reads catalog with_aggregate _ d with_aggregate_reads)).
  rewrite map_res_ok. fold (rated_record d).
  cbn [field]. destruct (startswith_bearer token) as [-> ->].
  rewrite Hv, bind_assoc, bind_lift_ok.
  apply Z.eqb_neq in Hz. rewrite Hz. cbn [negb].
  rewrite bind_assoc, (bind_query_db_bound_ok _ _ _ _ Hbind).
  rewrite (bind_reads _ _ _ _
             (for_each_reads (map (rated_record d) catalog) _ _ d (with_completed_reads _))).
  rewrite (map_res_ok_in _
             (fun o => dict_set "completed"
                         (JBool (match dict_get "id" o with
                                 | Some (JStr i) => completed_by uid i d
                                 | _ => false
                                 end)) o)).
  - rewrite (map_map (rated_record d)).
    rewrite (map_ext _ (fun c => dict_set "completed"
                                   (JBool (completed_by uid (course_id c) d))
                                   (rated_record d c)))
      by (intros c; cbv beta; now rewrite rated_record_id).
    reflexivity.
  - intros o Ho. apply in_map_iff in Ho as (c & <- & _).
    rewrite rated_record_id. cbn [py_in and_then]. now rewrite completed_set_in.
Qed.

(** The listing for a header that names a user id SQLite cannot bind. *)
Lemma courses_overflow (now : Z) (authorization : option string) (catalog : list course)
    (d : db) (uid : Z) :
  valid_bearer now authorization uid ->
  bindable uid = false ->
  completions_of_user uid d = [] ->
  courses now authorization catalog d = mk_outcome (Raise "OverflowError") d [].
Proof.
  intros (token & -> & Hv & Hz) Hbind Hnone. unfold courses.
  rewrite (bind_reads _ _ _ _ (for_each_reads catalog with_aggregate _ d with_aggregate_reads)).
  rewrite map_res_ok.
  cbn [field]. destruct (startswith_bearer token) as [-> ->].
  rewrite Hv, bind_assoc, bind_lift_ok.
  apply Z.eqb_neq in Hz. rewrite Hz. cbn [negb].
  now rewrite bind_assoc, bind_query_db_bound, Hbind, Hnone.
Qed.

(** Course listing personalization, for the user ids SQLite binds.  A
    request whose [Authorization] header is not an accepted bearer token
    (absent, not [Bearer ...], or a token that does not verify to a user id)
    is answered 200 with one record per catalog course, in order, none
    containing a [completed] key (for a catalog whose records have none).  A
    request with an accepted bearer token of a user id within 64 bits is
    answered 200 with one record per catalog course whose [completed] is true
    exactly when that user has a completion row for the course, and false
    otherwise.  The listing writes nothing. *)
Lemma courses_personalization_bound (now : Z) (authorization : option string)
    (catalog : list course) (d : db) :
  final (courses now authorization catalog d) = d /\
  ((forall uid, ~ valid_bearer now authorization uid) ->
   (forall c, In c catalog -> dict_get "completed" (course_fields c) = None) ->
   exists out,
     value (courses now authorization catalog d) = Ok (Json 200 (JList (map JObj out))) /\
     Forall2 (fun c o => dict_get "id" o = Some (JStr (course_id c)) /\
                         dict_get "completed" o = None) catalog out) /\
  (forall uid,
      valid_bearer now authorization uid ->
      bindable uid = true ->
      exists out,
        value (courses now authorization catalog d) = Ok (Json 200 (JList (map JObj out))) /\
        Forall2 (fun c o => dict_get "id" o = Some (JStr (course_id c)) /\
                            dict_get "completed" o
                            = Some (JBool (completed_by uid (course_id c) d)))
                catalog out).
Proof.
  split; [apply courses_final|]. split.
  - intros Hno Hcat. rewrite (courses_anonymous _ _ _ _ Hno). cbn [value].
    eexists. split; [reflexivity|].
    induction catalog as [|c l IH]; cbn [map]; constructor.
    + rewrite rated_record_id, rated_record_completed. split; [reflexivity|].
      apply Hcat. now left.
    + apply IH. intros c' Hc'. apply Hcat. now right.
  - intros uid Hval Hbind. rewrite (courses_personal _ _ _ _ uid Hval Hbind). cbn [value].
    eexists. split; [reflexivity|].
    induction catalog as [|c l IH]; cbn [map]; constructor; [|exact IH].
    rewrite dict_get_set_other, rated_record_id, dict_get_set_same by discriminate.
    now split.
Qed.

(** C8.  A token the listing fails on.  [courses] binds the id of an
    accepted token to its [SELECT] on [completions] as it is: for a token
    that verifies to an id outside signed 64 bits (correctly signed, with
    the subject 9223372036854775808, say), of which the table has no row,
    sqlite3 raises [OverflowError], nothing catches it, and the request ends
    in an exception, which Flask answers 500, where the listing was to
    succeed with a [completed] flag per course.  Nothing is written. *)
Theorem courses_unbindable_id (now : Z) (token : string) (uid : Z)
    (catalog : list course) (d : db) :
  verify_token now token = Ok (Some uid) ->
  bindable uid = false ->
  completions_of_user uid d = [] ->
  serve (courses now (Some ("Bearer " ++ token)%string) catalog) d
    = (ServerError "OverflowError", d).
Proof.
  intros Hv Hbind Hnone. apply serve_raise.
  apply (courses_overflow now _ catalog d uid); [|exact Hbind|exact Hnone].
  exists token. split; [reflexivity|]. split; [exact Hv|].
  intros ->. discriminate Hbind.
Qed.

End Listing.

Lemma courses_unbindable_id_witness :
  @verify_token demo_library 2000 demo_big_token = Ok (Some 9223372036854775808) /\
  serve (@courses demo_library 2000 (Some ("Bearer " ++ demo_big_token)%string)
           demo_catalog) demo_db
    = (ServerError "OverflowError", demo_db).
Proof.
  assert (@verify_token demo_library 2000 demo_big_token = Ok (Some 9223372036854775808))
    as Hv by (vm_compute; reflexivity).
  split; [exact Hv|].
  apply (@courses_unbindable_id demo_library 2000 demo_big_token 9223372036854775808
           demo_catalog demo_db Hv); reflexivity.
Defined.

(** ** Registration *)

(** The users table after a successful registration. *)
Lemma insert_user_fresh (n e h : string) (now : Z) (d : db) :
  users_by_email_or_username e n d = [] ->
  insert_user n e h now d =
    Ok (mk_db (users d ++ [mk_user (seq_users d + 1) n e h 0 now]) (completions d)
              (ratings d) (seq_users d + 1) (seq_completions d) (seq_ratings d),
        seq_users d + 1).
Proof.
  intros H. unfold insert_user, users_by_email_or_username in *.
  apply filter_nil_existsb in H.
  rewrite (existsb_same _ (fun u => String.eqb (email u) e || String.eqb (username u) n))
    by (intros u; apply orb_comm).
  now rewrite H.
Qed.

Lemma users_by_email_or_username_found (e n : string) (d : db) (u : user_row) :
  In u (users d) ->
  username u = n \/ email u = e ->
  hd_error (users_by_email_or_username e n d) <> None.
Proof.
  intros Hin Hsame. unfold users_by_email_or_username.
  assert (In u (filter (fun u => String.eqb (email u) e || String.eqb (username u) n)
                       (users d))) as Hf.
  { apply filter_In. split; [exact Hin|]. apply orb_true_iff.
    destruct Hsame as [<-|<-]; [right|left]; apply String.eqb_refl. }
  destruct (filter _ (users d)); [destruct Hf|discriminate].
Qed.

Section Registration.

Context {L : Library}.

(** The three fields as [register] reads them. *)
Let username_of (data : register_data) : string := strip (field (data_username data)).
Let email_of (data : register_data) : string := lower (strip (field (data_email data))).
Let password_of (data : register_data) : string := field (data_password data).

Lemma register_invalid (now : Z) (salt : string) (data : register_data) (d : db) :
  username_of data = "" \/ email_of data = ""
  \/ (String.length (password_of data) < 6)%nat ->
  register_text now salt data d =
    mk_outcome
      (Ok (error_response 400
             "Invalid input, provide username, email and password (min 6 chars)"))
      d [].
Proof.
  intros H. unfold register_text. fold (username_of data) (email_of data) (password_of data).
  replace (_ || _ || _ || _) with true; [reflexivity|].
  symmetry. rewrite !orb_true_iff. destruct H as [->|[->|H]].
  - now left; left; left.
  - now left; left; right.
  - right. apply Z.ltb_lt. lia.
Qed.

Lemma register_valid_test (data : register_data) :
  username_of data <> "" -> email_of data <> "" ->
  (6 <= String.length (password_of data))%nat ->
  String.eqb (username_of data) "" || String.eqb (email_of data) ""
  || String.eqb (password_of data) ""
  || (Z.of_nat (String.length (password_of data)) <? 6) = false.
Proof.
  intros Hu He Hp. apply String.eqb_neq in Hu, He. rewrite Hu, He. cbn [orb].
  apply orb_false_iff. split.
  - apply String.eqb_neq. intros E. rewrite E in Hp. cbn in Hp. lia.
  - apply Z.ltb_ge. lia.
Qed.

Lemma register_conflict (now : Z) (salt : string) (data : register_data) (d : db)
    (u : user_row) :
  username_of data <> "" -> email_of data <> "" ->
  (6 <= String.length (password_of data))%nat ->
  In u (users d) ->
  username u = username_of data \/ email u = email_of data ->
  register_text now salt data d =
    mk_outcome
      (Ok (error_response 400 "User with that email or username already exists")) d [].
Proof.
  intros Hu He Hp Hin Hsame. unfold register_text.
  fold (username_of data) (email_of data) (password_of data).
  rewrite (register_valid_test data Hu He Hp), bind_query_db_one.
  pose proof (users_by_email_or_username_found _ _ d u Hin Hsame) as Hfound.
  destruct (hd_error _); [reflexivity|congruence].
Qed.

(** A valid registration of a new identity inserts the user and answers
    with a token for the new id and the user's row as the database holds
    it. *)
Lemma register_fresh (now : Z) (salt : string) (data : register_data) (d : db) :
  username_of data <> "" -> email_of data <> "" ->
  (6 <= String.length (password_of data))%nat ->
  users_by_email_or_username (email_of data) (username_of data) d = [] ->
  let new := mk_user (seq_users d + 1) (username_of data) (email_of data)
                     (generate_password_hash salt (password_of data)) 0 now in
  let d' := mk_db (users d ++ [new]) (completions d) (ratings d)
                  (seq_users d + 1) (seq_completions d) (seq_ratings d) in
  final (register_text now salt data d) = d' /\
  commits (register_text now salt data d) = [d'] /\
  ((forall u, In u (users d) -> user_id u <= seq_users d) ->
   value (register_text now salt data d) =
     Ok (Json 200 (JObj [("token",
                          JStr (make_token now (seq_users d + 1) default_expires_minutes));
                         ("user", user_dict new)]))).
Proof.
  intros Hu He Hp Hnone new d'. unfold register_text.
  fold (username_of data) (email_of data) (password_of data).
  rewrite (register_valid_test data Hu He Hp), bind_query_db_one, Hnone.
  cbn [hd_error].
  rewrite (bind_execute_db_ok _ _ d d' (seq_users d + 1))
    by (apply insert_user_fresh; exact Hnone).
  rewrite bind_query_db_one. cbn [value final commits].
  split; [now destruct (hd_error _)|]. split; [now destruct (hd_error _)|].
  intros Hids.
  replace (hd_error (users_by_id (seq_users d + 1) d')) with (Some new); [reflexivity|].
  unfold users_by_id, d'. cbn [users]. rewrite filter_app.
  rewrite filter_none by (intros u Hin; apply Z.eqb_neq; specialize (Hids u Hin); lia).
  cbn. now rewrite Z.eqb_refl.
Qed.

(** On a body of text fields, the registration error contract.  A
    registration whose username or email is empty once stripped, or whose
    password has fewer than six characters, is answered 400 with the
    "Invalid input" message; a valid one whose stripped username or
    stripped, lower-cased email belongs to an existing user is answered 400
    with the "already exists" message; so is a valid registration that
    follows a successful one and repeats its email or its username.  In all
    three cases the database is left as it was. *)
Lemma register_text_errors (now : Z) (salt : string) (data : register_data) (d : db) :
  (strip (field (data_username data)) = ""
   \/ lower (strip (field (data_email data))) = ""
   \/ (String.length (field (data_password data)) < 6)%nat ->
   register now salt (register_body data) d =
     mk_outcome
       (Ok (error_response 400
              "Invalid input, provide username, email and password (min 6 chars)"))
       d []) /\
  (strip (field (data_username data)) <> "" ->
   lower (strip (field (data_email data))) <> "" ->
   (6 <= String.length (field (data_password data)))%nat ->
   (forall u,
       In u (users d) ->
       username u = strip (field (data_username data))
       \/ email u = lower (strip (field (data_email data))) ->
       register now salt (register_body data) d =
         mk_outcome
           (Ok (error_response 400 "User with that email or username already exists"))
           d []) /\
   (users_by_email_or_username (lower (strip (field (data_email data))))
      (strip (field (data_username data))) d = [] ->
    forall now2 salt2 data2,
      strip (field (data_username data2)) <> "" ->
      lower (strip (field (data_email data2))) <> "" ->
      (6 <= String.length (field (data_password data2)))%nat ->
      strip (field (data_username data2)) = strip (field (data_username data))
      \/ lower (strip (field (data_email data2))) = lower (strip (field (data_email data))) ->
      let d1 := final (register now salt (register_body data) d) in
      List.length (users d1) = S (List.length (users d)) /\
      register now2 salt2 (register_body data2) d1 =
        mk_outcome
          (Ok (error_response 400 "User with that email or username already exists"))
          d1 [])).
Proof.
  rewrite register_on_text.
  split; [apply register_invalid|]. intros Hu He Hp. split.
  - intros u Hin Hsame. now apply (register_conflict now salt data d u).
  - intros Hnone now2 salt2 data2 Hu2 He2 Hp2 Hsame d1.
    destruct (register_fresh now salt data d Hu He Hp Hnone) as (Hfinal & _ & _).
    subst d1. rewrite Hfinal, register_on_text. split.
    + cbn [users]. rewrite length_app. cbn. lia.
    + apply (register_conflict now2 salt2 data2 _
               (mk_user (seq_users d + 1) (username_of data) (email_of data)
                        (generate_password_hash salt (password_of data)) 0 now));
        try assumption.
      * cbn [users]. apply in_or_app. right. now left.
      * cbn [username email]. destruct Hsame as [H|H]; [left|right]; symmetry; exact H.
Qed.

(** C9.  The registration error contract does not hold for every input.
    [register] applies [strip] and [len] to whatever JSON values the body
    carries, before and while it validates: an email that is true and no
    text (the number 5, say) raises at [.strip()], whatever the username
    and the password, also where the username is empty and the contract
    asks for the validation error; a password that is a number other than 0
    raises at [len(password)]; and a body that is true and no object raises
    at [data.get].  Each of these requests ends in an exception, which Flask
    answers 500, with no [{error: ...}] body; none writes a row. *)
Theorem register_unvalidated_input (now : Z) (salt : string) (d : db) :
  (forall (username : string) (email password : json),
      truthy email = true ->
      (forall s, email <> JStr s) ->
      serve (register now salt
               (JObj [("username", JStr username); ("email", email);
                      ("password", password)])) d
      = (ServerError "AttributeError", d)) /\
  serve (register now salt
           (JObj [("username", JStr ""); ("email", JInt 5);
                  ("password", JStr "secret1")])) d
  = (ServerError "AttributeError", d) /\
  (forall (username email : string) (n : Z),
      strip username <> "" ->
      lower (strip email) <> "" ->
      n <> 0 ->
      serve (register now salt
               (JObj [("username", JStr username); ("email", JStr email);
                      ("password", JInt n)])) d
      = (ServerError "TypeError", d)) /\
  (forall body : json,
      truthy body = true ->
      (forall o, body <> JObj o) ->
      serve (register now salt body) d = (ServerError "AttributeError", d)).
Proof.
  assert (forall (username : string) (email password : json),
             truthy email = true ->
             (forall s, email <> JStr s) ->
             serve (register now salt
                      (JObj [("username", JStr username); ("email", email);
                             ("password", password)])) d
             = (ServerError "AttributeError", d)) as Hemail.
  { intros username email password Htrue Htext. apply serve_raise. unfold register.
    cbn [body_dict py_or truthy]. rewrite bind_lift_ok.
    unfold get_or at 1. cbn [dict_get String.eqb Ascii.eqb Bool.eqb].
    rewrite py_or_text. cbn [py_strip]. rewrite bind_lift_ok.
    unfold get_or at 1. cbn [dict_get String.eqb Ascii.eqb Bool.eqb].
    unfold py_or at 1. rewrite Htrue.
    destruct email as [| | | |s| | |]; try (now elim (Htext s));
      cbn [py_strip]; rewrite bind_lift_raise; reflexivity. }
  split; [exact Hemail|]. split; [|split].
  - apply Hemail; [reflexivity|discriminate].
  - intros username email n Hu He Hn. apply String.eqb_neq in Hu, He.
    apply Z.eqb_neq in Hn. apply serve_raise. unfold register.
    cbn [body_dict py_or truthy]. rewrite bind_lift_ok.
    unfold get_or. cbn [dict_get String.eqb Ascii.eqb Bool.eqb].
    rewrite !py_or_text. cbn [py_strip]. rewrite !bind_lift_ok.
    unfold py_or. cbn [truthy]. rewrite Hn. cbn [negb]. rewrite Hu, He. cbn [orb].
    cbn [truthy]. rewrite Hn. reflexivity.
  - intros body Htrue Hobj. apply serve_raise. unfold register, body_dict, py_or.
    rewrite Htrue.
    destruct body as [| | | | | |o|]; try (now elim (Hobj o));
      rewrite bind_lift_raise; reflexivity.
Qed.

End Registration.

Section Registered.

Context {L : Library}.

Hypothesis base64url_roundtrip :
  forall s, base64url_decode (base64url_encode s) = Some s.
Hypothesis base64url_no_stop :
  forall s, split_first "." (base64url_encode s) = None.
Hypothesis json_header_roundtrip :
  json_loads (json_dumps jwt_header) = Some jwt_header.
Hypothesis json_payload_roundtrip :
  forall sub exp,
    json_loads (json_dumps (JObj [("sub", JStr sub); ("exp", JInt exp)]))
    = Some (JObj [("sub", JStr sub); ("exp", JInt exp)]).

(** C10.  Registration doubles as login.  A valid registration of a new
    identity, on a database whose user ids were handed out by AUTOINCREMENT,
    is answered 200 with a token and the user's record.  The token was
    issued at the time of the request for the id of the row just inserted,
    and verifies to that id at every time within the following seven days;
    the record is the new row's id, stripped username, normalized email and
    points 0, and has no [password_hash] key. *)
Theorem register_issues_token (now : Z) (salt : string) (data : register_data) (d : db) :
  strip (field (data_username data)) <> "" ->
  lower (strip (field (data_email data))) <> "" ->
  (6 <= String.length (field (data_password data)))%nat ->
  users_by_email_or_username (lower (strip (field (data_email data))))
    (strip (field (data_username data))) d = [] ->
  ids_issued d ->
  let new_id := seq_users d + 1 in
  exists token user new,
    serve (register now salt (register_body data)) d
      = (Json 200 (JObj [("token", JStr token); ("user", JObj user)]),
         mk_db (users d ++ [new]) (completions d) (ratings d)
               new_id (seq_completions d) (seq_ratings d)) /\
    new = mk_user new_id (strip (field (data_username data)))
                  (lower (strip (field (data_email data))))
                  (generate_password_hash salt (field (data_password data))) 0 now /\
    token = make_token now new_id default_expires_minutes /\
    (forall t, t < now + 604800 -> verify_token t token = Ok (Some new_id)) /\
    user = [("id", JInt new_id);
            ("username", JStr (strip (field (data_username data))));
            ("email", JStr (lower (strip (field (data_email data)))));
            ("points", JInt 0)] /\
    dict_get "points" user = Some (JInt 0) /\
    dict_get "password_hash" user = None.
Proof.
  intros Hu He Hp Hnone (Hids & _ & _) new_id.
  destruct (register_fresh now salt data d Hu He Hp Hnone) as (Hfinal & _ & Hvalue).
  eexists _, _, _. split.
  - unfold serve. rewrite register_on_text, Hfinal, Hvalue; [reflexivity|].
    intros u Hin. apply Hids in Hin. lia.
  - split; [reflexivity|]. split; [reflexivity|]. split.
    + intros t Ht.
      rewrite (verify_make_token base64url_roundtrip base64url_no_stop
                 json_header_roundtrip json_payload_roundtrip).
      unfold default_expires_minutes.
      replace (_ <=? t) with false by (symmetry; apply Z.leb_gt; lia). reflexivity.
    + split; [reflexivity|]. split; reflexivity.
Qed.

End Registered.

Lemma register_issues_token_witness :
  exists token user new,
    serve (@register demo_library 2000 "t"
             (register_json " bob " "Bob@Example.org" "hunter22"))
      demo_db
      = (Json 200 (JObj [("token", JStr token); ("user", JObj user)]),
         mk_db (users demo_db ++ [new]) [] [] 2 0 0) /\
    @verify_token demo_library 3000 token = Ok (Some 2) /\
    dict_get "username" user = Some (JStr "bob") /\
    dict_get "email" user = Some (JStr "bob@example.org") /\
    dict_get "points" user = Some (JInt 0) /\
    dict_get "password_hash" user = None.
Proof.
  destruct (@register_issues_token demo_library demo_b64_roundtrip demo_b64_no_stop
              eq_refl demo_json_payload 2000 "t"
              (mk_register_data (Some " bob ") (Some "Bob@Example.org") (Some "hunter22"))
              demo_db)
    as (token & user & new & Hserve & _ & _ & Hverify & Huser & Hpoints & Hhash).
  - discriminate.
  - discriminate.
  - cbn. lia.
  - reflexivity.
  - split; [|split]; cbn; [intros u [<-|[]]; cbn; lia|intros c []|lia].
  - exists token, user, new. split; [exact Hserve|]. split.
    + apply Hverify. lia.
    + rewrite Huser. repeat split; reflexivity.
Defined.

(** ** The session guard *)

Section Guard.

Context {L : Library}.

Lemma valid_bearer_unique (now : Z) (authorization : option string) (uid uid' : Z) :
  valid_bearer now authorization uid -> valid_bearer now authorization uid' -> uid = uid'.
Proof.
  intros (t & -> & Hv & _) (t' & Ht & Hv' & _).
  assert (t = t') as <- by (cbn in Ht; congruence). congruence.
Qed.

(** What the two tests of the guard decide. *)
Lemma bearer_cases (now : Z) (authorization : option string) :
  (exists uid,
      valid_bearer now authorization uid /\
      startswith "Bearer " (field authorization) = true /\
      verify_token now (after_first_space (field authorization)) = Ok (Some uid) /\
      (uid =? 0) = false) \/
  ((forall uid, ~ valid_bearer now authorization uid) /\
   (startswith "Bearer " (field authorization) = false \/
    verify_token now (after_first_space (field authorization)) = Ok None \/
    verify_token now (after_first_space (field authorization)) = Ok (Some 0))).
Proof.
  destruct (startswith "Bearer " (field authorization)) eqn:Hpre.
  - assert (authorization = Some ("Bearer " ++ after_first_space (field authorization))%string)
      as Hauth.
    { destruct authorization as [a|]; [|discriminate]. cbn [field] in *.
      f_equal. now apply startswith_bearer_inv. }
    rewrite verify_token_cases.
    set (r := match jwt_decode _ _ _ with Ok _ => _ | Raise _ => None end).
    assert (verify_token now (after_first_space (field authorization)) = Ok r) as Hv
      by apply verify_token_cases.
    destruct r as [uid|].
    + destruct (uid =? 0) eqn:Hz.
      * right. apply Z.eqb_eq in Hz. subst uid. split; [|auto].
        intros uid (t & Ht & Hv' & Hnz). rewrite Hauth in Ht.
        assert (t = after_first_space (field authorization)) as ->
          by (cbn in Ht; congruence).
        congruence.
      * left. exists uid. split; [|auto].
        exists (after_first_space (field authorization)).
        split; [exact Hauth|]. split; [exact Hv|now apply Z.eqb_neq].
    + right. split; [|auto].
      intros uid (t & Ht & Hv' & Hnz). rewrite Hauth in Ht.
      assert (t = after_first_space (field authorization)) as ->
        by (cbn in Ht; congruence).
      congruence.
  - right. split; [|auto].
    intros uid (t & -> & _). cbn [field] in Hpre.
    now rewrite (proj1 (startswith_bearer t)) in Hpre.
Qed.

Lemma guard_rejects (fn : user_row -> M response) (authorization : option string)
    (now : Z) (d : db) :
  (forall uid, valid_bearer now authorization uid ->
               users_by_id uid d = [] /\ bindable uid = true) ->
  auth_required fn authorization now d
    = mk_outcome (Ok (error_response 401 "Unauthorized")) d [].
Proof.
  intros Hno. unfold auth_required.
  destruct (bearer_cases now authorization)
    as [(uid & Hval & -> & -> & Hz)|(_ & [->|[Hv|Hv]])]; try reflexivity.
  - rewrite bind_lift_ok, Hz. cbn [negb].
    destruct (Hno uid Hval) as [Hrows Hbind].
    rewrite bind_query_db_one_bound, Hrows, Hbind. reflexivity.
  - destruct (startswith _ _); [|reflexivity]. now rewrite Hv, bind_lift_ok.
  - destruct (startswith _ _); [|reflexivity]. now rewrite Hv, bind_lift_ok.
Qed.

Lemma guard_overflows (fn : user_row -> M response) (authorization : option string)
    (now : Z) (d : db) (uid : Z) :
  valid_bearer now authorization uid ->
  users_by_id uid d = [] ->
  bindable uid = false ->
  auth_required fn authorization now d = mk_outcome (Raise "OverflowError") d [].
Proof.
  intros Hval Hrows Hbind. unfold auth_required.
  destruct (bearer_cases now authorization)
    as [(uid' & Hval' & -> & -> & Hz)|(Hno & _)]; [|now elim (Hno uid)].
  assert (uid' = uid) as -> by exact (valid_bearer_unique _ _ _ _ Hval' Hval).
  rewrite bind_lift_ok, Hz. cbn [negb].
  now rewrite bind_query_db_one_bound, Hrows, Hbind.
Qed.

Lemma guard_accepts (fn : user_row -> M response) (authorization : option string)
    (now : Z) (d : db) (uid : Z) (user : user_row) :
  valid_bearer now authorization uid ->
  hd_error (users_by_id uid d) = Some user ->
  auth_required fn authorization now d = fn user d /\
  In user (users d) /\ user_id user = uid.
Proof.
  intros Hval Hu. unfold auth_required.
  destruct (bearer_cases now authorization)
    as [(uid' & Hval' & -> & -> & Hz)|(Hno & _)]; [|now elim (Hno uid)].
  assert (uid' = uid) as -> by exact (valid_bearer_unique _ _ _ _ Hval' Hval).
  rewrite bind_lift_ok, Hz. cbn [negb]. rewrite bind_query_db_one_bound, Hu.
  split; [reflexivity|].
  destruct (hd_error_filter_some _ _ _ Hu) as [Hin Hid]. split; [exact Hin|].
  now apply Z.eqb_eq.
Qed.

(** X1.  The session guard.  When the [Authorization] header is no
    accepted bearer token, or is one of a user id within signed 64 bits that
    has no row in [users], the request is answered 401
    [{error: "Unauthorized"}], the view function is not run and nothing is
    written.  When it is an accepted bearer token of a user id that has a
    row, the guard runs the view function with the first row of that id and
    answers what it answers.  When it is an accepted bearer token of a user
    id outside signed 64 bits (which has no row), binding the id to the
    [SELECT] raises [OverflowError]: the view function is not run and
    nothing is written. *)
Theorem auth_required_guard (fn : user_row -> M response) (authorization : option string)
    (now : Z) (d : db) :
  ((forall uid, valid_bearer now authorization uid ->
                users_by_id uid d = [] /\ bindable uid = true) ->
   auth_required fn authorization now d
     = mk_outcome (Ok (error_response 401 "Unauthorized")) d []) /\
  (forall uid user,
      valid_bearer now authorization uid ->
      hd_error (users_by_id uid d) = Some user ->
      auth_required fn authorization now d = fn user d /\
      In user (users d) /\ user_id user = uid) /\
  (forall uid,
      valid_bearer now authorization uid ->
      users_by_id uid d = [] ->
      bindable uid = false ->
      auth_required fn authorization now d = mk_outcome (Raise "OverflowError") d []).
Proof.
  split; [|split].
  - apply guard_rejects.
  - intros uid user. apply guard_accepts.
  - intros uid. apply guard_overflows.
Qed.

End Guard.

Lemma auth_required_guard_witness :
  @auth_required demo_library me None 2000 demo_db
    = mk_outcome (Ok (error_response 401 "Unauthorized")) demo_db [] /\
  @auth_required demo_library me (Some ("Bearer " ++ demo_token)%string) 2000 demo_db
    = me demo_ann demo_db /\
  @auth_required demo_library me (Some ("Bearer " ++ demo_big_token)%string) 2000 demo_db
    = mk_outcome (Raise "OverflowError") demo_db [].
Proof.
  split; [|split].
  - apply (proj1 (@auth_required_guard demo_library me None 2000 demo_db)).
    intros uid (t & Ht & _). discriminate Ht.
  - apply (proj1 (proj2 (@auth_required_guard demo_library me
                    (Some ("Bearer " ++ demo_token)%string) 2000 demo_db)) 1 demo_ann).
    + exists demo_token. split; [reflexivity|]. split; [vm_compute; reflexivity|discriminate].
    + reflexivity.
  - apply (proj2 (proj2 (@auth_required_guard demo_library me
                    (Some ("Bearer " ++ demo_big_token)%string) 2000 demo_db)) (2 ^ 63)).
    + exists demo_big_token. split; [reflexivity|].
      split; [vm_compute; reflexivity|discriminate].
    + reflexivity.
    + reflexivity.
Defined.

(** ** One request, case by case *)

Section Effects.

Context {L : Library}.

(** The guard answers 401 by itself, or hands over to the view function
    with a row of [users]. *)
Lemma guard_cases (fn : user_row -> M response) (authorization : option string)
    (now : Z) (d : db) :
  auth_required fn authorization now d
    = mk_outcome (Ok (error_response 401 "Unauthorized")) d [] \/
  auth_required fn authorization now d = mk_outcome (Raise "OverflowError") d [] \/
  (exists user,
      In user (users d) /\
      hd_error (users_by_id (user_id user) d) = Some user /\
      valid_bearer now authorization (user_id user) /\
      auth_required fn authorization now d = fn user d).
Proof.
  destruct (bearer_cases now authorization) as [(uid & Hval & _)|(Hno & _)].
  - destruct (hd_error (users_by_id uid d)) as [user|] eqn:Hu.
    + right. right. exists user.
      destruct (guard_accepts fn authorization now d uid user Hval Hu)
        as (Hrun & Hin & Hid).
      subst uid. auto.
    + assert (users_by_id uid d = []) as Hrows by now destruct (users_by_id uid d).
      destruct (bindable uid) eqn:Hbind.
      * left. apply guard_rejects.
        intros uid' Hval'. now rewrite (valid_bearer_unique _ _ _ _ Hval' Hval).
      * right. left. now apply (guard_overflows fn authorization now d uid).
  - left. apply guard_rejects.
    intros uid Hval. now elim (Hno uid).
Qed.

Lemma register_cases (now : Z) (salt : string) (data : register_data) (d : db) :
  register_text now salt data d
    = mk_outcome
        (Ok (error_response 400
               "Invalid input, provide username, email and password (min 6 chars)"))
        d [] \/
  register_text now salt data d
    = mk_outcome
        (Ok (error_response 400 "User with that email or username already exists")) d [] \/
  (strip (field (data_username data)) <> "" /\
   lower (strip (field (data_email data))) <> "" /\
   (6 <= String.length (field (data_password data)))%nat /\
   users_by_email_or_username (lower (strip (field (data_email data))))
     (strip (field (data_username data))) d = []).
Proof.
  destruct (String.eqb (strip (field (data_username data))) ""
            || String.eqb (lower (strip (field (data_email data)))) ""
            || String.eqb (field (data_password data)) ""
            || (Z.of_nat (String.length (field (data_password data))) <? 6)) eqn:T.
  - left. unfold register_text. now rewrite T.
  - right.
    destruct (users_by_email_or_username (lower (strip (field (data_email data))))
                (strip (field (data_username data))) d) as [|u l] eqn:E.
    + right. apply orb_false_iff in T as [T Hlen].
      apply orb_false_iff in T as [T _]. apply orb_false_iff in T as [Hu He].
      apply String.eqb_neq in Hu, He. apply Z.ltb_ge in Hlen.
      repeat split; try assumption. lia.
    + left. unfold register_text. now rewrite T, bind_query_db_one, E.
Qed.

(** A rating that converts to 1..5, for a course id, is written. *)
Lemma rate_course_written (now : Z) (data : rate_data) (user : user_row) (d : db)
    (c : string) (v : Z) :
  py_int (py_or (rate_rating data) (JInt 0)) = Ok v ->
  field (rate_course_id data) = c ->
  c <> "" -> 1 <= v <= 5 ->
  let d' := upserted (user_id user) c v now d in
  rate_course now data user d =
    mk_outcome
      (Ok (Json 200 (JObj [("message", JStr "Rating saved");
                           ("average", json_of_average (fst (rating_aggregate c d')));
                           ("count", JInt (snd (rating_aggregate c d')))])))
      d' [d'].
Proof.
  intros Hint Hfield Hc Hv d'. unfold rate_course. rewrite Hint, Hfield, bind_lift_ok.
  apply String.eqb_neq in Hc. rewrite Hc.
  replace (v <? 1) with false by (symmetry; apply Z.ltb_ge; lia).
  replace (v >? 5) with false by (symmetry; rewrite Z.gtb_ltb; apply Z.ltb_ge; lia).
  cbn [orb]. rewrite bind_query_db_one.
  assert (rating_check v = true) as Hchk.
  { unfold rating_check. apply andb_true_iff. split; apply Z.leb_le; lia. }
  unfold d', upserted.
  destruct (hd_error (ratings_of (user_id user) c d)) as [e|] eqn:He.
  - unfold bind at 1, execute_db, update_rating. rewrite Hchk, andb_false_r.
    cbn [value final commits negb]. rewrite bind_query_db_one. cbn [hd_error].
    destruct (rating_aggregate c _); reflexivity.
  - unfold bind at 1, execute_db, insert_rating. rewrite Hchk. cbn [negb].
    assert (ratings_of (user_id user) c d = []) as Hnil
      by (destruct (ratings_of (user_id user) c d); [reflexivity|discriminate]).
    unfold ratings_of in Hnil. rewrite (filter_nil_existsb _ _ Hnil).
    cbn [value final commits]. rewrite bind_query_db_one. cbn [hd_error].
    destruct (rating_aggregate c _); reflexivity.
Qed.

Lemma rate_course_cases (now : Z) (data : rate_data) (user : user_row) (d : db) :
  (exists e,
      py_int (py_or (rate_rating data) (JInt 0)) = Raise e /\
      rate_course now data user d = mk_outcome (Raise e) d []) \/
  rate_course now data user d
    = mk_outcome (Ok (error_response 400 "Invalid course_id or rating (1-5 required)"))
        d [] \/
  (exists v,
      py_int (py_or (rate_rating data) (JInt 0)) = Ok v /\
      field (rate_course_id data) <> "" /\ 1 <= v <= 5 /\
      let d' := upserted (user_id user) (field (rate_course_id data)) v now d in
      final (rate_course now data user d) = d' /\
      commits (rate_course now data user d) = [d'] /\
      exists body, value (rate_course now data user d) = Ok (Json 200 body)).
Proof.
  destruct (py_int (py_or (rate_rating data) (JInt 0))) as [v|e] eqn:Hint.
  - right.
    destruct (String.eqb (field (rate_course_id data)) "") eqn:Hc.
    + left. apply String.eqb_eq in Hc. apply (rate_course_invalid now data user d v Hint).
      now left.
    + apply String.eqb_neq in Hc.
      destruct (Z.lt_ge_cases v 1) as [Hlo|Hlo];
        [left; apply (rate_course_invalid now data user d v Hint); auto|].
      destruct (Z.lt_ge_cases 5 v) as [Hhi|Hhi];
        [left; apply (rate_course_invalid now data user d v Hint); auto|].
      right. exists v. split; [reflexivity|]. split; [exact Hc|]. split; [lia|].
      intros d'.
      rewrite (rate_course_written now data user d _ v Hint eq_refl Hc) by lia.
      cbn [final commits value]. eauto.
  - left. exists e. split; [reflexivity|]. unfold rate_course. now rewrite Hint.
Qed.

Lemma complete_course_cases (now : Z) (data : option string) (user : user_row) (d : db) :
  hd_error (users_by_id (user_id user) d) = Some user ->
  (final (complete_course now data user d) = d /\
   commits (complete_course now data user d) = [] /\
   exists status body,
     value (complete_course now data user d) = Ok (Json status body)) \/
  (field data <> "" /\
   completions_of (user_id user) (field data) d = [] /\
   final (complete_course now data user d)
     = mk_db (rewarded (user_id user) (users d))
             (completions d
                ++ [mk_completion (seq_completions d + 1) (user_id user) (field data) now])
             (ratings d) (seq_users d) (seq_completions d + 1) (seq_ratings d) /\
   exists body, value (complete_course now data user d) = Ok (Json 200 body)).
Proof.
  intros Hu.
  destruct (String.eqb (field data) "") eqn:Hc.
  { left. unfold complete_course. rewrite Hc. cbn. unfold error_response. eauto. }
  apply String.eqb_neq in Hc.
  destruct data as [c|]; [cbn [field] in *|now elim Hc].
  destruct (completions_of (user_id user) c d) eqn:Hrows.
  - right. destruct (complete_course_first now d _ user c Hc Hu Hrows) as [-> _].
    cbn [final value]. repeat split; eauto.
  - left. rewrite complete_course_again; [cbn; eauto|exact Hc|].
    rewrite Hrows. discriminate.
Qed.

Lemma view_final (r : request) (d : db) : effect d (final (view r d)).
Proof.
  destruct r as [now salt data|now data|now a|now a data|now a data|now a cat];
    cbn [view].
  - destruct (register_body_cases now salt data d) as [[-> _]|[fields ->]];
      [apply effect_none|].
    destruct (register_cases now salt fields d) as [->|[->|(Hu & He & Hp & Hnone)]];
      try apply effect_none.
    destruct (register_fresh now salt fields d Hu He Hp Hnone) as (-> & _ & _).
    now apply effect_registered.
  - rewrite (proj1 (login_final now data d)). apply effect_none.
  - destruct (guard_cases me a now d) as [->|[->|(user & _ & _ & _ & ->)]];
      [apply effect_none|apply effect_none|].
    rewrite (proj1 (me_final user d)). apply effect_none.
  - destruct (guard_cases (complete_course now data) a now d)
      as [->|[->|(user & Hin & Hu & _ & ->)]]; [apply effect_none|apply effect_none|].
    destruct (complete_course_cases now data user d Hu)
      as [(-> & _)|(Hc & Hnone & -> & _)]; [apply effect_none|].
    now apply effect_completed.
  - destruct (guard_cases (rate_course now data) a now d)
      as [->|[->|(user & Hin & Hu & _ & ->)]]; [apply effect_none|apply effect_none|].
    destruct (rate_course_cases now data user d)
      as [(e & _ & ->)|[->|(v & _ & Hc & Hv & Hfinal & _)]]; try apply effect_none.
    cbv zeta in Hfinal. rewrite Hfinal. now apply effect_rated.
  - rewrite (proj1 (courses_final now a cat d)). apply effect_none.
Qed.

Lemma serve_all_keeps (P : db -> Prop) (rs : list request) (d : db) :
  (forall d1 d2, P d1 -> effect d1 d2 -> P d2) ->
  P d -> P (serve_all rs d).
Proof.
  intros Hstep. revert d. induction rs as [|r rs IH]; intros d Hd; cbn [serve_all];
    [exact Hd|].
  apply IH. unfold serve. cbn [snd]. exact (Hstep _ _ Hd (view_final r d)).
Qed.

(** X2.  One request, one effect.  Whatever the request, the database it
    leaves is the one it found, or that with one user added under a
    stripped username and normalized email nobody had, or with one
    completion added for an existing user whose points rise by 100, or with
    one rating of an existing user written, in 1..5.  So whatever these four
    effects keep, every sequence of requests keeps. *)
Theorem view_effect (r : request) (d : db) :
  effect d (snd (serve (view r) d)) /\
  (forall (P : db -> Prop) (rs : list request),
      (forall d1 d2, P d1 -> effect d1 d2 -> P d2) ->
      P d -> P (serve_all rs d)).
Proof.
  split.
  - unfold serve. cbn [snd]. apply view_final.
  - intros P rs. apply serve_all_keeps.
Qed.

End Effects.

(** ** The schema's constraints hold in every database the program reaches *)

Lemma nodup_snoc {A} (l : list A) (x : A) :
  NoDup l -> ~ In x l -> NoDup (l ++ [x]).
Proof.
  induction l as [|y l IH]; cbn; intros Hnd Hx.
  - constructor; [intros []|constructor].
  - inversion Hnd as [|? ? Hy Hl]; subst. constructor.
    + intros Hin. apply in_app_or in Hin as [Hin|[->|[]]]; [now apply Hy|].
      apply Hx. now left.
    + apply IH; [exact Hl|]. intros Hin. apply Hx. now right.
Qed.

Lemma filter_unique {A K} (key : A -> K) (test : A -> bool) (k : K) (l : list A) :
  (forall x, test x = true -> key x = k) ->
  NoDup (map key l) ->
  (List.length (filter test l) <= 1)%nat.
Proof.
  intros Hkey. induction l as [|x l IH]; cbn; intros Hnd; [lia|].
  inversion Hnd as [|? ? Hx Hl]; subst.
  destruct (test x) eqn:Hx'; [|now apply IH].
  rewrite filter_none; [cbn; lia|].
  intros y Hy. destruct (test y) eqn:Hy'; [|reflexivity].
  elim Hx. rewrite (Hkey x Hx'), <- (Hkey y Hy'). now apply in_map.
Qed.

Lemma filter_nil_none {A} (f : A -> bool) (l : list A) (x : A) :
  filter f l = [] -> In x l -> f x = false.
Proof.
  intros Hnil Hin. destruct (f x) eqn:E; [|reflexivity].
  assert (In x (filter f l)) as H by (apply filter_In; now split).
  rewrite Hnil in H. destruct H.
Qed.

Lemma rewarded_keeps {B} (f : user_row -> B) (uid : Z) (l : list user_row) :
  (forall u p, f (mk_user (user_id u) (username u) (email u) (password_hash u) p
                         (user_created_at u)) = f u) ->
  map f (rewarded uid l) = map f l.
Proof.
  intros Hf. unfold rewarded. rewrite map_map. apply map_ext.
  intros u. destruct (user_id u =? uid); [apply Hf|reflexivity].
Qed.

Lemma rewarded_in (uid : Z) (l : list user_row) (u' : user_row) :
  In u' (rewarded uid l) ->
  exists u, In u l /\ user_id u' = user_id u /\ username u' = username u /\
            email u' = email u /\ password_hash u' = password_hash u /\
            points u <= points u' <= points u + 100.
Proof.
  unfold rewarded. intros Hin. apply in_map_iff in Hin as (u & <- & Hin).
  exists u. split; [exact Hin|]. destruct (user_id u =? uid); cbn; repeat split; lia.
Qed.

Lemma upserted_update_keeps {B} (f : rating_row -> B) (rid v now : Z) (l : list rating_row) :
  (forall r, f (mk_rating (rating_id r) (rating_user r) (rating_course r) v now) = f r) ->
  map f (map (fun r => if rating_id r =? rid
                       then mk_rating (rating_id r) (rating_user r) (rating_course r) v now
                       else r) l) = map f l.
Proof.
  intros Hf. rewrite map_map. apply map_ext.
  intros r. destruct (rating_id r =? rid); [apply Hf|reflexivity].
Qed.

(** Every effect keeps the schema's constraints. *)
Lemma effect_schema (d d' : db) : schema_ok d -> effect d d' -> schema_ok d'.
Proof.
  intros [Huid Hun Hem Hcid Hcp Hrid Hrp Hrng Hui Hci Hri (Hsu & Hsc & Hsr)] Heff.
  destruct Heff as [|rn re h now Hn He Hnone|user c now Hin Hc Hnone|user c v now Hin Hc Hv].
  - now constructor.
  - assert (forall u, In u (users d) ->
                      email u <> lower (strip re) /\ username u <> strip rn) as Hfresh.
    { intros u Hu. pose proof (filter_nil_none _ _ u Hnone Hu) as Hf. cbn in Hf.
      apply orb_false_iff in Hf as [H1 H2]. split; now apply String.eqb_neq. }
    constructor; cbn [users completions ratings seq_users seq_completions seq_ratings];
      try assumption; rewrite ?map_app; cbn [map user_id username email].
    + apply nodup_snoc; [exact Huid|]. intros H. apply in_map_iff in H as (u & Hid & Hu).
      apply Hui in Hu. lia.
    + apply nodup_snoc; [exact Hun|]. intros H. apply in_map_iff in H as (u & Hid & Hu).
      now apply (proj2 (Hfresh u Hu)).
    + apply nodup_snoc; [exact Hem|]. intros H. apply in_map_iff in H as (u & Hid & Hu).
      now apply (proj1 (Hfresh u Hu)).
    + intros u Hu. apply in_app_or in Hu as [Hu|[<-|[]]]; [apply Hui in Hu; lia|].
      cbn. lia.
    + lia.
  - constructor; cbn [users completions ratings seq_users seq_completions seq_ratings];
      try assumption.
    + now rewrite rewarded_keeps.
    + now rewrite rewarded_keeps.
    + now rewrite rewarded_keeps.
    + rewrite map_app. apply nodup_snoc; [exact Hcid|]. cbn.
      intros H. apply in_map_iff in H as (x & Hid & Hx). apply Hci in Hx. lia.
    + rewrite map_app. apply nodup_snoc; [exact Hcp|]. cbn.
      intros H. apply in_map_iff in H as (x & Hpair & Hx).
      pose proof (filter_nil_none _ _ x Hnone Hx) as Hf. cbn in Hf.
      injection Hpair as H1 H2. rewrite H1, H2, Z.eqb_refl, String.eqb_refl in Hf.
      discriminate.
    + intros u Hu. apply rewarded_in in Hu as (u0 & Hu0 & -> & _). now apply Hui.
    + intros x Hx. apply in_app_or in Hx as [Hx|[<-|[]]]; [apply Hci in Hx; lia|].
      cbn. lia.
    + lia.
  - unfold upserted.
    destruct (hd_error (ratings_of (user_id user) c d)) as [e|] eqn:He.
    + constructor; cbn [users completions ratings seq_users seq_completions seq_ratings];
        try assumption.
      * now rewrite upserted_update_keeps.
      * now rewrite (upserted_update_keeps
                       (fun r => (rating_user r, rating_course r))).
      * apply Forall_forall. intros r Hr. apply in_map_iff in Hr as (r0 & <- & Hr0).
        destruct (rating_id r0 =? rating_id e); [exact Hv|].
        exact (proj1 (Forall_forall _ _) Hrng r0 Hr0).
      * intros r Hr. apply in_map_iff in Hr as (r0 & <- & Hr0). apply Hri in Hr0.
        now destruct (rating_id r0 =? rating_id e).
      * lia.
    + assert (ratings_of (user_id user) c d = []) as Hnone
        by (destruct (ratings_of (user_id user) c d); [reflexivity|discriminate]).
      constructor; cbn [users completions ratings seq_users seq_completions seq_ratings];
        try assumption.
      * rewrite map_app. apply nodup_snoc; [exact Hrid|]. cbn.
        intros H. apply in_map_iff in H as (x & Hid & Hx). apply Hri in Hx. lia.
      * rewrite map_app. apply nodup_snoc; [exact Hrp|]. cbn.
        intros H. apply in_map_iff in H as (x & Hpair & Hx).
        pose proof (filter_nil_none _ _ x Hnone Hx) as Hf. cbn in Hf.
        injection Hpair as H1 H2. rewrite H1, H2, Z.eqb_refl, String.eqb_refl in Hf.
        discriminate.
      * apply Forall_app. split; [exact Hrng|]. now repeat constructor.
      * intros x Hx. apply in_app_or in Hx as [Hx|[<-|[]]]; [apply Hri in Hx; lia|].
        cbn. lia.
      * lia.
Qed.

Lemma init_db_schema : schema_ok init_db.
Proof. constructor; cbn; try constructor; try lia; try (intros ? []). Qed.

Section Schema.

Context {L : Library}.

Lemma serve_all_schema (rs : list request) (d : db) :
  schema_ok d -> schema_ok (serve_all rs d).
Proof.
  revert d. induction rs as [|r rs IH]; intros d Hok; cbn [serve_all]; [exact Hok|].
  apply IH. exact (effect_schema _ _ Hok (view_final r d)).
Qed.

(** X4.  The constraints of the schema are never at stake.  Every database
    reached from [init_db] by serving requests satisfies what [db_init.py]
    declares: rowids, usernames and emails are unique, there is at most one
    completion row and at most one rating row per user and course, every
    rating is in 1..5; a user id, an email and a username each select at
    most one user. *)
Theorem schema_kept (rs : list request) :
  let d := serve_all rs init_db in
  schema_ok d /\
  (forall uid c, (List.length (completions_of uid c d) <= 1)%nat) /\
  (forall uid c, rated_at_most_once uid c d) /\
  (forall uid, (List.length (users_by_id uid d) <= 1)%nat) /\
  (forall e, (List.length (users_by_email e d) <= 1)%nat) /\
  (forall r, In r (ratings d) -> 1 <= rating r <= 5).
Proof.
  intros d. pose proof (serve_all_schema rs init_db init_db_schema) as Hok.
  fold d in Hok. split; [exact Hok|].
  destruct Hok as [Huid Hun Hem Hcid Hcp Hrid Hrp Hrng Hui Hci Hri Hs].
  split; [|split; [|split; [|split]]].
  - intros uid c. unfold completions_of.
    apply (filter_unique (fun x => (completion_user x, completion_course x)) _ (uid, c));
      [|exact Hcp].
    intros x Hx. apply andb_true_iff in Hx as [H1 H2].
    apply Z.eqb_eq in H1. apply String.eqb_eq in H2. now subst.
  - intros uid c. unfold rated_at_most_once, ratings_of.
    apply (filter_unique (fun x => (rating_user x, rating_course x)) _ (uid, c));
      [|exact Hrp].
    intros x Hx. apply andb_true_iff in Hx as [H1 H2].
    apply Z.eqb_eq in H1. apply String.eqb_eq in H2. now subst.
  - intros uid. unfold users_by_id.
    apply (filter_unique user_id _ uid); [|exact Huid].
    intros x Hx. now apply Z.eqb_eq.
  - intros e. unfold users_by_email.
    apply (filter_unique email _ e); [|exact Hem].
    intros x Hx. now apply String.eqb_eq.
  - intros r Hr. exact (proj1 (Forall_forall _ _) Hrng r Hr).
Qed.

End Schema.

(** ** Nothing is ever deleted *)

Lemma never_lost_refl (d : db) : never_lost d d.
Proof.
  split; [|split].
  - intros u Hu. exists u. repeat split; [exact Hu|lia].
  - auto.
  - intros r Hr. exists r. now repeat split.
Qed.

Lemma never_lost_trans (d1 d2 d3 : db) :
  never_lost d1 d2 -> never_lost d2 d3 -> never_lost d1 d3.
Proof.
  intros (Hu & Hc & Hr) (Hu' & Hc' & Hr'). split; [|split].
  - intros u Hin. destruct (Hu u Hin) as (u1 & Hin1 & E1 & E2 & E3 & E4 & Hp).
    destruct (Hu' u1 Hin1) as (u2 & Hin2 & F1 & F2 & F3 & F4 & Hp').
    exists u2. split; [exact Hin2|]. repeat split; try congruence. lia.
  - auto.
  - intros r Hin. destruct (Hr r Hin) as (r1 & Hin1 & E1 & E2 & E3).
    destruct (Hr' r1 Hin1) as (r2 & Hin2 & F1 & F2 & F3).
    exists r2. split; [exact Hin2|]. repeat split; congruence.
Qed.

Lemma effect_never_lost (d d' : db) : effect d d' -> never_lost d d'.
Proof.
  intros [|rn re h now Hn He Hnone|user c now Hin Hc Hnone|user c v now Hin Hc Hv].
  - apply never_lost_refl.
  - split; [|split]; cbn [users completions ratings].
    + intros u Hu. exists u. repeat split; [apply in_or_app; now left|lia].
    + auto.
    + intros r Hr. exists r. now repeat split.
  - split; [|split]; cbn [users completions ratings].
    + intros u Hu.
      exists (if user_id u =? user_id user
              then mk_user (user_id u) (username u) (email u) (password_hash u)
                           (points u + 100) (user_created_at u)
              else u).
      split; [unfold rewarded; apply in_map_iff; now exists u|].
      destruct (user_id u =? user_id user); cbn; repeat split; lia.
    + intros x Hx. apply in_or_app. now left.
    + intros r Hr. exists r. now repeat split.
  - unfold upserted. destruct (hd_error _) as [e|];
      (split; [|split]); cbn [users completions ratings]; auto.
    + intros u Hu. exists u. repeat split; [exact Hu|lia].
    + intros r Hr.
      exists (if rating_id r =? rating_id e
              then mk_rating (rating_id r) (rating_user r) (rating_course r) v now
              else r).
      split; [apply in_map_iff; now exists r|].
      now destruct (rating_id r =? rating_id e).
    + intros u Hu. exists u. repeat split; [exact Hu|lia].
    + intros r Hr. exists r. split; [apply in_or_app; now left|now repeat split].
Qed.

Section Kept.

Context {L : Library}.

(** X5.  Nothing is ever deleted or renamed.  Whatever requests are served,
    from whatever database, every user row is still there afterwards with
    the same id, username, email and password hash and at least as many
    points; every completion row is still there unchanged; every rating row
    is still there with the same id, user and course. *)
Theorem rows_never_lost (rs : list request) (d : db) : never_lost d (serve_all rs d).
Proof.
  apply (serve_all_keeps (never_lost d)); [|apply never_lost_refl].
  intros d1 d2 H1 Heff. exact (never_lost_trans _ _ _ H1 (effect_never_lost _ _ Heff)).
Qed.

End Kept.

(** ** Normal forms of usernames and emails *)

Lemma rstrip_idempotent (s : string) : rstrip (rstrip s) = rstrip s.
Proof.
  induction s as [|c s IH]; [reflexivity|]. cbn [rstrip].
  destruct (rstrip s) as [|c' r'] eqn:E.
  - destruct (is_space c) eqn:Hc; [reflexivity|]. cbn. now rewrite Hc.
  - cbn [rstrip] in *. now rewrite IH.
Qed.

Lemma lstrip_head (s : string) :
  lstrip s = EmptyString \/ exists c r, lstrip s = String c r /\ is_space c = false.
Proof.
  induction s as [|c s IH]; cbn; [now left|].
  destruct (is_space c) eqn:Hc; [exact IH|]. right. eauto.
Qed.

Lemma rstrip_head (c : ascii) (r : string) :
  is_space c = false -> exists r', rstrip (String c r) = String c r'.
Proof. intros Hc. cbn. rewrite Hc. destruct (rstrip r); eauto. Qed.

(** [s.strip().strip() == s.strip()] *)
Lemma strip_idempotent (s : string) : strip (strip s) = strip s.
Proof.
  unfold strip. destruct (lstrip_head s) as [->|(c & r & -> & Hc)]; [reflexivity|].
  destruct (rstrip_head c r Hc) as (r' & E). rewrite E. cbn [lstrip]. rewrite Hc, <- E.
  apply rstrip_idempotent.
Qed.

Lemma lower_char_spec (c : ascii) :
  lower_char (lower_char c) = lower_char c /\ is_space (lower_char c) = is_space c.
Proof. destruct c as [[] [] [] [] [] [] [] []]; vm_compute; split; reflexivity. Qed.

Lemma lower_idempotent (s : string) : lower (lower s) = lower s.
Proof.
  induction s as [|c s IH]; cbn; [reflexivity|].
  now rewrite IH, (proj1 (lower_char_spec c)).
Qed.

Lemma lstrip_lower (s : string) : lstrip (lower s) = lower (lstrip s).
Proof.
  induction s as [|c s IH]; cbn; [reflexivity|].
  rewrite (proj2 (lower_char_spec c)). now destruct (is_space c).
Qed.

Lemma rstrip_lower (s : string) : rstrip (lower s) = lower (rstrip s).
Proof.
  induction s as [|c s IH]; cbn [lower rstrip]; [reflexivity|].
  rewrite IH, (proj2 (lower_char_spec c)).
  destruct (rstrip s); cbn [lower]; [now destruct (is_space c)|reflexivity].
Qed.

Lemma strip_lower (s : string) : strip (lower s) = lower (strip s).
Proof. unfold strip. now rewrite lstrip_lower, rstrip_lower. Qed.

(** Normalizing an email twice is normalizing it once. *)
Lemma email_normal_form (s : string) : lower (strip (lower (strip s))) = lower (strip s).
Proof. now rewrite strip_lower, lower_idempotent, strip_idempotent. Qed.

Section Normalized.

Context {L : Library}.

(** X6.  Stored identities are in normal form.  In every database reached
    from [init_db], each user's username is non-empty and is its own
    [strip], and each email is non-empty and is its own stripped lower-case
    form: so the lookups of [register] and [login], which normalize what
    they are given, compare like with like. *)
Theorem identities_normalized (rs : list request) (u : user_row) :
  In u (users (serve_all rs init_db)) ->
  username u <> "" /\ strip (username u) = username u /\
  email u <> "" /\ lower (strip (email u)) = email u.
Proof.
  revert u.
  apply (serve_all_keeps
           (fun d => forall u, In u (users d) ->
                               username u <> "" /\ strip (username u) = username u /\
                               email u <> "" /\ lower (strip (email u)) = email u));
    [|intros u []].
  intros d1 d2 H1 [|rn re h now Hn He Hnone|user c now Hin Hc Hnone|user c v now Hin Hc Hv];
    cbn [users].
  - exact H1.
  - intros u Hu. apply in_app_or in Hu as [Hu|[<-|[]]]; [now apply H1|].
    cbn [username email]. split; [exact Hn|]. split; [apply strip_idempotent|].
    split; [exact He|apply email_normal_form].
  - intros u Hu. apply rewarded_in in Hu as (u0 & Hu0 & _ & -> & -> & _). now apply H1.
  - unfold upserted. destruct (hd_error _); exact H1.
Qed.

End Normalized.

Lemma identities_normalized_witness :
  username demo_ann <> "" /\ strip (username demo_ann) = username demo_ann /\
  email demo_ann <> "" /\ lower (strip (email demo_ann)) = email demo_ann.
Proof.
  apply (@identities_normalized demo_library
           [Register 1000 "s" (register_json " ann " "Ann@Example.org" "secret1")]).
  vm_compute. now left.
Defined.

(** ** The aggregate of a course *)

Lemma sum_ratings_bounds (l : list rating_row) :
  Forall (fun r => 1 <= rating r <= 5) l ->
  Z.of_nat (List.length l) <= sum_ratings l <= 5 * Z.of_nat (List.length l).
Proof.
  induction 1 as [|r l Hr Hl IH]; [cbn; lia|].
  cbn [sum_ratings fold_right List.length]. fold (sum_ratings l). lia.
Qed.

Lemma rating_aggregate_bounds (c : string) (d : db) :
  Forall (fun r => 1 <= rating r <= 5) (ratings d) ->
  match rating_aggregate c d with
  | (None, n) => n = 0 /\ ratings_of_course c d = []
  | (Some q, n) =>
      1 <= n /\ n = Z.of_nat (List.length (ratings_of_course c d)) /\
      (1 <= q)%Q /\ (q <= 5)%Q
  end.
Proof.
  intros Hrng. unfold rating_aggregate.
  assert (Forall (fun r => 1 <= rating r <= 5) (ratings_of_course c d)) as Hrows.
  { apply Forall_forall. intros r Hr. apply filter_In in Hr as [Hr _].
    exact (proj1 (Forall_forall _ _) Hrng r Hr). }
  destruct (ratings_of_course c d) as [|r l] eqn:E; [now split|].
  pose proof (sum_ratings_bounds _ Hrows) as Hsum.
  set (rows := r :: l) in *.
  assert (Z.pos (Pos.of_nat (List.length rows)) = Z.of_nat (List.length rows)) as Hpos.
  { rewrite <- positive_nat_Z, Nat2Pos.id; [reflexivity|discriminate]. }
  assert (1 <= Z.of_nat (List.length rows)) as Hlen by (cbn [rows List.length]; lia).
  split; [exact Hlen|]. split; [reflexivity|].
  split; rewrite Qred_correct; unfold Qle; cbn [Qnum Qden]; rewrite Hpos; lia.
Qed.

Section Aggregate.

Context {L : Library}.

(** X7.  The aggregate a listing or a rating reports.  In every database
    reached from [init_db], the aggregate of a course is either no average
    with count 0, when the course has no rating row, or an average between 1
    and 5 with a positive count, the number of its rating rows. *)
Theorem aggregate_in_range (rs : list request) (c : string) :
  match rating_aggregate c (serve_all rs init_db) with
  | (None, n) => n = 0 /\ ratings_of_course c (serve_all rs init_db) = []
  | (Some q, n) =>
      1 <= n /\ n = Z.of_nat (List.length (ratings_of_course c (serve_all rs init_db))) /\
      (1 <= q)%Q /\ (q <= 5)%Q
  end.
Proof.
  apply rating_aggregate_bounds.
  exact (ratings_in_range _ (serve_all_schema rs init_db init_db_schema)).
Qed.

End Aggregate.

(** ** What a rating leaves alone *)

Lemma nodup_map_injective {A B} (f : A -> B) (l : list A) (x y : A) :
  NoDup (map f l) -> In x l -> In y l -> f x = f y -> x = y.
Proof.
  induction l as [|z l IH]; cbn; intros Hnd Hx Hy Hf; [destruct Hx|].
  inversion Hnd as [|? ? Hz Hl]; subst.
  destruct Hx as [->|Hx], Hy as [->|Hy]; try reflexivity.
  - elim Hz. rewrite Hf. now apply in_map.
  - elim Hz. rewrite <- Hf. now apply in_map.
  - now apply IH.
Qed.

Lemma filter_map_fixed {A} (f : A -> bool) (g : A -> A) (l : list A) :
  (forall x, In x l -> f (g x) = f x) ->
  (forall x, In x l -> f x = true -> g x = x) ->
  filter f (map g l) = filter f l.
Proof.
  induction l as [|x l IH]; cbn; intros H1 H2; [reflexivity|].
  rewrite (H1 x) by now left.
  destruct (f x) eqn:E.
  - rewrite (H2 x) by auto. f_equal. apply IH; auto.
  - apply IH; auto.
Qed.

(** The write of a rating touches no row of another user or course. *)
Lemma upserted_frame (uid : Z) (c : string) (v now : Z) (d : db) (uid' : Z) (c' : string) :
  NoDup (map rating_id (ratings d)) ->
  (uid', c') <> (uid, c) ->
  ratings_of uid' c' (upserted uid c v now d) = ratings_of uid' c' d.
Proof.
  intros Hnd Hother. unfold upserted.
  destruct (hd_error (ratings_of uid c d)) as [e|] eqn:He.
  - destruct (hd_error_filter_some _ _ _ He) as [Hin Hpair].
    apply andb_true_iff in Hpair as [Hu Hc].
    apply Z.eqb_eq in Hu. apply String.eqb_eq in Hc.
    unfold ratings_of. cbn [ratings]. apply filter_map_fixed.
    + intros r _. now destruct (rating_id r =? rating_id e).
    + intros r Hr Hpair'. destruct (rating_id r =? rating_id e) eqn:Hid; [|reflexivity].
      apply Z.eqb_eq in Hid.
      assert (r = e) as -> by exact (nodup_map_injective rating_id _ r e Hnd Hr Hin Hid).
      apply andb_true_iff in Hpair' as [Hu' Hc'].
      apply Z.eqb_eq in Hu'. apply String.eqb_eq in Hc'.
      elim Hother. congruence.
  - unfold ratings_of. cbn [ratings]. rewrite filter_app. cbn.
    destruct (uid =? uid') eqn:Hu; cbn; [|now rewrite app_nil_r].
    destruct (String.eqb c c') eqn:Hc; [|now rewrite app_nil_r].
    apply Z.eqb_eq in Hu. apply String.eqb_eq in Hc. elim Hother. congruence.
Qed.

Section RatingFrame.

Context {L : Library}.

(** X8.  A rating touches one row.  In a database reached from [init_db],
    whatever its body, a [rate_course] request of a user leaves the users
    and the completions as they were, and leaves the rating rows of every
    other user and of every other course exactly as they were. *)
Theorem rate_course_frame (rs : list request) (now : Z) (data : rate_data)
    (user : user_row) (uid' : Z) (c' : string) :
  let d := serve_all rs init_db in
  let d' := final (rate_course now data user d) in
  users d' = users d /\ completions d' = completions d /\
  ((uid', c') <> (user_id user, field (rate_course_id data)) ->
   ratings_of uid' c' d' = ratings_of uid' c' d).
Proof.
  intros d d'.
  destruct (rate_course_ledger now data user d) as (Hu & Hc & _).
  split; [exact Hu|]. split; [exact Hc|]. intros Hother. unfold d'.
  destruct (rate_course_cases now data user d)
    as [(e & _ & ->)|[->|(v & _ & _ & _ & Hfinal & _)]]; try reflexivity.
  cbv zeta in Hfinal. rewrite Hfinal. apply upserted_frame; [|exact Hother].
  exact (unique_rating_ids _ (serve_all_schema rs init_db init_db_schema)).
Qed.

End RatingFrame.

(** ** Logging in, and the token of a registration *)

Lemma users_by_id_new (d : db) (new : user_row) (cs : list completion_row)
    (rts : list rating_row) (s1 s2 s3 : Z) :
  (forall u, In u (users d) -> user_id u <> user_id new) ->
  hd_error (users_by_id (user_id new) (mk_db (users d ++ [new]) cs rts s1 s2 s3)) = Some new.
Proof.
  intros Hfresh. unfold users_by_id. cbn [users]. rewrite filter_app.
  rewrite filter_none by (intros u Hu; apply Z.eqb_neq; now apply Hfresh).
  cbn. now rewrite Z.eqb_refl.
Qed.

Lemma users_by_email_new (d : db) (new : user_row) (n : string) (cs : list completion_row)
    (rts : list rating_row) (s1 s2 s3 : Z) :
  users_by_email_or_username (email new) n d = [] ->
  hd_error (users_by_email (email new) (mk_db (users d ++ [new]) cs rts s1 s2 s3))
  = Some new.
Proof.
  intros Hnone. unfold users_by_email. cbn [users]. rewrite filter_app.
  rewrite filter_none.
  - cbn. now rewrite String.eqb_refl.
  - intros u Hu. pose proof (filter_nil_none _ _ u Hnone Hu) as Hf. cbn in Hf.
    now apply orb_false_iff in Hf as [Hf _].
Qed.

Section LoggedIn.

Context {L : Library}.

Hypothesis base64url_roundtrip :
  forall s, base64url_decode (base64url_encode s) = Some s.
Hypothesis base64url_no_stop :
  forall s, split_first "." (base64url_encode s) = None.
Hypothesis json_header_roundtrip :
  json_loads (json_dumps jwt_header) = Some jwt_header.
Hypothesis json_payload_roundtrip :
  forall sub exp,
    json_loads (json_dumps (JObj [("sub", JStr sub); ("exp", JInt exp)]))
    = Some (JObj [("sub", JStr sub); ("exp", JInt exp)]).

Lemma fresh_token_verifies (now uid t : Z) :
  t < now + 604800 ->
  verify_token t (make_token now uid default_expires_minutes) = Ok (Some uid).
Proof.
  intros Ht.
  rewrite (verify_make_token base64url_roundtrip base64url_no_stop
             json_header_roundtrip json_payload_roundtrip).
  unfold default_expires_minutes.
  replace (_ <=? t) with false by (symmetry; apply Z.leb_gt; lia). reflexivity.
Qed.

Lemma login_accepts (now : Z) (data : login_data) (d : db) (u : user_row) :
  lower (strip (field (login_email data))) <> "" ->
  field (login_password data) <> "" ->
  hd_error (users_by_email (lower (strip (field (login_email data)))) d) = Some u ->
  check_password_hash (password_hash u) (field (login_password data)) = true ->
  login_text now data d =
    mk_outcome
      (Ok (Json 200 (JObj [("token",
                            JStr (make_token now (user_id u) default_expires_minutes));
                           ("user", user_dict u)])))
      d [].
Proof.
  intros He Hp Hu Hcheck. apply String.eqb_neq in He, Hp. unfold login_text.
  rewrite He, Hp. cbn [orb]. rewrite bind_query_db_one, Hu, Hcheck. reflexivity.
Qed.

(** X9.  A successful login.  For non-empty credentials whose normalized
    email finds a user and whose password Werkzeug accepts against the
    stored hash, [login] answers 200 with the user's id, username, email and
    points (and no [password_hash]) and a token that verifies to the user's
    id for the next seven days; it writes nothing. *)
Theorem login_success (now : Z) (data : login_data) (d : db) (u : user_row) :
  lower (strip (field (login_email data))) <> "" ->
  field (login_password data) <> "" ->
  hd_error (users_by_email (lower (strip (field (login_email data)))) d) = Some u ->
  check_password_hash (password_hash u) (field (login_password data)) = true ->
  exists token,
    login now (login_body data) d =
      mk_outcome
        (Ok (Json 200 (JObj [("token", JStr token);
                             ("user", JObj [("id", JInt (user_id u));
                                            ("username", JStr (username u));
                                            ("email", JStr (email u));
                                            ("points", JInt (points u))])])))
        d [] /\
    (forall t, t < now + 604800 -> verify_token t token = Ok (Some (user_id u))) /\
    (forall t, now + 604800 <= t -> verify_token t token = Ok None).
Proof.
  intros He Hp Hu Hcheck. eexists. split; [|split].
  - rewrite login_on_text. now apply login_accepts.
  - intros t Ht. now apply fresh_token_verifies.
  - intros t Ht.
    rewrite (verify_make_token base64url_roundtrip base64url_no_stop
               json_header_roundtrip json_payload_roundtrip).
    unfold default_expires_minutes.
    replace (_ <=? t) with true by (symmetry; apply Z.leb_le; lia). reflexivity.
Qed.

(** X10.  The token of a registration opens the guard.  After a valid
    registration of a new identity, on a database whose user ids were
    handed out by AUTOINCREMENT, the token of the response, sent as
    [Authorization: Bearer <token>] within seven days, makes
    [auth_required] run any view function with the row just inserted. *)
Theorem register_then_authorized (now : Z) (salt : string) (data : register_data)
    (d : db) :
  strip (field (data_username data)) <> "" ->
  lower (strip (field (data_email data))) <> "" ->
  (6 <= String.length (field (data_password data)))%nat ->
  users_by_email_or_username (lower (strip (field (data_email data))))
    (strip (field (data_username data))) d = [] ->
  ids_issued d ->
  exists token new,
    value (register now salt (register_body data) d)
      = Ok (Json 200 (JObj [("token", JStr token); ("user", user_dict new)])) /\
    In new (users (final (register now salt (register_body data) d))) /\
    forall (fn : user_row -> M response) (t : Z),
      t < now + 604800 ->
      auth_required fn (Some ("Bearer " ++ token)%string) t
        (final (register now salt (register_body data) d))
      = fn new (final (register now salt (register_body data) d)).
Proof.
  intros Hu He Hp Hnone (Hids & _ & Hseq).
  destruct (register_fresh now salt data d Hu He Hp Hnone) as (Hfinal & _ & Hvalue).
  rewrite register_on_text, Hfinal, Hvalue by (intros u Hin; apply Hids in Hin; lia).
  eexists _, _. split; [reflexivity|]. split.
  - cbn [users]. apply in_or_app. right. now left.
  - intros fn t Ht.
    match goal with
    | |- _ = fn ?n _ => set (new := n)
    end.
    apply (guard_accepts fn _ t _ (user_id new) new).
    + eexists. split; [reflexivity|]. split.
      * now apply fresh_token_verifies.
      * cbn. lia.
    + apply users_by_id_new. intros u Hin. apply Hids in Hin. cbn. lia.
Qed.

End LoggedIn.

Section RegisterLogin.

Context {L : Library}.

(** Werkzeug's contract: a password checks against its own hash. *)
Hypothesis password_hash_checks :
  forall salt password,
    check_password_hash (generate_password_hash salt password) password = true.

(** X11.  Register, then log in.  After a valid registration of a new
    identity, a login with the same password and an email that normalizes
    to the registered one (whatever its case and surrounding blanks) is
    answered 200 with the new user's record and a token issued for the new
    id; the login writes nothing. *)
Theorem register_then_login (now : Z) (salt : string) (data : register_data) (d : db)
    (now2 : Z) (data2 : login_data) :
  strip (field (data_username data)) <> "" ->
  lower (strip (field (data_email data))) <> "" ->
  (6 <= String.length (field (data_password data)))%nat ->
  users_by_email_or_username (lower (strip (field (data_email data))))
    (strip (field (data_username data))) d = [] ->
  lower (strip (field (login_email data2))) = lower (strip (field (data_email data))) ->
  field (login_password data2) = field (data_password data) ->
  let d1 := final (register now salt (register_body data) d) in
  login now2 (login_body data2) d1 =
    mk_outcome
      (Ok (Json 200 (JObj [("token",
                            JStr (make_token now2 (seq_users d + 1)
                                    default_expires_minutes));
                           ("user",
                            JObj [("id", JInt (seq_users d + 1));
                                  ("username", JStr (strip (field (data_username data))));
                                  ("email",
                                   JStr (lower (strip (field (data_email data)))));
                                  ("points", JInt 0)])])))
      d1 [].
Proof.
  intros Hu He Hp Hnone Hemail Hpw d1.
  destruct (register_fresh now salt data d Hu He Hp Hnone) as (Hfinal & _ & _).
  subst d1. rewrite register_on_text, Hfinal, login_on_text.
  match goal with
  | |- login_text _ _ (mk_db (_ ++ [?n]) _ _ _ _ _) = _ => set (new := n)
  end.
  rewrite (login_accepts now2 data2 _ new).
  - reflexivity.
  - now rewrite Hemail.
  - rewrite Hpw. intros E. rewrite E in Hp. cbn in Hp. lia.
  - rewrite Hemail.
    exact (users_by_email_new d new (strip (field (data_username data))) _ _ _ _ _ Hnone).
  - rewrite Hpw. apply password_hash_checks.
Qed.

End RegisterLogin.

Lemma login_success_witness :
  exists token,
    @login demo_library 2000 (login_json " Ann@Example.org" "secret1")
       demo_db
      = mk_outcome
          (Ok (Json 200 (JObj [("token", JStr token);
                               ("user", JObj [("id", JInt 1); ("username", JStr "ann");
                                              ("email", JStr "ann@example.org");
                                              ("points", JInt 0)])])))
          demo_db [] /\
    @verify_token demo_library 3000 token = Ok (Some 1).
Proof.
  destruct (@login_success demo_library demo_b64_roundtrip demo_b64_no_stop eq_refl
              demo_json_payload 2000
              (mk_login_data (Some " Ann@Example.org") (Some "secret1")) demo_db demo_ann)
    as (token & Hlogin & Hverify & _); try discriminate; try reflexivity.
  exists token. split; [exact Hlogin|]. apply Hverify. lia.
Defined.

Lemma register_then_authorized_witness :
  exists token new,
    value (@register demo_library 2000 "t"
             (register_json "bob" "bob@example.org" "hunter22") demo_db)
      = Ok (Json 200 (JObj [("token", JStr token); ("user", user_dict new)])) /\
    user_id new = 2 /\
    @auth_required demo_library me (Some ("Bearer " ++ token)%string) 5000
      (final (@register demo_library 2000 "t"
                (register_json "bob" "bob@example.org" "hunter22") demo_db))
    = me new
        (final (@register demo_library 2000 "t"
                  (register_json "bob" "bob@example.org" "hunter22") demo_db)).
Proof.
  destruct (@register_then_authorized demo_library demo_b64_roundtrip demo_b64_no_stop
              eq_refl demo_json_payload 2000 "t"
              (mk_register_data (Some "bob") (Some "bob@example.org") (Some "hunter22"))
              demo_db)
    as (token & new & Hvalue & Hin & Hauth).
  - discriminate.
  - discriminate.
  - cbn. lia.
  - reflexivity.
  - split; [|split]; cbn; [intros u [<-|[]]; cbn; lia|intros c []|lia].
  - exists token, new. split; [exact Hvalue|]. split.
    + pose proof Hvalue as Hv. vm_compute in Hv. injection Hv as _ Hid _ _ _.
      destruct new. cbn in *. congruence.
    + apply Hauth. lia.
Defined.

Lemma demo_unsalted_checks (salt password : string) :
  @check_password_hash demo_unsalted (@generate_password_hash demo_unsalted salt password)
    password = true.
Proof. cbn. apply String.eqb_refl. Qed.

Lemma register_then_login_witness :
  exists token,
    @login demo_unsalted 3000 (login_json "BOB@example.org " "hunter22")
      (final (@register demo_unsalted 2000 "t"
                (register_json "bob" "Bob@Example.org" "hunter22") demo_db))
    = mk_outcome
        (Ok (Json 200 (JObj [("token", JStr token);
                             ("user", JObj [("id", JInt 2); ("username", JStr "bob");
                                            ("email", JStr "bob@example.org");
                                            ("points", JInt 0)])])))
        (final (@register demo_unsalted 2000 "t"
                  (register_json "bob" "Bob@Example.org" "hunter22") demo_db)) [].
Proof.
  eexists.
  apply (@register_then_login demo_unsalted demo_unsalted_checks 2000 "t"
           (mk_register_data (Some "bob") (Some "Bob@Example.org") (Some "hunter22"))
           demo_db 3000 (mk_login_data (Some "BOB@example.org ") (Some "hunter22")));
    try discriminate; try reflexivity.
  cbn. lia.
Defined.

(** After the write the course has a rating row. *)
Lemma upserted_rows_nonempty (uid : Z) (c : string) (v now : Z) (d : db) :
  exists row rest, ratings_of_course c (upserted uid c v now d) = row :: rest.
Proof.
  unfold upserted.
  destruct (hd_error (ratings_of uid c d)) as [e|] eqn:He.
  - destruct (hd_error_filter_some _ _ _ He) as [Hin Hpair].
    apply andb_true_iff in Hpair as [_ Hc].
    unfold ratings_of_course. cbn [ratings].
    rewrite filter_map_id by (intros x; now destruct (rating_id x =? rating_id e)).
    destruct (filter _ (ratings d)) as [|row rest] eqn:E; [|cbn; eauto].
    pose proof (filter_nil_none _ _ e E Hin) as Hf. cbn in Hf. congruence.
  - unfold ratings_of_course. cbn [ratings]. rewrite filter_app. cbn.
    rewrite String.eqb_refl.
    destruct (filter _ (ratings d)); cbn; eauto.
Qed.

(** ** The subject of a token *)

(** X12.  The subject round trip.  [make_token] writes the user id as
    [str(user_id)] and [verify_token] reads it back with [int]: for every
    integer the conversion gives the id back, and two ids never share a
    subject. *)
Theorem subject_round_trip (n m : Z) :
  py_int (JStr (str_of_int n)) = Ok n /\
  (str_of_int n = str_of_int m -> n = m).
Proof.
  split.
  - cbn [py_int]. now rewrite int_of_string_str_of_int.
  - intros H. apply (f_equal int_of_string) in H.
    rewrite !int_of_string_str_of_int in H. congruence.
Qed.

(** ** What a listing shows *)

Section Merge.

Context {L : Library}.

(** The records of a listing, against the catalog. *)
Lemma courses_records (now : Z) (authorization : option string) (catalog : list course)
    (d : db) :
  (forall uid, valid_bearer now authorization uid -> bindable uid = true) ->
  exists out,
    courses now authorization catalog d
      = mk_outcome (Ok (Json 200 (JList (map JObj out)))) d [] /\
    Forall2 (fun c o =>
               dict_get "avg_rating" o
               = Some (json_of_average (fst (rating_aggregate (course_id c) d))) /\
               dict_get "rating_count" o
               = Some (JInt (snd (rating_aggregate (course_id c) d))) /\
               forall k, k <> "avg_rating" -> k <> "rating_count" -> k <> "completed" ->
                         dict_get k o = dict_get k (course_dict c))
            catalog out.
Proof.
  intros Hrange.
  destruct (bearer_cases now authorization) as [(uid & Hval & _)|(Hno & _)].
  - rewrite (courses_personal now authorization catalog d uid Hval (Hrange uid Hval)).
    eexists. split; [reflexivity|].
    induction catalog as [|c l IH]; cbn [map]; constructor; [|exact IH].
    split; [|split].
    + rewrite dict_get_set_other, dict_get_set_other, dict_get_set_same by discriminate.
      reflexivity.
    + rewrite dict_get_set_other, dict_get_set_same by discriminate. reflexivity.
    + intros k K1 K2 K3. now rewrite !dict_get_set_other by assumption.
  - rewrite (courses_anonymous now authorization catalog d Hno).
    eexists. split; [reflexivity|].
    induction catalog as [|c l IH]; cbn [map]; constructor; [|exact IH].
    split; [|split].
    + rewrite dict_get_set_other, dict_get_set_same by discriminate. reflexivity.
    + now rewrite dict_get_set_same.
    + intros k K1 K2 K3. now rewrite !dict_get_set_other by assumption.
Qed.

(** X13.  The merge of a listing.  Whatever the [Authorization] header,
    unless it is an accepted bearer token of a user id outside signed 64
    bits (which SQLite cannot bind), [courses] answers 200 with one record
    per catalog course, in catalog order (none for an empty or unreadable
    catalog); each record carries the course's current average (null when it
    has no rating) as [avg_rating] and its number of ratings as
    [rating_count], and every other catalog key but [completed] with the
    value the catalog gives it. *)
Theorem courses_merge (now : Z) (authorization : option string) (catalog : list course)
    (d : db) :
  (forall uid, valid_bearer now authorization uid -> bindable uid = true) ->
  exists out,
    serve (courses now authorization catalog) d = (Json 200 (JList (map JObj out)), d) /\
    List.length out = List.length catalog /\
    Forall2 (fun c o =>
               dict_get "id" o = Some (JStr (course_id c)) /\
               dict_get "avg_rating" o
               = Some (json_of_average (fst (rating_aggregate (course_id c) d))) /\
               dict_get "rating_count" o
               = Some (JInt (snd (rating_aggregate (course_id c) d))) /\
               forall k, k <> "avg_rating" -> k <> "rating_count" -> k <> "completed" ->
                         dict_get k o = dict_get k (course_dict c))
            catalog out.
Proof.
  intros Hrange.
  destruct (courses_records now authorization catalog d Hrange) as (out & Hrun & Hall).
  exists out. split; [unfold serve; now rewrite Hrun|].
  split; [symmetry; exact (Forall2_length Hall)|]. clear Hrun.
  induction Hall as [|c o cs os (Havg & Hcount & Hrest) Hall IH]; [constructor|].
  constructor; [|exact IH].
  split; [|auto]. rewrite Hrest by discriminate. unfold course_dict. cbn. reflexivity.
Qed.

(** X14.  A rating shows in the next listing.  When [rate_course] accepts a
    rating, the average and count of its response are the [avg_rating] and
    [rating_count] that a listing served right after shows for that course,
    whoever asks (short of an accepted bearer token of a user id outside
    signed 64 bits, which SQLite cannot bind). *)
Theorem rate_then_listing (now : Z) (data : rate_data) (user : user_row) (d : db) (v : Z)
    (now' : Z) (authorization : option string) (catalog : list course) :
  py_int (py_or (rate_rating data) (JInt 0)) = Ok v ->
  field (rate_course_id data) <> "" ->
  1 <= v <= 5 ->
  (forall uid, valid_bearer now' authorization uid -> bindable uid = true) ->
  exists average count out,
    value (rate_course now data user d)
      = Ok (Json 200 (JObj [("message", JStr "Rating saved"); ("average", average);
                            ("count", JInt count)])) /\
    1 <= count /\
    value (courses now' authorization catalog (final (rate_course now data user d)))
      = Ok (Json 200 (JList (map JObj out))) /\
    Forall2 (fun c o =>
               course_id c = field (rate_course_id data) ->
               dict_get "avg_rating" o = Some average /\
               dict_get "rating_count" o = Some (JInt count))
            catalog out.
Proof.
  intros Hint Hc Hv Hrange.
  rewrite (rate_course_written now data user d _ v Hint eq_refl Hc Hv).
  cbn [value final].
  set (d' := upserted (user_id user) (field (rate_course_id data)) v now d).
  destruct (courses_records now' authorization catalog d' Hrange) as (out & Hrun & Hall).
  eexists _, _, out. split; [reflexivity|]. split; [|split].
  - destruct (upserted_rows_nonempty (user_id user) (field (rate_course_id data)) v now d)
      as (row & rest & Hrows).
    unfold rating_aggregate, d'. rewrite Hrows. cbn [snd List.length]. lia.
  - now rewrite Hrun.
  - clear Hrun.
    induction Hall as [|c o cs os (Havg & Hcount & _) Hall IH]; [constructor|].
    constructor; [|exact IH].
    intros <-. now split.
Qed.

End Merge.

Lemma courses_merge_witness :
  exists out,
    serve (@courses demo_library 2000 (Some ("Bearer " ++ demo_token)%string) demo_catalog)
      demo_db
    = (Json 200 (JList (map JObj out)), demo_db) /\
    List.length out = List.length demo_catalog.
Proof.
  destruct (@courses_merge demo_library 2000 (Some ("Bearer " ++ demo_token)%string)
              demo_catalog demo_db) as (out & Hrun & Hlen & _).
  - intros uid Hval.
    assert (@valid_bearer demo_library 2000 (Some ("Bearer " ++ demo_token)%string) 1)
      as Hone.
    { exists demo_token. split; [reflexivity|].
      split; [vm_compute; reflexivity|discriminate]. }
    now rewrite (valid_bearer_unique _ _ _ _ Hval Hone).
  - exists out. split; [exact Hrun|exact Hlen].
Defined.

Lemma rate_then_listing_witness :
  exists average count out,
    value (rate_course 3000 (mk_rate_data (Some "c1") (JStr " 4 ")) demo_ann demo_db)
      = Ok (Json 200 (JObj [("message", JStr "Rating saved"); ("average", average);
                            ("count", JInt count)])) /\
    value (@courses demo_library 4000 None demo_catalog
             (final (rate_course 3000 (mk_rate_data (Some "c1") (JStr " 4 ")) demo_ann
                       demo_db)))
      = Ok (Json 200 (JList (map JObj out))) /\
    Forall2 (fun c o =>
               course_id c = "c1" ->
               dict_get "avg_rating" o = Some average /\
               dict_get "rating_count" o = Some (JInt count))
            demo_catalog out.
Proof.
  destruct (@rate_then_listing demo_library 3000 (mk_rate_data (Some "c1") (JStr " 4 "))
              demo_ann demo_db 4 4000 None demo_catalog)
    as (average & count & out & Hrate & _ & Hlist & Hall);
    [reflexivity|discriminate|lia|intros uid (t & Ht & _); discriminate Ht|].
  exists average, count, out. split; [exact Hrate|]. split; [exact Hlist|exact Hall].
Defined.

Lemma rate_course_frame_witness :
  ratings_of 1 "c2"
    (final (rate_course 3000 (mk_rate_data (Some "c1") (JInt 4)) demo_ann
              (@serve_all demo_library
                 [Register 1000 "s" (register_json "ann" "ann@example.org" "secret1")] init_db)))
  = ratings_of 1 "c2"
      (@serve_all demo_library
         [Register 1000 "s" (register_json "ann" "ann@example.org" "secret1")] init_db).
Proof.
  apply (@rate_course_frame demo_library
           [Register 1000 "s" (register_json "ann" "ann@example.org" "secret1")]
           3000 (mk_rate_data (Some "c1") (JInt 4)) demo_ann 1 "c2").
  discriminate.
Defined.

(** ** What a completion leaves alone, and what writes nothing *)

Lemma rewarded_others (uid : Z) (l : list user_row) (u : user_row) :
  user_id u <> uid -> (In u (rewarded uid l) <-> In u l).
Proof.
  intros Hu. unfold rewarded. rewrite in_map_iff. split.
  - intros (u0 & E & Hin). destruct (user_id u0 =? uid) eqn:Hid.
    + apply Z.eqb_eq in Hid. subst u. cbn in Hu. congruence.
    + now subst u0.
  - intros Hin. exists u. split; [|exact Hin].
    apply Z.eqb_neq in Hu. now rewrite Hu.
Qed.

(** X15.  A completion touches one user and one pair.  A
    [complete_course] request of the user the guard loaded leaves the
    ratings as they were, adds or removes no user, leaves the rows of every
    other user as they were, and leaves the completion rows of every other
    user and of every other course as they were. *)
Theorem complete_course_frame (now : Z) (data : option string) (user : user_row) (d : db) :
  hd_error (users_by_id (user_id user) d) = Some user ->
  let d' := final (complete_course now data user d) in
  ratings d' = ratings d /\
  List.length (users d') = List.length (users d) /\
  (forall u, user_id u <> user_id user -> (In u (users d') <-> In u (users d))) /\
  (forall uid' c',
      (uid', c') <> (user_id user, field data) ->
      completions_of uid' c' d' = completions_of uid' c' d).
Proof.
  intros Hu d'. unfold d'.
  destruct (complete_course_cases now data user d Hu)
    as [(-> & _)|(_ & _ & -> & _)].
  - repeat split; auto.
  - cbn [users completions ratings]. split; [reflexivity|]. split; [|split].
    + unfold rewarded. apply length_map.
    + intros u Hid. now apply rewarded_others.
    + intros uid' c' Hother. unfold completions_of. cbn [completions].
      rewrite filter_app. cbn.
      destruct (user_id user =? uid') eqn:E1; cbn; [|apply app_nil_r].
      destruct (String.eqb (field data) c') eqn:E2; [|apply app_nil_r].
      apply Z.eqb_eq in E1. apply String.eqb_eq in E2. elim Hother. congruence.
Qed.

Lemma complete_course_frame_witness :
  hd_error (users_by_id 1 demo_db) = Some demo_ann /\
  completions_of 1 "c2" (final (complete_course 2000 (Some "c1") demo_ann demo_db))
  = completions_of 1 "c2" demo_db.
Proof.
  assert (hd_error (users_by_id (user_id demo_ann) demo_db) = Some demo_ann) as H
    by reflexivity.
  split; [exact H|].
  apply (complete_course_frame 2000 (Some "c1") demo_ann demo_db H). discriminate.
Defined.

Section ReadOnly.

Context {L : Library}.

(** X16.  What writes nothing.  [login], [me] and [courses] requests never
    write; neither does a [complete_course] without a course id or for a
    course already completed, nor a [rate_course] whose rating does not
    convert, converts outside 1..5, or comes without a course id. *)
Theorem reads_write_nothing (now : Z) (authorization : option string) (d : db) :
  (forall data, serve_all [Login now data] d = d /\ commits (login now data d) = []) /\
  (serve_all [Me now authorization] d = d /\
   commits (view (Me now authorization) d) = []) /\
  (forall catalog,
      serve_all [Courses now authorization catalog] d = d /\
      commits (courses now authorization catalog d) = []) /\
  (forall data user,
      field data = "" \/ completions_of (user_id user) (field data) d <> [] ->
      final (complete_course now data user d) = d /\
      commits (complete_course now data user d) = []) /\
  (forall data user,
      (forall v, py_int (py_or (rate_rating data) (JInt 0)) = Ok v ->
                 field (rate_course_id data) = "" \/ v < 1 \/ 5 < v) ->
      final (rate_course now data user d) = d /\
      commits (rate_course now data user d) = []).
Proof.
  split; [|split; [|split; [|split]]].
  - intros data. cbn. exact (login_final now data d).
  - cbn [serve_all view]. unfold serve. cbn [snd].
    destruct (guard_cases me authorization now d) as [->|[->|(user & _ & _ & _ & ->)]];
      [now split|now split|apply me_final].
  - intros catalog. cbn. exact (courses_final now authorization catalog d).
  - intros data user [Hc|Hdone].
    + unfold complete_course. rewrite Hc. now split.
    + destruct (String.eqb (field data) "") eqn:Hc.
      * unfold complete_course. rewrite Hc. now split.
      * apply String.eqb_neq in Hc. destruct data as [c|]; [|now elim Hc].
        now rewrite (complete_course_again now d user c Hc Hdone).
  - intros data user Hbad.
    destruct (rate_course_cases now data user d)
      as [(e & _ & ->)|[->|(v & Hint & Hc & Hv & _)]]; try now split.
    destruct (Hbad v Hint) as [H|H]; [now elim Hc|lia].
Qed.

End ReadOnly.

Lemma reads_write_nothing_witness :
  final (complete_course 2000 None demo_ann demo_db) = demo_db /\
  final (rate_course 2000 (mk_rate_data (Some "c1") (JInt 9)) demo_ann demo_db) = demo_db.
Proof.
  pose proof (@reads_write_nothing demo_library 2000 None demo_db)
    as (_ & _ & _ & Hcomplete & Hrate).
  split.
  - apply (Hcomplete None demo_ann). now left.
  - apply (Hrate (mk_rate_data (Some "c1") (JInt 9)) demo_ann).
    intros v [= <-]. right. right. lia.
Defined.

(** ** The profile after a completion *)

(** The order of text is transitive. *)
Lemma ascii_compare_refl (a : ascii) : Ascii.compare a a = Eq.
Proof. unfold Ascii.compare. apply N.compare_refl. Qed.

Lemma string_compare_lt_trans (s1 s2 s3 : string) :
  String.compare s1 s2 = Lt -> String.compare s2 s3 = Lt -> String.compare s1 s3 = Lt.
Proof.
  revert s2 s3. induction s1 as [|a s1 IH]; intros [|b s2] [|c s3]; cbn;
    try discriminate; try reflexivity.
  destruct (Ascii.compare a b) eqn:Hab; try discriminate;
    destruct (Ascii.compare b c) eqn:Hbc; try discriminate.
  - apply Ascii.compare_eq_iff in Hab, Hbc. subst. rewrite ascii_compare_refl. apply IH.
  - apply Ascii.compare_eq_iff in Hab. subst. now rewrite Hbc.
  - apply Ascii.compare_eq_iff in Hbc. subst. now rewrite Hab.
  - assert (Ascii.compare a c = Lt) as ->; [|reflexivity].
    unfold Ascii.compare in *. rewrite N.compare_lt_iff in *. lia.
Qed.

Lemma string_leb_trans (s1 s2 s3 : string) :
  String.leb s1 s2 = true -> String.leb s2 s3 = true -> String.leb s1 s3 = true.
Proof.
  unfold String.leb.
  destruct (String.compare s1 s2) eqn:H12; try discriminate;
    destruct (String.compare s2 s3) eqn:H23; try discriminate; intros _ _.
  - apply String.compare_eq_iff in H12. subst. now rewrite H23.
  - apply String.compare_eq_iff in H12. subst. now rewrite H23.
  - apply String.compare_eq_iff in H23. subst. now rewrite H12.
  - now rewrite (string_compare_lt_trans _ _ _ H12 H23).
Qed.

Lemma index_insert_forall {A} (P : A -> Prop) (key : A -> string) (x : A) (l : list A) :
  P x -> Forall P l -> Forall P (index_insert key x l).
Proof.
  intros Hx Hl. induction Hl as [|y l Hy Hl IH]; cbn; [now constructor|].
  destruct (String.leb (key y) (key x)); constructor; auto.
Qed.

Lemma index_insert_ordered {A} (key : A -> string) (x : A) (l : list A) :
  key_ordered key l -> key_ordered key (index_insert key x l).
Proof.
  induction 1 as [|y l Hall Hl IH]; cbn; [constructor; constructor|].
  destruct (String.leb (key y) (key x)) eqn:Hyx.
  - constructor; [|exact IH]. now apply index_insert_forall.
  - assert (String.leb (key x) (key y) = true) as Hxy.
    { destruct (String.leb_total (key x) (key y)) as [H|H]; [exact H|congruence]. }
    constructor; [|now constructor].
    constructor; [exact Hxy|].
    eapply Forall_impl; [|exact Hall]. cbv beta. intros z Hz.
    exact (string_leb_trans _ _ _ Hxy Hz).
Qed.

Lemma index_order_ordered {A} (key : A -> string) (l : list A) :
  key_ordered key (index_order key l).
Proof.
  induction l as [|x l IH] using rev_ind; [constructor|].
  rewrite index_order_snoc. now apply index_insert_ordered.
Qed.

(** Where a new row goes among ordered ones: after the rows whose key is
    not above its own, before the rows whose key is. *)
Lemma index_insert_split {A} (key : A -> string) (x : A) (l : list A) :
  key_ordered key l ->
  exists before after : list A,
    l = (before ++ after)%list /\
    index_insert key x l = (before ++ x :: after)%list /\
    Forall (fun y => String.leb (key y) (key x) = true) before /\
    Forall (fun y => String.leb (key y) (key x) = false) after.
Proof.
  induction 1 as [|y l Hall Hl IH]; cbn.
  - exists [], []. repeat split; constructor.
  - destruct (String.leb (key y) (key x)) eqn:Hyx.
    + destruct IH as (before & after & -> & -> & Hb & Ha).
      exists (y :: before), after. repeat split; [now constructor|exact Ha].
    + exists [], (y :: l). repeat split; [constructor|].
      constructor; [exact Hyx|].
      eapply Forall_impl; [|exact Hall]. cbv beta. intros z Hz.
      destruct (String.leb (key z) (key x)) eqn:Hzx; [|reflexivity].
      now rewrite (string_leb_trans _ _ _ Hz Hzx) in Hyx.
Qed.

(** X17.  A completion shows in the profile.  After a user's first
    completion of a course, [me] for that user, as the guard then loads it,
    reports the points 100 higher, the same ratings, and the completions it
    reported before with the new one, stamped with the time of the request
    as text, at its place in the order of course ids: after the completions
    of course ids not above the new one, before the others. *)
Theorem me_after_complete (now : Z) (d : db) (uid : Z) (user : user_row) (c : string) :
  c <> "" ->
  hd_error (users_by_id uid d) = Some user ->
  completions_of uid c d = [] ->
  let d1 := final (complete_course now (Some c) user d) in
  exists (user1 : user_row) (before after : list completion_row) (rs : list json),
    hd_error (users_by_id uid d1) = Some user1 /\
    Forall (fun r => String.leb (completion_course r) c = true) before /\
    Forall (fun r => String.leb (completion_course r) c = false) after /\
    value (me user d)
      = Ok (Json 200 (JObj [("user", user_dict user);
                            ("completions", JList (map completion_dict (before ++ after)));
                            ("ratings", JList rs)])) /\
    value (me user1 d1)
      = Ok (Json 200 (JObj [("user",
                             JObj [("id", JInt uid); ("username", JStr (username user));
                                   ("email", JStr (email user));
                                   ("points", JInt (points user + 100))]);
                            ("completions",
                             JList (map completion_dict before
                                    ++ JObj [("course_id", JStr c);
                                             ("completed_at", JStr (sqlite_datetime now))]
                                    :: map completion_dict after)%list);
                            ("ratings", JList rs)])).
Proof.
  intros Hc Hu Hnone d1.
  destruct (complete_course_first now d uid user c Hc Hu Hnone) as [Hrun Hu1].
  destruct (hd_error_filter_some _ _ _ Hu) as [_ Hid]. apply Z.eqb_eq in Hid.
  subst d1. rewrite Hrun. cbn [final].
  destruct (index_insert_split completion_course
              (mk_completion (seq_completions d + 1) uid c now)
              (completions_of_user uid d) (index_order_ordered _ _))
    as (before & after & Hold & Hnew & Hb & Ha).
  eexists _, before, after, _. split; [exact Hu1|].
  split; [exact Hb|]. split; [exact Ha|]. split.
  - unfold me. rewrite !bind_query_db. cbn [ret value]. rewrite Hid, Hold. reflexivity.
  - unfold me. rewrite !bind_query_db. cbn [ret value user_id].
    unfold completions_of_user in *. unfold ratings_of_user, user_dict.
    cbn [completions ratings user_id username email points].
    rewrite Hid, filter_app. cbn [filter completion_user]. rewrite Z.eqb_refl.
    rewrite index_order_snoc, Hnew, map_app. reflexivity.
Qed.

Lemma me_after_complete_witness :
  exists user1 rs,
    hd_error (users_by_id 1 (final (complete_course 2000 (Some "c1") demo_ann demo_db)))
      = Some user1 /\
    value (me user1 (final (complete_course 2000 (Some "c1") demo_ann demo_db)))
      = Ok (Json 200 (JObj [("user",
                             JObj [("id", JInt 1); ("username", JStr "ann");
                                   ("email", JStr "ann@example.org");
                                   ("points", JInt 100)]);
                            ("completions",
                             JList [JObj [("course_id", JStr "c1");
                                          ("completed_at", JStr "1970-01-01 00:33:20")]]);
                            ("ratings", JList rs)])).
Proof.
  destruct (me_after_complete 2000 demo_db 1 demo_ann "c1")
    as (user1 & before & after & rs & Hu & _ & _ & Hold & Hme);
    [discriminate|reflexivity|reflexivity|].
  exists user1, rs. split; [exact Hu|].
  rewrite Hme. clear Hme.
  assert (before = [] /\ after = []) as [-> ->]; [|reflexivity].
  cbn in Hold. injection Hold as Hold.
  destruct before; [destruct after; [now split|discriminate]|discriminate].
Defined.
